(** * Lasseck-2013 feature pipeline and the opensoundscape Spectrogram container

    A shallow embedding of
    - [modules/model_fit_algo/lasseck2013/model_fit_algo.py]
      ([file_stats], [file_file_stats], [run_stats], [build_X_y]) and
    - [opensoundscape/spectrogram.py] (the [Spectrogram] value class),
    with the statements of the specification proved or refuted on it.

    Conventions.
    - A Python call that may raise is a value of [result]: [Ok v] or
      [Raise e].
    - numpy [float64] values are [spec_float]s of the IEEE-754 binary64
      format ([prec = 53], [emax = 1024]).
    - The statistics come from libraries: the fields of
      [scipy.stats.describe] and the table of pandas' [describe()] are
      collaborators of the pipeline, as OpenCV's matcher is; their
      values, with the libraries' own order of summation and rounding,
      are not recomputed here.
    - Python integers are [Z]; the columns of the box table are [int64],
      so that a difference of two columns wraps around.
    - A 2-d [ndarray] keeps its column count beside its rows, so that a
      [(0, m)] array is different from a [(0, 0)] one. *)

From Stdlib Require Import ZArith List Floats.SpecFloat.
From stdpp Require Import base tactics option list gmap strings fin_maps.

Open Scope Z_scope.

(* ===================================================================== *)
(** * Python: exceptions, slices *)
(* ===================================================================== *)

Module Py.

Inductive exn :=
| TypeError | KeyError | ValueError | IndexError | NameError
| AttributeError
| CvError                       (* cv2.error *)
| External (msg : string).      (* raised by a collaborator *)

Inductive result (A : Type) :=
| Ok (a : A)
| Raise (e : exn).
Global Arguments Ok {A} a.
Global Arguments Raise {A} e.

Definition bind {A B} (m : result A) (k : A → result B) : result B :=
  match m with
  | Ok a => k a
  | Raise e => Raise e
  end.

Global Instance result_ret : MRet result := @Ok.
Global Instance result_bind : MBind result := λ A B k m, bind m k.
Global Instance result_fmap : FMap result :=
  λ A B f m, match m with Ok a => Ok (f a) | Raise e => Raise e end.

(** [for x in l: acc = body(acc, x)], leaving at the first exception. *)
Fixpoint for_each {A S} (body : S → A → result S) (l : list A) (s : S)
  : result S :=
  match l with
  | [] => Ok s
  | x :: l' => s' ← body s x; for_each body l' s'
  end.

(** [[f(x) for x in l]], leaving at the first exception. *)
Fixpoint comprehension {A B} (f : A → result B) (l : list A)
  : result (list B) :=
  match l with
  | [] => Ok []
  | x :: l' => y ← f x; ys ← comprehension f l'; Ok (y :: ys)
  end.

(** One end of a slice [a[start:stop]] on a sequence of [len] items:
    a negative index counts from the end, and both ends are clamped. *)
Definition slice_index (len i : Z) : Z :=
  if i <? 0 then Z.max 0 (i + len) else Z.min i len.

Definition slice {A} (start stop : Z) (l : list A) : list A :=
  let n := Z.of_nat (length l) in
  let s := slice_index n start in
  let e := slice_index n stop in
  take (Z.to_nat (e - s)) (drop (Z.to_nat s) l).

(** Number of items of [a[start:stop]] when [a] has [len] of them. *)
Definition slice_length (start stop : Z) (len : nat) : nat :=
  let n := Z.of_nat len in
  Z.to_nat (slice_index n stop - slice_index n start).

(** [l[i]] for an integer [i]: negative indices count from the end. *)
Definition getitem {A} (l : list A) (i : Z) : result A :=
  let n := Z.of_nat (length l) in
  let j := if i <? 0 then i + n else i in
  if (0 <=? j) && (j <? n) then
    match l !! Z.to_nat j with Some x => Ok x | None => Raise IndexError end
  else Raise IndexError.

End Py.
Import Py.

(* ===================================================================== *)
(** * numpy, scipy.stats and pandas reductions *)
(* ===================================================================== *)

Module Np.

Abbreviation float := spec_float.
Definition prec : Z := 53.
Definition emax : Z := 1024.

Definition fadd : float → float → float := SFadd prec emax.
Definition fsub : float → float → float := SFsub prec emax.
Definition fmul : float → float → float := SFmul prec emax.
Definition fdiv : float → float → float := SFdiv prec emax.
Definition fsqrt : float → float := SFsqrt prec emax.
Definition fabs : float → float := SFabs.
Definition fltb : float → float → bool := SFltb.

Definition NaN : float := S754_nan.
Definition zero : float := S754_zero false.
Definition max_float : float := SFmax_float prec emax.
Definition min_float : float := SFopp max_float.

(** An integer stored into a float64 array. *)
Definition of_Z (z : Z) : float := binary_normalize prec emax z 0 false.

Definition isnan (x : float) : bool :=
  match x with S754_nan => true | _ => false end.
Definition isinf (x : float) : bool :=
  match x with S754_infinity _ => true | _ => false end.
Definition isfinite (x : float) : bool :=
  match x with S754_nan | S754_infinity _ => false | _ => true end.

(** [np.nan_to_num] with its defaults: NaN becomes 0.0, +inf the
    largest and -inf the most negative finite float64. *)
Definition nan_to_num (x : float) : float :=
  match x with
  | S754_nan => zero
  | S754_infinity false => max_float
  | S754_infinity true => min_float
  | _ => x
  end.

(** ** 2-d arrays *)

Record array2 := Array2 { rows : list (list float); ncols : nat }.

Definition shape0 (a : array2) : nat := length (rows a).
Definition shape1 (a : array2) : nat := ncols a.
Definition shape (a : array2) : nat * nat := (shape0 a, shape1 a).

(** Every row has [ncols] entries. *)
Definition wf (a : array2) : Prop :=
  Forall (λ r, length r = ncols a) (rows a).

(** [a.size] and [np.ravel(a)]. *)
Definition size (a : array2) : nat := (shape0 a * shape1 a)%nat.
Definition ravel (a : array2) : list float := concat (rows a).

(** [a * k] for a scalar [k]. *)
Definition scale (a : array2) (k : float) : array2 :=
  Array2 (map (map (λ x, fmul x k)) (rows a)) (ncols a).

(** [a[y0:y1, :]] and [a[y0:y1, x0:x1]]. *)
Definition slice_rows (y0 y1 : Z) (a : array2) : array2 :=
  Array2 (Py.slice y0 y1 (rows a)) (ncols a).
Definition slice_cols (x0 x1 : Z) (a : array2) : array2 :=
  Array2 (map (Py.slice x0 x1) (rows a)) (Py.slice_length x0 x1 (ncols a)).
Definition slice2 (y0 y1 x0 x1 : Z) (a : array2) : array2 :=
  Array2 (map (Py.slice x0 x1) (Py.slice y0 y1 (rows a)))
         (Py.slice_length x0 x1 (ncols a)).

(** [np.zeros((n, m))]. *)
Definition zeros (n m : nat) : list (list float) :=
  replicate n (replicate m zero).

(** ** [np.array_split(ary, n)] along the first axis

    [Neach, extras = divmod(Ntotal, n)]; the section sizes are
    [extras] times [Neach + 1] followed by [n - extras] times [Neach];
    the sections are the slices between consecutive partial sums. *)

Fixpoint cumsum (acc : nat) (l : list nat) : list nat :=
  match l with
  | [] => []
  | x :: l' => (acc + x)%nat :: cumsum (acc + x) l'
  end.

Definition section_sizes (Ntotal Nsections : nat) : list nat :=
  let Neach := (Ntotal / Nsections)%nat in
  let extras := (Ntotal mod Nsections)%nat in
  0%nat :: replicate extras (S Neach)
    ++ replicate (Nsections - extras) Neach.

Fixpoint sub_arys {A} (ary : list A) (div_points : list nat)
  : list (list A) :=
  match div_points with
  | st :: (en :: _) as rest =>
      Py.slice (Z.of_nat st) (Z.of_nat en) ary :: sub_arys ary rest
  | _ => []
  end.

Definition array_split_list {A} (ary : list A) (n : Z)
  : result (list (list A)) :=
  if n <=? 0 then Raise ValueError
  else Ok (sub_arys ary (cumsum 0 (section_sizes (length ary) (Z.to_nat n)))).

Definition array_split (a : array2) (n : Z) : result (list array2) :=
  (λ bands, map (λ r, Array2 r (ncols a)) bands)
    <$> array_split_list (rows a) n.

(** ** Sums *)

(** Python's [sum(a)] over the entries of a 1-d array: added up one
    after the other, from 0. *)
Definition sum (a : list float) : float := foldl fadd zero a.

(** ** [scipy.stats.describe] *)

(** The fields of [scipy.stats.describe(a, axis=None)] that the
    pipeline reads. *)
Record DescribeResult := Described {
  nobs : nat;
  minmax : float * float;
  d_mean : float;
  variance : float
}.

Section Describe.

(** What SciPy computes for the entries of a non-empty array. *)
Variable sample_statistics : list float → DescribeResult.

Definition described (a : array2) : DescribeResult :=
  sample_statistics (ravel a).

(** An empty input is refused: "The input must not be empty." *)
Definition describe (a : array2) : result DescribeResult :=
  match ravel a with
  | [] => Raise ValueError
  | _ => Ok (described a)
  end.

End Describe.

(** ** [int64] columns *)

(** The value an [int64] column keeps of an integer result. *)
Definition int64 (z : Z) : Z := (z + 2 ^ 63) mod 2 ^ 64 - 2 ^ 63.

End Np.
Import Np.

(* ===================================================================== *)
(** * model_fit_algo.py *)
(* ===================================================================== *)

Module Lasseck.

Abbreviation label := string.

(** One row of the bounding-box table. *)
Record box := Box { x_min : Z; x_max : Z; y_min : Z; y_max : Z }.
Abbreviation DataFrame := (list box).

(** [df['width']] and [df['height']], the columns [file_stats] adds:
    differences of [int64] columns. *)
Definition width (b : box) : Z := int64 (x_max b - x_min b).
Definition height (b : box) : Z := int64 (y_max b - y_min b).

(** The table pandas' [describe()] returns for the three columns
    [width], [height], [y_min]: its row labels in order, each with one
    value per column. *)
Abbreviation StatsTable := (list (string * (float * float * float))).

(** A MatchStats array has one row per template. *)
Abbreviation MatchStats := (list (list float)).

(** ** Configuration

    [template_pool] is the parsed content of the CSV file named by
    [config['model_fit']['template_pool']]: [None] when the option is
    the empty string, else the pool rows [(label, templates)] with the
    JSON list already decoded.  [template_pool_db] is [None] for the
    empty string. *)
Record Config := {
  db_rw : bool;
  template_pool : option (list (label * list Z));
  template_pool_db : option string;
  num_frequency_bands : Z;
  template_match_frequency_buffer : Z;
  gaussian_filter_sigma : string
}.

(** ** Persistence layer *)

(** A record of the [spectrograms] collection, already decoded. *)
Record SpecItem := {
  si_label : label;
  si_df : DataFrame;
  si_spec : array2;
  si_normal : float
}.

(** A record of the [statistics] collection, already decoded. *)
Record StatsItem := {
  st_label : label;
  st_row : list float;
  st_match : gmap label array2
}.

(** The store: the two collections, the alternate databases a template
    pool may name, and the sequence of [write_file_stats] calls made so
    far. *)
Record Database := {
  spectrograms : list SpecItem;
  statistics : list StatsItem;
  pool_dbs : string → list SpecItem;
  write_log : list (label * list float * gmap label MatchStats)
}.

(** Modelled from the spec: [return_cursor(labels, collection, config
    [, db])] of modules/db_utils is missing; "read_many(labels,
    collection_name[, alternate_source]) -> iterable of records": the
    records of the collection whose label was asked for, in storage
    order. *)
Definition return_cursor {I} (get_label : I → label) (labels : list label)
    (collection : list I) : list I :=
  filter (λ it, get_label it ∈ labels) collection.

(** Modelled from the spec: [read_spectrogram(label, config)] of
    modules/db_utils is missing; "get(label) -> (bounding_box_table,
    spectrogram, normalization_factor)" on the persisted-read path.  A
    label without a record is an unreadable spectrogram. *)
Definition read_spectrogram (l : label) (db : Database)
  : result (DataFrame * array2 * float) :=
  match return_cursor si_label [l] (spectrograms db) with
  | it :: _ => Ok (si_df it, si_spec it, si_normal it)
  | [] => Raise (External "read_spectrogram")
  end.

(** Modelled from the spec: [cursor_item_to_stats(record)] of
    modules/db_utils is missing; "decode contract cursor_item_to_stats
    (record) -> (stats_row, match_stats_by_label)". *)
Definition cursor_item_to_stats (it : StatsItem)
  : list float * gmap label array2 :=
  (st_row it, st_match it).

(** Modelled from the spec: [write_file_stats(label, row, match_stats,
    config)] of modules/db_utils is missing; "write_file_stats(label,
    stats_row, match_stats_map)", one call persisting both results under
    the label, overwriting an earlier record of that label. *)
Definition write_file_stats (l : label) (row : list float)
    (match_stats : gmap label MatchStats) (db : Database)
  : result unit * Database :=
  (Ok (),
   {| spectrograms := spectrograms db;
      statistics :=
        filter (λ it, st_label it ≠ l) (statistics db)
        ++ [ {| st_label := l; st_row := row;
                st_match := (λ m, Array2 m 3) <$> match_stats |} ];
      pool_dbs := pool_dbs db;
      write_log := write_log db ++ [(l, row, match_stats)] |}).

(** Modelled from the spec: [extract_segments(spectrogram, table)] of
    modules/view is missing; "one per row, each array =
    spectrogram[y_min:y_max, x_min:x_max] ... Fails only if a box's
    coordinates exceed spectrogram bounds". *)
Definition in_bounds (spec : array2) (b : box) : bool :=
  (0 <=? y_min b) && (y_max b <=? Z.of_nat (shape0 spec))
  && (0 <=? x_min b) && (x_max b <=? Z.of_nat (shape1 spec)).

Definition extract_segments (spec : array2) (df : DataFrame)
  : result (list array2) :=
  comprehension
    (λ b, if in_bounds spec b
          then Ok (slice2 (y_min b) (y_max b) (x_min b) (x_max b) spec)
          else Raise IndexError)
    df.

(** What a [for item in items] of [file_file_stats] binds [item] to: a
    cursor yields records, a dict yields its keys. *)
Inductive Item :=
| RecordItem (r : SpecItem)
| KeyItem (k : string).

(** [item['label']]: a record gives its label, a [str] cannot be
    subscripted by a [str]. *)
Definition getitem_label (item : Item) : result label :=
  match item with
  | RecordItem r => Ok (si_label r)
  | KeyItem _ => Raise TypeError
  end.

(** Modelled from the spec: [cursor_item_to_data(item, config)] of
    modules/db_utils is missing; the decode contract of a
    [spectrograms] record. *)
Definition cursor_item_to_data (item : Item)
  : result (DataFrame * array2 * float) :=
  match item with
  | RecordItem r => Ok (si_df r, si_spec r, si_normal r)
  | KeyItem _ => Raise TypeError
  end.

(** A [dict] with [str] keys, in insertion order; [d[k] = v]. *)
Fixpoint dict_set {V} (k : string) (v : V) (d : list (string * V))
  : list (string * V) :=
  match d with
  | [] => [(k, v)]
  | (k', v') :: d' =>
      if decide (k = k') then (k, v) :: d' else (k', v') :: dict_set k v d'
  end.

(** [{'label': x for x in labels}]: every label is bound to the one key
    ['label']. *)
Definition label_dict (labels : list label) : list (string * label) :=
  foldl (λ d x, dict_set "label" x d) [] labels.

(** [labels_df.index.get_loc(l)] on an index without duplicates. *)
Definition get_loc (index : list label) (l : label) : result nat :=
  match list_find (λ x, x = l) index with
  | Some (i, _) => Ok i
  | None => Raise KeyError
  end.

(** [pools_df.loc[l].values[0]] and [df.iloc[positions]]. *)
Definition pools_loc (pools : list (label * list Z)) (l : label)
  : result (list Z) :=
  match list_find (λ p, p.1 = l) pools with
  | Some (_, p) => Ok p.2
  | None => Raise KeyError
  end.

Definition iloc (df : DataFrame) (positions : list Z) : result DataFrame :=
  comprehension (Py.getitem df) positions.

(** [arr[i][j] = v] on a 2-d array held as rows. *)
Definition set2 (i j : nat) (v : float) (arr : MatchStats) : MatchStats :=
  alter (λ r, <[j := v]> r) i arr.

(** The statistics block of the row: four values of the whole raw
    spectrogram or of one band. *)
Definition stats4 (s : DescribeResult) : list float :=
  [(minmax s).1; (minmax s).2; d_mean s; variance s].

(** [df_stats.loc[key].values]: the row of that label, [KeyError]
    without one. *)
Definition loc (df_stats : StatsTable) (key : string) : result (list float) :=
  match list_find (λ r, r.1 = key) df_stats with
  | Some (_, (_, (w, h, y))) => Ok [w; h; y]
  | None => Raise KeyError
  end.

(** The rows read from a table that has not two rows. *)
Definition read_rows : list string := ["min"; "max"; "mean"; "std"].

(** The segment statistics appended to the row.  "If the
    len(df_stats) == 2, it contains no segments append zeros"; any other
    table is read at its rows [min], [max], [mean] and [std], in that
    order. *)
Definition df_stats_block (df_stats : StatsTable) : result (list float) :=
  if Nat.eqb (length df_stats) 2 then Ok (concat (zeros 3 4))
  else
    v_min ← loc df_stats "min";
    v_max ← loc df_stats "max";
    v_mean ← loc df_stats "mean";
    v_std ← loc df_stats "std";
    Ok (v_min ++ v_max ++ v_mean ++ v_std).

(** The vertical search window of one template. *)
Definition y_min_target (frequency_buffer : Z) (item : box) : Z :=
  if y_min item >? frequency_buffer then y_min item - frequency_buffer else 0.

Definition y_max_target (spec_two : array2) (frequency_buffer : Z)
    (item : box) : Z :=
  if y_max item <? Z.of_nat (shape0 spec_two) - frequency_buffer
  then y_max item + frequency_buffer
  else Z.of_nat (shape0 spec_two).

(** "If the template is small enough". *)
Definition eligible (spec_one spec_two : array2) (frequency_buffer : Z)
    (item : box) : bool :=
  (y_max_target spec_two frequency_buffer item
     - y_min_target frequency_buffer item <=? Z.of_nat (shape0 spec_one))
  && (x_max item - x_min item <=? Z.of_nat (shape1 spec_one)).

Section Pipeline.

(** Collaborators outside the module: the statistics of SciPy's
    [describe] and the table of pandas' [describe()] (called on the
    columns [width], [height], [y_min]; what it answers for a table
    without rows depends on the dtype the columns were stored with), the
    live spectrogram generator, the Gaussian smoothing of
    modules/image_utils, and OpenCV's [matchTemplate] and [minMaxLoc]. *)
Variable sample_statistics : list float → DescribeResult.
Variable pd_describe : list Z → list Z → list Z → StatsTable.
Variable spect_gen : label → Config → result (DataFrame * array2 * float).
Variable apply_gaussian_filter : array2 → string → array2.
Variable matchTemplate : array2 → array2 → Z → result array2.
Variable minMaxLoc : array2 → float * float * (Z * Z) * (Z * Z).

(** The statistics of the frequency bands, one [describe] per band. *)
Definition freq_bands_stats (freq_bands : list array2)
  : result (list DescribeResult) :=
  comprehension (describe sample_statistics) freq_bands.

Definition file_stats (l : label) (config : Config) (db : Database)
  : result (DataFrame * array2 * float * list float) :=
  '(df, spec, normal) ←
    (if db_rw config then read_spectrogram l db else spect_gen l config);
  let raw_spec := scale spec normal in
  raw_spec_stats ← describe sample_statistics raw_spec;
  freq_bands ← array_split raw_spec (num_frequency_bands config);
  bands_stats ← freq_bands_stats freq_bands;
  let df_stats :=
    pd_describe (width <$> df) (height <$> df) (y_min <$> df) in
  let row := stats4 raw_spec_stats in
  let row := row ++ concat (stats4 <$> bands_stats) in
  block ← df_stats_block df_stats;
  let row := row ++ block in
  Ok (df, spec, normal, row).

(** The body of the inner loop: template [idx] of the other file slid
    over the stripe of [spec_one]. *)
Definition slide (spec_one spec_two : array2) (frequency_buffer : Z)
    (arr : MatchStats) (it : nat * (box * array2)) : result MatchStats :=
  let '(idx, (item, segment)) := it in
  let y0 := y_min_target frequency_buffer item in
  let y1 := y_max_target spec_two frequency_buffer item in
  if eligible spec_one spec_two frequency_buffer item then
    output_stats ← matchTemplate (slice_rows y0 y1 spec_one) segment 5;
    let '(min_val, max_val, min_loc, max_loc) := minMaxLoc output_stats in
    let arr := set2 idx 0 max_val arr in
    let arr := set2 idx 1 (of_Z max_loc.1) arr in
    let arr := set2 idx 2 (of_Z (max_loc.2 + y0)) arr in
    Ok arr
  else Ok arr.

(** The first half of the outer loop body: the label of the other
    file, its table (down-selected when a template pool is configured)
    and its smoothed spectrogram. *)
Definition candidate (config : Config)
    (pools_df : option (list (label * list Z))) (item : Item)
  : result (label * DataFrame * array2) :=
  idx_two ← getitem_label item;
  '(df_two, spec_two, normal_two) ←
    (if db_rw config then cursor_item_to_data item
     else spect_gen idx_two config);
  let spec_two :=
    apply_gaussian_filter spec_two (gaussian_filter_sigma config) in
  df_two ←
    match template_pool config with
    | Some _ =>
        match pools_df with
        | Some pools => pools_loc pools idx_two ≫= iloc df_two
        | None => Raise NameError
        end
    | None => Ok df_two
    end;
  Ok (idx_two, df_two, spec_two).

(** The second half: the zero array of the label and the inner loop
    over the templates. *)
Definition template_stats (spec_one spec_two : array2)
    (frequency_buffer : Z) (df_two : DataFrame) : result MatchStats :=
  segments ← extract_segments spec_two df_two;
  let zero_stats := zeros (length df_two) 3 in
  for_each (slide spec_one spec_two frequency_buffer)
           (zip (seq 0 (length df_two)) (zip df_two segments))
           zero_stats.

Definition match_item (spec_one : array2) (config : Config)
    (pools_df : option (list (label * list Z))) (item : Item)
  : result (label * MatchStats) :=
  '(idx_two, df_two, spec_two) ← candidate config pools_df item;
  arr ← template_stats spec_one spec_two
          (template_match_frequency_buffer config) df_two;
  Ok (idx_two, arr).

(** The iterable [items]: a cursor on the persisted path, the dict
    comprehension on the live one. *)
Definition items_of (labels_df : list label) (config : Config)
    (db : Database) : list Item :=
  if db_rw config then
    match template_pool config with
    | Some pools =>
        match template_pool_db config with
        | Some alt =>
            RecordItem <$> return_cursor si_label pools.*1 (pool_dbs db alt)
        | None =>
            RecordItem <$> return_cursor si_label pools.*1 (spectrograms db)
        end
    | None =>
        RecordItem <$> return_cursor si_label labels_df (spectrograms db)
    end
  else KeyItem <$> (label_dict labels_df).*1.

Definition file_file_stats (df_one : DataFrame) (spec_one : array2)
    (normal_one : float) (labels_df : list label) (config : Config)
    (db : Database) : result (gmap label MatchStats) :=
  (* [pools_df] is bound on the persisted path only *)
  let pools_df := if db_rw config then template_pool config else None in
  for_each
    (λ (match_stats_dict : gmap label MatchStats) item,
       '(idx_two, arr) ← match_item spec_one config pools_df item;
       Ok (<[idx_two := arr]> match_stats_dict))
    (items_of labels_df config db)
    ∅.

(** [run_stats] threads the store: nothing is written unless both
    statistics were computed. *)
Definition run_stats (idx_one : label) (labels_df : list label)
    (config : Config) (db : Database) : result unit * Database :=
  let computed :=
    monotonic_idx_one ← get_loc labels_df idx_one;
    '(df_one, spec_one, normal_one, row_f) ← file_stats idx_one config db;
    let spec_one :=
      apply_gaussian_filter spec_one (gaussian_filter_sigma config) in
    match_stats ←
      file_file_stats df_one spec_one normal_one labels_df config db;
    Ok (row_f, match_stats) in
  match computed with
  | Ok (row_f, match_stats) => write_file_stats idx_one row_f match_stats db
  | Raise e => (Raise e, db)
  end.

(** The statistics pass of [model_fit_algo]: [run_stats] mapped over the
    index of the labels table.  The executor hands the calls to worker
    processes and their results are consumed in index order; a call
    reads the spectrogram store and writes the record of its own label
    only, so the pass is modelled in index order, which is also the
    serial form the source keeps for debugging.  An exception of a call
    ends the pass with that exception; the store is then not described. *)
Fixpoint statistics_pass (todo : list label) (labels_df : list label)
    (config : Config) (db : Database) : result Database :=
  match todo with
  | [] => Ok db
  | idx :: rest =>
      match run_stats idx labels_df config db with
      | (Ok _, db1) => statistics_pass rest labels_df config db1
      | (Raise e, _) => Raise e
      end
  end.

End Pipeline.

(** ** build_X_y *)

(** [np.array(rows)] for a Python list of [n] rows: a 2-d float array
    when every slot holds a row and all rows have one length; a [None]
    slot or ragged rows are refused. *)
Definition common_length {A} (l : list (list A)) : option nat :=
  match l with
  | [] => Some 0%nat
  | r :: l' =>
      if forallb (λ r', Nat.eqb (length r') (length r)) l'
      then Some (length r) else None
  end.

(** A slot of a Python list that starts as [[None] * n]: using a slot
    that was never assigned is a [TypeError]. *)
Definition unwrap {A} (o : option A) : result A :=
  match o with
  | Some r => Ok r
  | None => Raise TypeError
  end.

Definition np_array {A} (slots : list (option (list A)))
  : result (list (list A)) :=
  rws ← comprehension unwrap slots;
  match common_length rws with
  | Some _ => Ok rws
  | None => Raise ValueError
  end.

(** [np.vstack(blocks)]: at least one block, all of one width. *)
Definition vstack (blocks : list array2) : result array2 :=
  match blocks with
  | [] => Raise ValueError
  | b :: blocks' =>
      if forallb (λ b', Nat.eqb (ncols b') (ncols b)) blocks'
      then Ok (Array2 (concat (rows <$> blocks)) (ncols b))
      else Raise ValueError
  end.

(** [np.array(_tmp).reshape(n, -1)]: the stacked blocks must share one
    shape to form a 3-d array, and [-1] cannot be inferred when [n = 0];
    each file's block is then flattened into one row. *)
Definition same_shape (a b : array2) : bool :=
  Nat.eqb (shape0 a) (shape0 b) && Nat.eqb (shape1 a) (shape1 b).

Definition stack_and_flatten (_tmp : list array2)
  : result (list (list float)) :=
  match _tmp with
  | [] => Raise ValueError
  | a :: rest =>
      if forallb (same_shape a) rest then Ok (ravel <$> _tmp)
      else Raise ValueError
  end.

(** [np.hstack((a, b))] of two 2-d arrays with as many rows. *)
Definition hstack {A} (a b : list (list A)) : result (list (list A)) :=
  if Nat.eqb (length a) (length b)
  then Ok (zip_with app a b) else Raise ValueError.

(** [labels_df] is the column of one species: label and 0/1 value. *)
Definition get_file_file_stats_for (labels_df : list (label * Z))
    (config : Config) : list label :=
  match template_pool config with
  | Some pools => pools.*1
  | None => (filter (λ p, p.2 = 1) labels_df).*1
  end.

(** [d[x]] on a dict of arrays. *)
Definition getitem_dict (d : gmap label array2) (x : label) : result array2 :=
  match d !! x with
  | Some a => Ok a
  | None => Raise KeyError
  end.

(** The [for item in items] loop: both slot lists are filled at the
    position of the record's label. *)
Definition read_item (index : list label) (candidates : list label)
    (acc : list (option (list float)) * list (option (list array2)))
    (item : StatsItem)
  : result (list (option (list float)) * list (option (list array2))) :=
  mono_idx ← get_loc index (st_label item);
  let '(row, match_stats) := cursor_item_to_stats item in
  picked ← comprehension (getitem_dict match_stats) candidates;
  Ok (<[mono_idx := Some row]> acc.1, <[mono_idx := Some picked]> acc.2).

Definition build_X_y (labels_df : list (label * Z)) (config : Config)
    (db : Database) : result (list (list float) * list Z) :=
  let candidates := get_file_file_stats_for labels_df config in
  let index := labels_df.*1 in
  let items := return_cursor st_label index (statistics db) in
  let n := length labels_df in
  '(file_stats, file_file_stats) ←
    for_each (read_item index candidates) items
             (replicate n None, replicate n None);
  file_stats ← np_array file_stats;
  let file_stats := map (map nan_to_num) file_stats in
  _tmp ← comprehension (λ o, unwrap o ≫= vstack) file_file_stats;
  flat ← stack_and_flatten _tmp;
  X ← hstack file_stats flat;
  Ok (X, labels_df.*2).

(** ** From the statistics pass to the assembly *)

(** The number of boxes stored for a label. *)
Definition n_boxes (db : Database) (l : label) : nat :=
  match read_spectrogram l db with
  | Ok (df, _, _) => length df
  | Raise _ => 0%nat
  end.

(** The record one [write_file_stats] call leaves in the store. *)
Definition stats_record (l : label) (row : list float)
    (match_stats : gmap label MatchStats) : StatsItem :=
  {| st_label := l; st_row := row;
     st_match := (λ m, Array2 m 3) <$> match_stats |}.

(** A statistics record is the one [run_stats] computes for its label
    over the labels [index] and the spectrograms of [db]. *)
Definition computed_record
    (sample_statistics : list float → DescribeResult)
    (pd_describe : list Z → list Z → list Z → StatsTable)
    (spect_gen : label → Config → result (DataFrame * array2 * float))
    (apply_gaussian_filter : array2 → string → array2)
    (matchTemplate : array2 → array2 → Z → result array2)
    (minMaxLoc : array2 → float * float * (Z * Z) * (Z * Z))
    (index : list label) (config : Config) (db : Database)
    (it : StatsItem) : Prop :=
  ∃ df_one spec_one normal_one row_f match_stats,
    file_stats sample_statistics pd_describe spect_gen (st_label it) config db
    = Ok (df_one, spec_one, normal_one, row_f)
    ∧ file_file_stats spect_gen apply_gaussian_filter matchTemplate minMaxLoc
        df_one
        (apply_gaussian_filter spec_one (gaussian_filter_sigma config))
        normal_one index config db = Ok match_stats
    ∧ it = stats_record (st_label it) row_f match_stats.

End Lasseck.

(* ===================================================================== *)
(** * spectrogram.py *)
(* ===================================================================== *)

Module Spec.

(** The slots of the class.  The four creation parameters default to
    [None]. *)
Record Spectrogram := {
  frequencies : list float;
  times : list float;
  spectrogram : array2;
  decibel_limits : float * float;
  window_samples : option Z;
  overlap_samples : option Z;
  window_type : option string;
  audio_sample_rate : option Z
}.

(** [Spectrogram.__init__].  The arguments are typed, so the
    [isinstance], [ndim] and tuple-length tests hold by construction;
    the shape test remains. *)
Definition init (spectrogram : array2) (frequencies times : list float)
    (decibel_limits : float * float)
    (window_samples overlap_samples : option Z)
    (window_type : option string) (audio_sample_rate : option Z)
  : result Spectrogram :=
  if decide (shape spectrogram = (length frequencies, length times)) then
    Ok {| frequencies := frequencies; times := times;
          spectrogram := spectrogram; decibel_limits := decibel_limits;
          window_samples := window_samples;
          overlap_samples := overlap_samples;
          window_type := window_type;
          audio_sample_rate := audio_sample_rate |}
  else Raise TypeError.

(** [Spectrogram(spectrogram, frequencies, times, decibel_limits)], the
    call every derived operation ends with. *)
Definition init4 (spectrogram : array2) (frequencies times : list float)
    (decibel_limits : float * float) : result Spectrogram :=
  init spectrogram frequencies times decibel_limits None None None None.

(** [np.abs(a - v).argmin()]: the first index of the least distance, an
    empty array is refused.  ([a.argmin()] stops at a NaN.) *)
Fixpoint argmin_from (best : float) (best_i i : nat) (a : list float)
  : nat :=
  match a with
  | [] => best_i
  | x :: a' =>
      if SFltb x best || (isnan x && negb (isnan best))
      then argmin_from x i (S i) a'
      else argmin_from best best_i (S i) a'
  end.

Definition argmin (a : list float) : result nat :=
  match a with
  | [] => Raise ValueError
  | x :: a' => Ok (argmin_from x 0 1 a')
  end.

Definition closest_index (a : list float) (v : float) : result nat :=
  argmin ((λ x, fabs (fsub x v)) <$> a).

(** [_spec[_spec > max_db] = max_db; _spec[_spec < min_db] = min_db]. *)
Definition clip (min_db max_db : float) (a : array2) : array2 :=
  let hi := λ x, if SFltb max_db x then max_db else x in
  let lo := λ x, if SFltb x min_db then min_db else x in
  Array2 (map (map (λ x, lo (hi x))) (rows a)) (ncols a).

Section Methods.

(** [opensoundscape.helpers.min_max_scale] and [linear_scale]. *)
Variable h_min_max_scale : array2 → list float → array2.
Variable h_linear_scale : array2 → float * float → list float → array2.

(** The test on [feature_range] shared by both rescalings. *)
Definition check_feature_range (feature_range : list float)
  : result unit :=
  match feature_range with
  | [lo; hi] =>
      if SFltb hi lo then Raise AttributeError else Ok ()
  | _ => Raise AttributeError
  end.

Definition min_max_scale (self : Spectrogram) (feature_range : list float)
  : result Spectrogram :=
  _ ← check_feature_range feature_range;
  init4 (h_min_max_scale (spectrogram self) feature_range)
        (frequencies self) (times self) (decibel_limits self).

Definition linear_scale (self : Spectrogram) (feature_range : list float)
  : result Spectrogram :=
  _ ← check_feature_range feature_range;
  init4 (h_linear_scale (spectrogram self) (decibel_limits self)
                        feature_range)
        (frequencies self) (times self) (decibel_limits self).

Definition limit_db_range (self : Spectrogram) (min_db max_db : float)
  : result Spectrogram :=
  if negb (SFltb min_db max_db) then Raise ValueError
  else
    let _spec := clip min_db max_db (spectrogram self) in
    init4 _spec (frequencies self) (times self) (decibel_limits self).

Definition bandpass (self : Spectrogram) (min_f max_f : float)
  : result Spectrogram :=
  if SFleb max_f min_f then Raise ValueError
  else
    lowest_index ← closest_index (frequencies self) min_f;
    highest_index ← closest_index (frequencies self) max_f;
    let lo := Z.of_nat lowest_index in
    let hi := Z.of_nat highest_index + 1 in
    init4 (slice_rows lo hi (spectrogram self))
          (Py.slice lo hi (frequencies self))
          (times self) (decibel_limits self).

Definition trim (self : Spectrogram) (start_time end_time : float)
  : result Spectrogram :=
  lowest_index ← closest_index (times self) start_time;
  highest_index ← closest_index (times self) end_time;
  let lo := Z.of_nat lowest_index in
  let hi := Z.of_nat highest_index + 1 in
  init4 (slice_cols lo hi (spectrogram self))
        (frequencies self)
        (Py.slice lo hi (times self)) (decibel_limits self).

(** The derived operations, with their arguments. *)
Inductive derived :=
| Bandpass (min_f max_f : float)
| Trim (start_time end_time : float)
| MinMaxScale (feature_range : list float)
| LinearScale (feature_range : list float)
| LimitDbRange (min_db max_db : float).

Definition apply (op : derived) (self : Spectrogram) : result Spectrogram :=
  match op with
  | Bandpass min_f max_f => bandpass self min_f max_f
  | Trim start_time end_time => trim self start_time end_time
  | MinMaxScale feature_range => min_max_scale self feature_range
  | LinearScale feature_range => linear_scale self feature_range
  | LimitDbRange min_db max_db => limit_db_range self min_db max_db
  end.

End Methods.

(** ** Time axis: window length, step, start times, duration *)

(** An [int] turned into a float, by [float(n)] or as the divisor of a
    float: an integer beyond the float64 range is an [OverflowError]. *)
Definition py_float (n : Z) : result float :=
  if isfinite (of_Z n) then Ok (of_Z n)
  else Raise (External "OverflowError").

(** The truth value of an attribute that is [None] or an [int]. *)
Definition truthy (o : option Z) : bool :=
  match o with
  | Some n => negb (n =? 0)
  | None => false
  end.

(** The [int] held by a truthy attribute. *)
Definition held (o : option Z) : Z := default 0 o.

Definition window_length (self : Spectrogram) : result (option float) :=
  if truthy (window_samples self) && truthy (audio_sample_rate self) then
    w ← py_float (held (window_samples self));
    r ← py_float (held (audio_sample_rate self));
    Ok (Some (fdiv w r))
  else Ok None.

Definition window_step (self : Spectrogram) : result (option float) :=
  if truthy (window_samples self) && truthy (overlap_samples self)
     && truthy (audio_sample_rate self) then
    d ← py_float (held (window_samples self) - held (overlap_samples self));
    r ← py_float (held (audio_sample_rate self));
    Ok (Some (fdiv d r))
  else Ok None.

(** A method without a [return] on one branch gives [None] there. *)
Definition window_start_times (self : Spectrogram)
  : result (option (list float)) :=
  wl ← window_length self;
  match wl with
  | Some w => Ok (Some ((λ t, fsub t (fdiv w (of_Z 2))) <$> times self))
  | None => Ok None
  end.

(** [duration] returns the value and whether the "Approximating
    duration" warning was issued; [self.times[-1]] needs one time bin. *)
Definition duration (self : Spectrogram) : result (float * bool) :=
  wl ← window_length self;
  match wl with
  | None => t ← Py.getitem (times self) (-1); Ok (t, true)
  | Some w =>
      t ← Py.getitem (times self) (-1);
      Ok (fadd t (fdiv w (of_Z 2)), false)
  end.

(** ** Amplitude signals *)

(** [np.sum(a, 0)]: the rows added up in order, one value per column; no
    row at all gives zeros. *)
Definition sum0 (a : array2) : list float :=
  match rows a with
  | [] => replicate (ncols a) zero
  | r :: rs => foldl (zip_with fadd) r rs
  end.

Definition amplitude (self : Spectrogram) (freq_range : option (list float))
  : result (list float) :=
  match freq_range with
  | None => Ok (sum0 (spectrogram self))
  | Some band =>
      lo ← Py.getitem band 0;
      hi ← Py.getitem band 1;
      banded ← bandpass self lo hi;
      Ok (sum0 (spectrogram banded))
  end.

(** [a - b] on 1-d arrays: equal lengths, or a length of one that is
    broadcast. *)
Definition np_sub (a b : list float) : result (list float) :=
  if Nat.eqb (length a) (length b) then Ok (zip_with fsub a b)
  else
    match a, b with
    | _, [y] => Ok ((λ x, fsub x y) <$> a)
    | [x], _ => Ok ((λ y, fsub x y) <$> b)
    | _, _ => Raise ValueError
    end.

(** [reject_bands[:, 1] - reject_bands[:, 0]] after [np.array]: the
    rows must form a 2-d array with at least two columns. *)
Definition band_widths (reject_bands : list (list float))
  : result (list float) :=
  match reject_bands with
  | [] => Raise IndexError
  | r :: rest =>
      if forallb (λ r', Nat.eqb (length r') (length r)) rest
         && Nat.leb 2 (length r)
      then comprehension
             (λ b, hi ← Py.getitem b 1; lo ← Py.getitem b 0;
                   Ok (fsub hi lo))
             reject_bands
      else Raise IndexError
  end.

(** [max(0, s)]: [s] when [s > 0], else the [int] 0 (held as 0.0). *)
Definition py_max0 (s : float) : float :=
  if SFltb zero s then s else zero.

Definition net_amplitude (self : Spectrogram) (signal_band : list float)
    (reject_bands : option (list (list float))) : result (list float) :=
  signal_band_amplitude ← amplitude self (Some signal_band);
  hi ← Py.getitem signal_band 1;
  lo ← Py.getitem signal_band 0;
  let signal_band_bandwidth := fsub hi lo in
  let net := (λ x, fdiv x signal_band_bandwidth) <$> signal_band_amplitude in
  match reject_bands with
  | None => Ok net
  | Some bands =>
      widths ← band_widths bands;
      let reject_bands_total_bandwidth := sum widths in
      net ← for_each
              (λ net reject_band,
                 reject_band_amplitude ← amplitude self (Some reject_band);
                 np_sub net
                   ((λ x, fdiv x reject_bands_total_bandwidth)
                      <$> reject_band_amplitude))
              bands net;
      Ok (py_max0 <$> net)
  end.

(** The class invariant the constructor checks, with the rows as long
    as the column count says. *)
Definition valid (self : Spectrogram) : Prop :=
  wf (spectrogram self)
  ∧ shape (spectrogram self) = (length (frequencies self), length (times self)).

End Spec.

(* ===================================================================== *)
(** * A small data set *)
(* ===================================================================== *)

(** Two recordings [a] and [b] with 3x2 spectrograms; [a] has no box, [b]
    has one.  The collaborators are stand-ins: the generator reads the
    same data as the store holds, the smoothing is the identity, the
    matcher accepts a template that fits the image and scores every
    offset 1, and the maximum is reported at the first offset. *)
Module Ex.
Import Lasseck.

Definition spec_a : array2 :=
  Array2 [[of_Z 1; of_Z 2]; [of_Z 3; of_Z 4]; [of_Z 5; of_Z 6]] 2.
Definition spec_b : array2 :=
  Array2 [[of_Z 2; of_Z 1]; [of_Z 0; of_Z 3]; [of_Z 4; of_Z 4]] 2.
Definition box_b : box := Box 0 1 1 2.

Definition item_a : SpecItem :=
  {| si_label := "a"; si_df := []; si_spec := spec_a; si_normal := of_Z 1 |}.
Definition item_b : SpecItem :=
  {| si_label := "b"; si_df := [box_b]; si_spec := spec_b;
     si_normal := of_Z 2 |}.

Definition db : Database :=
  {| spectrograms := [item_a; item_b]; statistics := [];
     pool_dbs := λ _, []; write_log := [] |}.

Definition config : Config :=
  {| db_rw := true; template_pool := None; template_pool_db := None;
     num_frequency_bands := 2; template_match_frequency_buffer := 1;
     gaussian_filter_sigma := "1.5" |}.

Definition live_config : Config :=
  {| db_rw := false; template_pool := None; template_pool_db := None;
     num_frequency_bands := 2; template_match_frequency_buffer := 1;
     gaussian_filter_sigma := "1.5" |}.

Definition spect_gen (l : label) (_ : Config)
  : result (DataFrame * array2 * float) :=
  read_spectrogram l db.

(** Stand-in for SciPy: smallest and largest entry, mean and sample
    variance, added up from left to right. *)
Definition smallest (a : list float) : float :=
  match a with
  | [] => NaN
  | x :: a' => foldl (λ m v, if SFltb v m then v else m) x a'
  end.
Definition largest (a : list float) : float :=
  match a with
  | [] => NaN
  | x :: a' => foldl (λ m v, if SFltb m v then v else m) x a'
  end.
Definition average (a : list float) : float :=
  fdiv (sum a) (of_Z (Z.of_nat (length a))).
Definition spread (a : list float) : float :=
  if (length a <=? 1)%nat then NaN
  else
    let m := average a in
    fdiv (sum ((λ v, fmul (fsub v m) (fsub v m)) <$> a))
         (of_Z (Z.of_nat (length a) - 1)).
Definition sample_statistics (a : list float) : DescribeResult :=
  Described (length a) (smallest a, largest a) (average a) (spread a).

(** Stand-ins for pandas.  On numeric columns [describe()] has its
    eight rows whatever the number of entries: a table without rows has
    count 0 and NaN everywhere else.  The quartile rows, which the
    pipeline does not read, are left as NaN. *)
Definition column (f : list float → float) (w h y : list Z)
  : float * float * float :=
  (f (of_Z <$> w), f (of_Z <$> h), f (of_Z <$> y)).
Definition nan3 : float * float * float := (NaN, NaN, NaN).
Definition describe_numeric (w h y : list Z) : StatsTable :=
  [ ("count", column (λ a, of_Z (Z.of_nat (length a))) w h y);
    ("mean", column average w h y);
    ("std", column (λ a, fsqrt (spread a)) w h y);
    ("min", column smallest w h y);
    ("25%", nan3); ("50%", nan3); ("75%", nan3);
    ("max", column largest w h y) ].

(** On columns of dtype object, which a table without rows may have,
    [describe()] has the rows count, unique, top and freq. *)
Definition describe_object (w h y : list Z) : StatsTable :=
  match w, h, y with
  | [], [], [] =>
      [ ("count", (zero, zero, zero)); ("unique", (zero, zero, zero));
        ("top", nan3); ("freq", nan3) ]
  | _, _, _ => describe_numeric w h y
  end.

(** The table the source's comment has in mind for "no segments": two
    rows. *)
Definition describe_two_rows (w h y : list Z) : StatsTable :=
  match w, h, y with
  | [], [], [] =>
      [ ("count", (zero, zero, zero)); ("unique", (zero, zero, zero)) ]
  | _, _, _ => describe_numeric w h y
  end.

Definition gaussian (a : array2) (_ : string) : array2 := a.

Definition matchTemplate (image templ : array2) (_ : Z) : result array2 :=
  if Nat.leb (shape0 templ) (shape0 image)
     && Nat.leb (shape1 templ) (shape1 image)
  then
    let h := (shape0 image - shape0 templ + 1)%nat in
    let w := (shape1 image - shape1 templ + 1)%nat in
    Ok (Array2 (replicate h (replicate w (of_Z 1))) w)
  else Raise CvError.

Definition minMaxLoc (out : array2) : float * float * (Z * Z) * (Z * Z) :=
  match ravel out with
  | [] => (zero, zero, (0, 0), (0, 0))
  | x :: _ => (x, x, (0, 0), (0, 0))
  end.

(** The dictionary of [file_file_stats] for source [a]. *)
Definition match_stats_a : gmap label MatchStats :=
  <["b" := [[of_Z 1; of_Z 0; of_Z 0]]]> (<["a" := []]> ∅).

(** The store after [run_stats] for [a]. *)
Definition after_a : Database :=
  (run_stats sample_statistics describe_numeric spect_gen gaussian
             matchTemplate minMaxLoc "a" ["a"; "b"] config db).2.

(** A source of five rows, and collaborators that report the height of
    the stripe they were handed as the score. *)
Definition tall : array2 :=
  Array2 (replicate 5 [of_Z 1; of_Z 2]) 2.
Definition probe_matchTemplate (image _ : array2) (_ : Z) : result array2 :=
  Ok image.
Definition probe_minMaxLoc (out : array2)
  : float * float * (Z * Z) * (Z * Z) :=
  (zero, of_Z (Z.of_nat (shape0 out)), (0, 0), (0, 0)).

(** Persisted statistics: [a] is the one positive file; its match array
    has two template rows and holds a NaN. *)
Definition block_a : array2 :=
  Array2 [[of_Z 1; of_Z 0; of_Z 0]; [NaN; of_Z 0; of_Z 0]] 3.
Definition block_b : array2 := Array2 [[of_Z 1; of_Z 0; of_Z 0]] 3.

Definition stats_a : StatsItem :=
  {| st_label := "a";
     st_row := [of_Z 1; NaN; S754_infinity false];
     st_match := <["a" := block_a]> (<["b" := block_b]> ∅) |}.
Definition stats_b : StatsItem :=
  {| st_label := "b";
     st_row := [of_Z 2; of_Z 3; of_Z 4];
     st_match := <["a" := block_a]> (<["b" := block_b]> ∅) |}.

Definition stats_db : Database :=
  {| spectrograms := [item_a; item_b]; statistics := [stats_a; stats_b];
     pool_dbs := λ _, []; write_log := [] |}.

Definition species : list (label * Z) := [("a", 1); ("b", 0)].

(** The matrix [build_X_y] assembles for [species]. *)
Definition X : list (list float) :=
  [ [of_Z 1; zero; max_float;
     of_Z 1; of_Z 0; of_Z 0; NaN; of_Z 0; of_Z 0];
    [of_Z 2; of_Z 3; of_Z 4;
     of_Z 1; of_Z 0; of_Z 0; NaN; of_Z 0; of_Z 0] ].

(** A spectrogram made from audio, with its creation parameters. *)
Definition sp : Spec.Spectrogram :=
  {| Spec.frequencies := [of_Z 0; of_Z 10; of_Z 20];
     Spec.times := [of_Z 0; of_Z 1];
     Spec.spectrogram :=
       Array2 [[of_Z (-90); of_Z (-30)]; [of_Z (-50); of_Z (-10)];
               [of_Z (-120); of_Z (-60)]] 2;
     Spec.decibel_limits := (of_Z (-100), of_Z (-20));
     Spec.window_samples := Some 512;
     Spec.overlap_samples := Some 256;
     Spec.window_type := Some "hann";
     Spec.audio_sample_rate := Some 22050 |}.

Definition rescale (a : array2) (_ : list float) : array2 := a.
Definition rescale_from (a : array2) (_ : float * float) (_ : list float)
  : array2 := a.

(** A configuration that asks for more frequency bands than the
    spectrograms have rows. *)
Definition many_bands_config : Config :=
  {| db_rw := true; template_pool := None; template_pool_db := None;
     num_frequency_bands := 5; template_match_frequency_buffer := 1;
     gaussian_filter_sigma := "1.5" |}.

(** A template pool: the first box of [b]. *)
Definition pool_config : Config :=
  {| db_rw := true; template_pool := Some [("b", [0])];
     template_pool_db := None;
     num_frequency_bands := 2; template_match_frequency_buffer := 1;
     gaussian_filter_sigma := "1.5" |}.

(** A species column without a positive file, and one where [b], the
    file with a box, is the positive one. *)
Definition negatives : list (label * Z) := [("a", 0); ("b", 0)].
Definition targets : list (label * Z) := [("a", 0); ("b", 1)].

(** The store after the statistics pass over [a] and [b]. *)
Definition after_pass : Database :=
  match statistics_pass sample_statistics describe_numeric spect_gen
          gaussian matchTemplate minMaxLoc
          ["a"; "b"] ["a"; "b"] config db with
  | Ok d => d
  | Raise _ => db
  end.

End Ex.

(* ===================================================================== *)
(** * Facts about the result monad and the loops *)
(* ===================================================================== *)

Import Lasseck.

Lemma bind_Ok {A B} (m : result A) (k : A → result B) (b : B) :
  m ≫= k = Ok b → ∃ a, m = Ok a ∧ k a = Ok b.
Proof. destruct m as [a|e]; simpl; [eauto | discriminate]. Qed.

Ltac bind_inv H :=
  let a := fresh "a" in
  let Ha := fresh "Ha" in
  apply bind_Ok in H as (a & Ha & H).

Tactic Notation "bind_as" hyp(H) ident(a) ident(Ha) :=
  apply bind_Ok in H as (a & Ha & H).

Lemma comprehension_length {A B} (f : A → result B) l ys :
  comprehension f l = Ok ys → length ys = length l.
Proof.
  revert ys. induction l as [|x l IH]; intros ys H; simpl in H.
  - by inversion H.
  - bind_inv H. bind_inv H. inversion H; subst. simpl. f_equal. eauto.
Qed.

Lemma comprehension_lookup {A B} (f : A → result B) l ys i x :
  comprehension f l = Ok ys → l !! i = Some x →
  ∃ y, ys !! i = Some y ∧ f x = Ok y.
Proof.
  revert ys i. induction l as [|x' l IH]; intros ys i H Hi; [done|].
  simpl in H. bind_inv H. bind_inv H. inversion H; subst.
  destruct i as [|i]; simpl in *.
  - inversion Hi; subst. eauto.
  - eauto.
Qed.

Lemma comprehension_total {A B} (f : A → result B) l :
  Forall (λ x, ∃ y, f x = Ok y) l → ∃ ys, comprehension f l = Ok ys.
Proof.
  induction 1 as [|x l [y Hy] _ [ys Hys]]; simpl; [eauto|].
  rewrite Hy. simpl. rewrite Hys. simpl. eauto.
Qed.

(* ===================================================================== *)
(** * Slices and the equal-chunk split *)
(* ===================================================================== *)

Lemma slice_nat {A} (st en : nat) (l : list A) :
  (st ≤ en)%nat →
  Py.slice (Z.of_nat st) (Z.of_nat en) l = take (en - st) (drop st l).
Proof.
  intros Hle. unfold Py.slice, Py.slice_index.
  destruct (Z.ltb_spec (Z.of_nat st) 0); [lia|].
  destruct (Z.ltb_spec (Z.of_nat en) 0); [lia|].
  destruct (decide (st ≤ length l)%nat) as [Hs|Hs].
  - rewrite (Z.min_l (Z.of_nat st)) by lia. rewrite Nat2Z.id.
    destruct (decide (en ≤ length l)%nat) as [He|He].
    + rewrite Z.min_l by lia. f_equal. lia.
    + rewrite Z.min_r by lia.
      rewrite !take_ge; [done | rewrite length_drop; lia
                              | rewrite length_drop; lia].
  - rewrite (Z.min_r (Z.of_nat st)) by lia. rewrite Nat2Z.id.
    rewrite !drop_ge by lia. by rewrite !take_nil.
Qed.

Lemma sub_arys_concat {A} (ary : list A) (szs : list nat) (acc : nat) :
  concat (sub_arys ary (acc :: cumsum acc szs))
  = take (sum_list szs) (drop acc ary).
Proof.
  revert acc. induction szs as [|x szs IH]; intros acc.
  - simpl. by rewrite take_0.
  - change (concat (sub_arys ary (acc :: cumsum acc (x :: szs))))
      with (Py.slice (Z.of_nat acc) (Z.of_nat (acc + x)) ary
            ++ concat (sub_arys ary ((acc + x)%nat :: cumsum (acc + x) szs))).
    rewrite IH, slice_nat by lia.
    replace (acc + x - acc)%nat with x by lia.
    change (sum_list (x :: szs)) with (x + sum_list szs)%nat.
    rewrite <- take_take_drop, drop_drop. done.
Qed.

Lemma sub_arys_length {A} (ary : list A) (szs : list nat) (acc : nat) :
  length (sub_arys ary (acc :: cumsum acc szs)) = length szs.
Proof.
  revert acc. induction szs as [|x szs IH]; intros acc; [done|].
  change (sub_arys ary (acc :: cumsum acc (x :: szs)))
    with (Py.slice (Z.of_nat acc) (Z.of_nat (acc + x)) ary
          :: sub_arys ary ((acc + x)%nat :: cumsum (acc + x) szs)).
  cbn [length]. f_equal. apply IH.
Qed.

Lemma sub_arys_sizes {A} (ary : list A) (szs : list nat) (acc : nat) :
  (acc + sum_list szs ≤ length ary)%nat →
  Forall2 (λ c sz, length c = sz) (sub_arys ary (acc :: cumsum acc szs)) szs.
Proof.
  revert acc. induction szs as [|x szs IH]; intros acc Hle; [constructor|].
  change (sub_arys ary (acc :: cumsum acc (x :: szs)))
    with (Py.slice (Z.of_nat acc) (Z.of_nat (acc + x)) ary
          :: sub_arys ary ((acc + x)%nat :: cumsum (acc + x) szs)).
  simpl in Hle. constructor.
  - rewrite slice_nat by lia. rewrite length_take, length_drop. lia.
  - apply IH. lia.
Qed.

Lemma sum_list_append (l k : list nat) :
  sum_list (l ++ k) = (sum_list l + sum_list k)%nat.
Proof. induction l as [|x l IH]; simpl; [done | rewrite IH; lia]. Qed.

Lemma section_sizes_sum (Ntotal n : nat) :
  (0 < n)%nat →
  sum_list (replicate (Ntotal mod n)%nat (S (Ntotal / n)%nat)
            ++ replicate (n - Ntotal mod n)%nat (Ntotal / n)%nat) = Ntotal.
Proof.
  intros Hn. rewrite sum_list_append, !sum_list_replicate.
  pose proof (Nat.div_mod_eq Ntotal n) as Hdm.
  pose proof (Nat.mod_upper_bound Ntotal n ltac:(lia)) as Hlt.
  nia.
Qed.

Lemma section_sizes_pos (Ntotal n : nat) :
  (0 < n ≤ Ntotal)%nat →
  Forall (λ sz, 0 < sz)%nat
    (replicate (Ntotal mod n)%nat (S (Ntotal / n)%nat)
     ++ replicate (n - Ntotal mod n)%nat (Ntotal / n)%nat).
Proof.
  intros [Hn Hle]. apply Forall_app. split; apply Forall_replicate; [lia|].
  apply Nat.div_str_pos. lia.
Qed.

Lemma sized_sections_nonempty {A} (secs : list (list A)) (szs : list nat) :
  Forall2 (λ c sz, length c = sz) secs szs →
  Forall (λ sz, 0 < sz)%nat szs →
  Forall (λ s, 0 < length s)%nat secs.
Proof.
  induction 1 as [|c sz cs szs' Hc _ IH]; intros Hpos; [constructor|].
  inversion Hpos; subst. constructor; [lia | by apply IH].
Qed.

(** The split of a list: as many sections as asked for, glued back they
    are the list, and none is empty while there are enough items. *)
Lemma array_split_list_spec {A} (ary : list A) (n : Z) :
  0 < n →
  ∃ secs, array_split_list ary n = Ok secs
    ∧ length secs = Z.to_nat n
    ∧ concat secs = ary
    ∧ (n ≤ Z.of_nat (length ary) → Forall (λ s, 0 < length s)%nat secs).
Proof.
  intros Hn. unfold array_split_list.
  destruct (Z.leb_spec n 0); [lia|].
  eexists; split; [reflexivity|].
  set (N := length ary). set (k := Z.to_nat n).
  assert (0 < k)%nat as Hk by lia.
  unfold section_sizes. simpl cumsum.
  set (szs := replicate (N mod k)%nat (S (N / k)%nat)
              ++ replicate (k - N mod k)%nat (N / k)%nat).
  pose proof (section_sizes_sum N k Hk) as Hsum. fold szs in Hsum.
  split; [|split].
  - rewrite sub_arys_length. unfold szs.
    rewrite length_app, !length_replicate.
    pose proof (Nat.mod_upper_bound N k ltac:(lia)). lia.
  - rewrite sub_arys_concat, Hsum. unfold N. rewrite drop_0.
    apply take_ge. lia.
  - intros Hle.
    assert (k ≤ N)%nat as HkN by (unfold N, k; lia).
    assert (0 + sum_list szs ≤ length ary)%nat as Hfit by (rewrite Hsum; done).
    pose proof (sub_arys_sizes ary szs 0 Hfit) as Hsz.
    pose proof (section_sizes_pos N k (conj Hk HkN)) as Hpos.
    fold szs in Hpos.
    eapply sized_sections_nonempty; eauto.
Qed.

Lemma stats4_concat_length (st : list DescribeResult) :
  length (concat (stats4 <$> st)) = (4 * length st)%nat.
Proof.
  induction st as [|s st IH]; [done|].
  rewrite fmap_cons. cbn [concat]. rewrite length_app, IH. simpl. lia.
Qed.

Lemma describe_nonempty (stats : list float → DescribeResult) (a : array2) :
  wf a → (0 < shape0 a)%nat → (0 < ncols a)%nat →
  describe stats a = Ok (described stats a).
Proof.
  intros Hwf Hr Hc. unfold describe.
  destruct (ravel a) as [|x flat] eqn:E; [|done].
  exfalso. destruct a as [rws c]. unfold wf, ravel, shape0 in *. simpl in *.
  destruct rws as [|r rs]; [simpl in Hr; lia|].
  inversion Hwf; subst. destruct r; simpl in *; [lia | discriminate].
Qed.

Lemma comprehension_map {A B} (f : A → result B) (g : A → B) l :
  Forall (λ x, f x = Ok (g x)) l → comprehension f l = Ok (g <$> l).
Proof.
  induction 1 as [|x l Hx _ IH]; simpl; [done|].
  rewrite Hx. simpl. rewrite IH. done.
Qed.

(** [array_split] on a 2-d array: the bands partition the rows. *)
Lemma array_split_spec (raw : array2) (K : Z) :
  1 ≤ K ≤ Z.of_nat (shape0 raw) →
  ∃ bands, array_split raw K = Ok bands
    ∧ length bands = Z.to_nat K
    ∧ concat (rows <$> bands) = rows raw
    ∧ Forall (λ b, ncols b = ncols raw ∧ (0 < shape0 b)%nat) bands.
Proof.
  intros [HK1 HK2].
  destruct (array_split_list_spec (rows raw) K ltac:(lia))
    as (secs & Hsplit & Hlen & Hcat & Hpos).
  specialize (Hpos HK2).
  exists ((λ r, Array2 r (ncols raw)) <$> secs).
  split; [|split; [|split]].
  - unfold array_split. rewrite Hsplit. done.
  - by rewrite length_fmap.
  - rewrite <- list_fmap_compose.
    rewrite <- Hcat. f_equal. clear.
    induction secs as [|c secs IH]; [done|]. rewrite fmap_cons, IH. done.
  - apply Forall_fmap. eapply Forall_impl; [exact Hpos|].
    intros s Hs. simpl. done.
Qed.

Lemma bands_wf (raw : array2) (bands : list array2) :
  wf raw →
  concat (rows <$> bands) = rows raw →
  Forall (λ b, ncols b = ncols raw ∧ (0 < shape0 b)%nat) bands →
  Forall wf bands.
Proof.
  intros Hwf Hcat Hbands. apply Forall_forall. intros b Hb.
  pose proof (proj1 (Forall_forall _ _) Hbands b Hb) as [Hc _].
  unfold wf in *. apply Forall_forall. intros r Hr. rewrite Hc.
  apply (proj1 (Forall_forall _ _) Hwf). rewrite <- Hcat.
  apply list_elem_of_In, in_concat. exists (rows b). split.
  - apply list_elem_of_In. apply list_elem_of_fmap. eauto.
  - by apply list_elem_of_In.
Qed.

Lemma bands_described (stats : list float → DescribeResult)
    (raw : array2) (bands : list array2) :
  wf raw → (0 < ncols raw)%nat →
  concat (rows <$> bands) = rows raw →
  Forall (λ b, ncols b = ncols raw ∧ (0 < shape0 b)%nat) bands →
  freq_bands_stats stats bands = Ok (described stats <$> bands).
Proof.
  intros Hwf Hc Hcat Hbands. apply comprehension_map.
  pose proof (bands_wf raw bands Hwf Hcat Hbands) as Hwfs.
  apply Forall_forall. intros b Hb.
  pose proof (proj1 (Forall_forall _ _) Hbands b Hb) as [Hcb Hrb].
  pose proof (proj1 (Forall_forall _ _) Hwfs b Hb) as Hwb.
  apply describe_nonempty; [done | done | lia].
Qed.

Lemma wf_scale (a : array2) k : wf a → wf (scale a k).
Proof.
  unfold wf, scale. simpl. intros H. apply Forall_fmap.
  eapply Forall_impl; [exact H|]. intros r Hr. simpl.
  by rewrite length_map.
Qed.

(* ===================================================================== *)
(** * First-order statistics *)
(* ===================================================================== *)


(** ** The segment statistics *)

Lemma loc_Ok (df_stats : StatsTable) (key : string) v :
  loc df_stats key = Ok v → length v = 3%nat ∧ key ∈ df_stats.*1.
Proof.
  unfold loc. destruct (list_find _ df_stats) as [[i [k [[w h] y]]]|] eqn:E;
    [|done].
  intros H. inversion H; subst; clear H. split; [done|].
  apply list_find_Some in E as (Hi & Hk & _). simpl in Hk. subst k.
  apply list_elem_of_fmap. exists (key, (w, h, y)). split; [done|].
  by eapply list_elem_of_lookup_2.
Qed.

Lemma loc_Raise (df_stats : StatsTable) (key : string) e :
  loc df_stats key = Raise e → e = KeyError ∧ key ∉ df_stats.*1.
Proof.
  unfold loc. destruct (list_find _ df_stats) as [[i [k [[w h] y]]]|] eqn:E;
    [done|].
  intros H. inversion H; subst; clear H. split; [done|].
  intros Hin. apply list_elem_of_fmap in Hin as ([k v] & Hk & Hin).
  simpl in Hk. subst k.
  apply list_find_None in E.
  by apply (proj1 (Forall_forall _ _) E _ Hin).
Qed.

(** The block is returned exactly for a table of two rows and for a
    table with the four rows; it has twelve values. *)
Lemma df_stats_block_Ok (df_stats : StatsTable) block :
  df_stats_block df_stats = Ok block →
  length block = 12%nat
  ∧ (length df_stats = 2%nat ∧ block = replicate 12 zero
     ∨ length df_stats ≠ 2%nat
       ∧ Forall (λ key, key ∈ df_stats.*1) read_rows
       ∧ ∃ v_min v_max v_mean v_std,
           loc df_stats "min" = Ok v_min ∧ loc df_stats "max" = Ok v_max
           ∧ loc df_stats "mean" = Ok v_mean ∧ loc df_stats "std" = Ok v_std
           ∧ block = v_min ++ v_max ++ v_mean ++ v_std).
Proof.
  unfold df_stats_block. intros H.
  destruct (Nat.eqb_spec (length df_stats) 2) as [E|E].
  - inversion H; subst. split; [done|]. left. done.
  - bind_as H v_min H1. bind_as H v_max H2. bind_as H v_mean H3.
    bind_as H v_std H4. inversion H; subst; clear H.
    destruct (loc_Ok _ _ _ H1) as [L1 I1].
    destruct (loc_Ok _ _ _ H2) as [L2 I2].
    destruct (loc_Ok _ _ _ H3) as [L3 I3].
    destruct (loc_Ok _ _ _ H4) as [L4 I4].
    split; [rewrite !length_app; lia|]. right. split; [done|].
    split; [by repeat constructor|].
    by exists v_min, v_max, v_mean, v_std.
Qed.

Lemma df_stats_block_Raise (df_stats : StatsTable) e :
  df_stats_block df_stats = Raise e →
  e = KeyError ∧ length df_stats ≠ 2%nat
  ∧ ¬ Forall (λ key, key ∈ df_stats.*1) read_rows.
Proof.
  unfold df_stats_block. intros H.
  destruct (Nat.eqb_spec (length df_stats) 2) as [E|E]; [done|].
  assert (∃ key, key ∈ read_rows ∧ loc df_stats key = Raise e)
    as (key & Hkey & Hloc).
  { destruct (loc df_stats "min") eqn:H1;
      [|exists "min"; split;
        [unfold read_rows; set_solver | cbn in H; congruence]].
    destruct (loc df_stats "max") eqn:H2;
      [|exists "max"; split;
        [unfold read_rows; set_solver | cbn in H; congruence]].
    destruct (loc df_stats "mean") eqn:H3;
      [|exists "mean"; split;
        [unfold read_rows; set_solver | cbn in H; congruence]].
    destruct (loc df_stats "std") eqn:H4;
      [|exists "std"; split;
        [unfold read_rows; set_solver | cbn in H; congruence]].
    done. }
  destruct (loc_Raise _ _ _ Hloc) as [-> Hnin].
  split; [done|]. split; [done|]. intros Hall.
  by apply Hnin, (proj1 (Forall_forall _ _) Hall).
Qed.

(** [file_stats] on a spectrogram that can be described: everything up
    to the segment statistics returns, and the row is the four fields of
    the raw spectrogram, of each band, and the block. *)
Lemma file_stats_unfolded
    (sample_statistics : list float → DescribeResult)
    (pd_describe : list Z → list Z → list Z → StatsTable)
    (spect_gen : label → Config → result (DataFrame * array2 * float))
    (l : label) (config : Config) (db : Database)
    (df : DataFrame) (spec : array2) (normal : float) :
  (if db_rw config then read_spectrogram l db else spect_gen l config)
    = Ok (df, spec, normal) →
  wf spec → (0 < ncols spec)%nat →
  1 ≤ num_frequency_bands config ≤ Z.of_nat (shape0 spec) →
  ∃ bands,
    array_split (scale spec normal) (num_frequency_bands config) = Ok bands
    ∧ Z.of_nat (length bands) = num_frequency_bands config
    ∧ file_stats sample_statistics pd_describe spect_gen l config db
      = block ← df_stats_block
                  (pd_describe (width <$> df) (height <$> df) (y_min <$> df));
        Ok (df, spec, normal,
            (stats4 (described sample_statistics (scale spec normal))
             ++ concat ((λ b, stats4 (described sample_statistics b))
                        <$> bands))
            ++ block).
Proof.
  intros Hsrc Hwf Hc HK.
  assert (wf (scale spec normal)) as Hwfr by by apply wf_scale.
  assert (shape0 (scale spec normal) = shape0 spec) as Hsh
    by (unfold shape0, scale; simpl; by rewrite length_map).
  assert (ncols (scale spec normal) = ncols spec) as Hnc by done.
  destruct (array_split_spec (scale spec normal) (num_frequency_bands config)
              ltac:(rewrite Hsh; done))
    as (bands & Hs & Hlen & Hcat & Hb).
  pose proof (bands_described sample_statistics _ bands Hwfr
                ltac:(rewrite Hnc; done) Hcat Hb) as Hst.
  assert (describe sample_statistics (scale spec normal)
          = Ok (described sample_statistics (scale spec normal)))
    as Hd by (apply describe_nonempty; [done | lia | lia]).
  exists bands. split; [exact Hs|]. split; [lia|].
  unfold file_stats. rewrite Hsrc. cbn [mbind result_bind bind].
  rewrite Hd. cbn [mbind result_bind bind]. rewrite Hs.
  cbn [mbind result_bind bind]. rewrite Hst. cbn [mbind result_bind bind].
  rewrite <- list_fmap_compose. reflexivity.
Qed.

(* ===================================================================== *)
(** * The cross-file template matcher *)
(* ===================================================================== *)

Section Matcher.

Context (sample_statistics : list float → DescribeResult)
        (pd_describe : list Z → list Z → list Z → StatsTable)
        (spect_gen : label → Config → result (DataFrame * array2 * float))
        (apply_gaussian_filter : array2 → string → array2)
        (matchTemplate : array2 → array2 → Z → result array2)
        (minMaxLoc : array2 → float * float * (Z * Z) * (Z * Z)).

Local Abbreviation slide := (Lasseck.slide matchTemplate minMaxLoc).
Local Abbreviation template_stats := (Lasseck.template_stats matchTemplate minMaxLoc).
Local Abbreviation candidate := (Lasseck.candidate spect_gen apply_gaussian_filter).
Local Abbreviation match_item :=
  (Lasseck.match_item spect_gen apply_gaussian_filter matchTemplate minMaxLoc).
Local Abbreviation file_file_stats :=
  (Lasseck.file_file_stats spect_gen apply_gaussian_filter matchTemplate
                           minMaxLoc).
Local Abbreviation run_stats :=
  (Lasseck.run_stats sample_statistics pd_describe spect_gen
                     apply_gaussian_filter matchTemplate minMaxLoc).

(** The three assignments of an eligible template, as one row update. *)
Lemma set2_row (arr : MatchStats) (k : nat) (a b c : float) :
  set2 k 2 c (set2 k 1 b (set2 k 0 a arr)) !! k
  = (λ r, <[2%nat := c]> (<[1%nat := b]> (<[0%nat := a]> r))) <$> arr !! k.
Proof.
  unfold set2. rewrite !list_lookup_alter_eq. by destruct (arr !! k).
Qed.

Lemma set2_row_ne (arr : MatchStats) (k i : nat) (a b c : float) :
  k ≠ i → set2 k 2 c (set2 k 1 b (set2 k 0 a arr)) !! i = arr !! i.
Proof. intros Hne. unfold set2. by rewrite !list_lookup_alter_ne. Qed.

Lemma set2_row_length (arr : MatchStats) (k : nat) (a b c : float) :
  length (set2 k 2 c (set2 k 1 b (set2 k 0 a arr))) = length arr.
Proof. unfold set2. by rewrite !length_alter. Qed.

(** One step of the inner loop. *)
Lemma slide_step spec_one spec_two buffer arr k item seg arr1 :
  slide spec_one spec_two buffer arr (k, (item, seg)) = Ok arr1 →
  length arr1 = length arr
  ∧ (∀ i, i ≠ k → arr1 !! i = arr !! i)
  ∧ if eligible spec_one spec_two buffer item then
      ∃ out,
        matchTemplate
          (slice_rows (y_min_target buffer item)
                      (y_max_target spec_two buffer item) spec_one) seg 5
        = Ok out
        ∧ arr1 !! k
          = (λ r, <[2%nat := of_Z ((minMaxLoc out).2.2
                                   + y_min_target buffer item)]>
                    (<[1%nat := of_Z (minMaxLoc out).2.1]>
                       (<[0%nat := (minMaxLoc out).1.1.2]> r)))
            <$> arr !! k
    else arr1 = arr.
Proof.
  unfold Lasseck.slide. destruct (eligible _ _ _ _).
  - intros H. bind_inv H.
    destruct (minMaxLoc a) as [[[min_val max_val] min_loc] max_loc] eqn:E.
    inversion H; subst; clear H.
    split; [apply set2_row_length|]. split.
    + intros i Hi. by apply set2_row_ne.
    + exists a. split; [done|]. rewrite E. simpl. apply set2_row.
  - intros H. inversion H; subst. done.
Qed.

(** The inner loop, started at template [k] on any array. *)
Lemma slide_loop spec_one spec_two buffer (its : list (box * array2)) :
  ∀ (k : nat) (arr arr' : MatchStats),
  for_each (slide spec_one spec_two buffer)
           (zip (seq k (length its)) its) arr = Ok arr' →
  length arr' = length arr
  ∧ (∀ i, (i < k)%nat → arr' !! i = arr !! i)
  ∧ ∀ j item seg, its !! j = Some (item, seg) →
      if eligible spec_one spec_two buffer item then
        ∃ out,
          matchTemplate
            (slice_rows (y_min_target buffer item)
                        (y_max_target spec_two buffer item) spec_one) seg 5
          = Ok out
          ∧ arr' !! (k + j)%nat
            = (λ r, <[2%nat := of_Z ((minMaxLoc out).2.2
                                     + y_min_target buffer item)]>
                      (<[1%nat := of_Z (minMaxLoc out).2.1]>
                         (<[0%nat := (minMaxLoc out).1.1.2]> r)))
              <$> arr !! (k + j)%nat
      else arr' !! (k + j)%nat = arr !! (k + j)%nat.
Proof.
  induction its as [|[item0 seg0] its IH]; intros k arr arr' H.
  - simpl in H. inversion H; subst. repeat split; try done.
  - cbn [length seq zip zip_with for_each] in H. bind_inv H.
    apply slide_step in Ha as (Hlen1 & Hne1 & Hk).
    destruct (IH _ _ _ H) as (Hlen & Hlt & Hrest).
    split; [congruence|]. split.
    + intros i Hi. rewrite Hlt by lia. apply Hne1. lia.
    + intros [|j] item seg Hj; simpl in Hj.
      * inversion Hj; subst. rewrite Nat.add_0_r, Hlt by lia.
        destruct (eligible _ _ _ _); [done | by subst].
      * specialize (Hrest j item seg Hj).
        replace (k + S j)%nat with (S k + j)%nat by lia.
        destruct (eligible spec_one spec_two buffer item).
        -- destruct Hrest as [out [Hout Hrow]]. exists out.
           split; [done|]. rewrite Hrow, Hne1 by lia. done.
        -- rewrite Hrest. apply Hne1. lia.
Qed.

(** The inner loop on the zero array: row [i] is the record of template
    [i] when it is eligible, and stays zero otherwise. *)
Lemma template_stats_rows spec_one spec_two buffer df_two arr :
  template_stats spec_one spec_two buffer df_two = Ok arr →
  ∃ segments,
    extract_segments spec_two df_two = Ok segments
    ∧ length segments = length df_two
    ∧ length arr = length segments
    ∧ ∀ i item seg,
        df_two !! i = Some item → segments !! i = Some seg →
        if eligible spec_one spec_two buffer item then
          ∃ out,
            matchTemplate
              (slice_rows (y_min_target buffer item)
                          (y_max_target spec_two buffer item) spec_one) seg 5
            = Ok out
            ∧ arr !! i
              = Some [(minMaxLoc out).1.1.2;
                      of_Z (minMaxLoc out).2.1;
                      of_Z ((minMaxLoc out).2.2 + y_min_target buffer item)]
        else arr !! i = Some [zero; zero; zero].
Proof.
  unfold Lasseck.template_stats. intros H. bind_inv H.
  rename a into segments.
  pose proof (comprehension_length _ _ _ Ha) as Hlen.
  exists segments. split; [done|]. split; [done|].
  assert (length df_two = length (zip df_two segments)) as Hz
    by (rewrite length_zip; lia).
  rewrite Hz in H at 1.
  destruct (slide_loop _ _ _ _ _ _ _ H) as (Hl & _ & Hrows).
  split; [rewrite Hl; unfold zeros; rewrite length_replicate; lia|].
  intros i item seg Hi Hs.
  assert (zip df_two segments !! i = Some (item, seg)) as Hzi
    by by apply lookup_zip_Some.
  specialize (Hrows i item seg Hzi). simpl in Hrows.
  assert (zeros (length df_two) 3 !! i = Some [zero; zero; zero]) as Hzero.
  { unfold zeros. apply lookup_replicate_2. by eapply lookup_lt_Some. }
  rewrite Hzero in Hrows.
  destruct (eligible spec_one spec_two buffer item); [|done].
  destruct Hrows as [out [Hout Hrow]]. exists out. split; [done|].
  rewrite Hrow. done.
Qed.

(** The outer loop: every entry of the dictionary is the array of one
    item, every item leaves an entry. *)
Lemma outer_loop (f : Item → result (label * MatchStats)) (items : list Item) :
  ∀ (d0 d : gmap label MatchStats),
  for_each (λ (m : gmap label MatchStats) item,
              '(k, v) ← f item; Ok (<[k := v]> m)) items d0 = Ok d →
  (∀ l arr, d !! l = Some arr →
     d0 !! l = Some arr ∨ ∃ item, item ∈ items ∧ f item = Ok (l, arr))
  ∧ (∀ l, is_Some (d0 !! l) → is_Some (d !! l))
  ∧ (∀ item, item ∈ items →
       ∃ l arr, f item = Ok (l, arr) ∧ is_Some (d !! l)).
Proof.
  induction items as [|item items IH]; intros d0 d H.
  - simpl in H. inversion H; subst. split; [eauto|]. split; [done|].
    intros item Hin. by apply elem_of_nil in Hin.
  - cbn [for_each] in H. bind_inv H. bind_inv Ha.
    destruct a0 as [k v]. inversion Ha; subst; clear Ha.
    destruct (IH _ _ H) as (Hfrom & Hkeep & Hall).
    split; [|split].
    + intros l arr Hl. destruct (Hfrom l arr Hl) as [H0|(it & Hit & Hf)].
      * destruct (decide (k = l)) as [->|Hne].
        -- rewrite lookup_insert_eq in H0. inversion H0; subst.
           right. exists item. split; [left | done].
        -- rewrite lookup_insert_ne in H0 by done. by left.
      * right. exists it. split; [by right | done].
    + intros l Hl. apply Hkeep.
      destruct (decide (k = l)) as [->|Hne].
      * rewrite lookup_insert_eq. eauto.
      * by rewrite lookup_insert_ne.
    + intros it Hit. apply elem_of_cons in Hit as [->|Hit].
      * exists k, v. split; [done|]. apply Hkeep.
        rewrite lookup_insert_eq. eauto.
      * by apply Hall.
Qed.

Lemma match_item_inv spec_one config pools item l arr :
  match_item spec_one config pools item = Ok (l, arr) →
  ∃ df_two spec_two,
    candidate config pools item = Ok (l, df_two, spec_two)
    ∧ template_stats spec_one spec_two
        (template_match_frequency_buffer config) df_two = Ok arr.
Proof.
  unfold Lasseck.match_item. intros H. bind_inv H.
  destruct a as [[idx_two df_two] spec_two]. bind_inv H.
  inversion H; subst. eauto.
Qed.

Lemma candidate_label config pools item l df_two spec_two :
  candidate config pools item = Ok (l, df_two, spec_two) →
  getitem_label item = Ok l.
Proof.
  unfold Lasseck.candidate. intros H. bind_inv H. bind_inv H.
  destruct a0 as [[df spec] normal]. bind_inv H. inversion H; subst. done.
Qed.

(** C4. Every array that [file_file_stats] returns under a label belongs
    to one item of the candidate set; it has one row of three values per
    extracted segment; row [i] holds [max_val, max_loc x, max_loc y +
    y_min_target] (the y coordinate put back into full-spectrogram
    coordinates) exactly when template [i] is size-eligible, and is
    [0, 0, 0] when it is not. *)
Theorem match_stats_rows df_one spec_one normal_one labels_df config db
    (d : gmap label MatchStats) (l : label) (arr : MatchStats) :
  file_file_stats df_one spec_one normal_one labels_df config db = Ok d →
  d !! l = Some arr →
  let buffer := template_match_frequency_buffer config in
  ∃ item df_two spec_two segments,
    item ∈ items_of labels_df config db
    ∧ candidate config (if db_rw config then template_pool config else None)
                item = Ok (l, df_two, spec_two)
    ∧ extract_segments spec_two df_two = Ok segments
    ∧ length arr = length segments
    ∧ Forall (λ r, length r = 3%nat) arr
    ∧ ∀ i item_i seg,
        df_two !! i = Some item_i → segments !! i = Some seg →
        if eligible spec_one spec_two buffer item_i then
          ∃ out,
            matchTemplate
              (slice_rows (y_min_target buffer item_i)
                          (y_max_target spec_two buffer item_i) spec_one)
              seg 5 = Ok out
            ∧ arr !! i
              = Some [(minMaxLoc out).1.1.2;
                      of_Z (minMaxLoc out).2.1;
                      of_Z ((minMaxLoc out).2.2
                            + y_min_target buffer item_i)]
        else arr !! i = Some [zero; zero; zero].
Proof.
  intros Hrun Hl buffer. subst buffer.
  unfold Lasseck.file_file_stats in Hrun.
  destruct (outer_loop _ _ _ _ Hrun) as (Hfrom & _ & _).
  destruct (Hfrom l arr Hl) as [H0|(item & Hin & Hitem)];
    [by rewrite lookup_empty in H0|].
  apply match_item_inv in Hitem as (df_two & spec_two & Hcand & Hts).
  destruct (template_stats_rows _ _ _ _ _ Hts)
    as (segments & Hseg & Hlen & Hlarr & Hrows).
  exists item, df_two, spec_two, segments.
  repeat (split; [done|]). split; [|done].
  apply Forall_lookup. intros i r Hr.
  assert (i < length df_two)%nat as Hi
    by (apply lookup_lt_Some in Hr; lia).
  destruct (lookup_lt_is_Some_2 df_two i Hi) as [item_i Hitem_i].
  destruct (lookup_lt_is_Some_2 segments i ltac:(lia)) as [seg Hsegi].
  specialize (Hrows i item_i seg Hitem_i Hsegi).
  destruct (eligible spec_one spec_two _ item_i).
  - destruct Hrows as [out [_ Hrow]]. rewrite Hr in Hrow.
    by inversion Hrow.
  - rewrite Hr in Hrows. by inversion Hrows.
Qed.

(** C1, as the code has it. The search window of a template is
    [y_min_target = max(0, y_min - buffer)] and [y_max_target =
    min(height, y_max + buffer)] where [height] is the number of rows of
    the smoothed spectrogram of the file the template comes from; a box
    with [y_min < buffer] gives [y_min_target = 0], a box with [y_max >
    height - buffer] gives [y_max_target = height]; and the stripe matched
    against is [spec_one[y_min_target:y_max_target, :]]. *)
Theorem search_window spec_one spec_two (buffer : Z) (item : box)
    (arr : MatchStats) (idx : nat) (seg : array2) :
  let height := Z.of_nat (shape0 spec_two) in
  let y0 := Z.max 0 (y_min item - buffer) in
  let y1 := Z.min height (y_max item + buffer) in
  y_min_target buffer item = y0
  ∧ y_max_target spec_two buffer item = y1
  ∧ (y_min item < buffer → y_min_target buffer item = 0)
  ∧ (y_max item > height - buffer →
     y_max_target spec_two buffer item = height)
  ∧ slide spec_one spec_two buffer arr (idx, (item, seg))
    = if eligible spec_one spec_two buffer item then
        out ← matchTemplate (slice_rows y0 y1 spec_one) seg 5;
        Ok (set2 idx 2 (of_Z ((minMaxLoc out).2.2 + y0))
              (set2 idx 1 (of_Z (minMaxLoc out).2.1)
                 (set2 idx 0 (minMaxLoc out).1.1.2 arr)))
      else Ok arr.
Proof.
  intros height y0 y1.
  assert (y_min_target buffer item = y0) as H0.
  { unfold y_min_target, y0.
    destruct (Z.gtb_spec (y_min item) buffer); lia. }
  assert (y_max_target spec_two buffer item = y1) as H1.
  { unfold y_max_target, y1, height.
    destruct (Z.ltb_spec (y_max item) (Z.of_nat (shape0 spec_two) - buffer));
      lia. }
  split; [done|]. split; [done|]. split; [|split].
  - intros Hlt. rewrite H0. unfold y0. lia.
  - intros Hgt. rewrite H1. unfold y1. lia.
  - unfold Lasseck.slide. rewrite H0, H1.
    destruct (eligible spec_one spec_two buffer item); [|done].
    destruct (matchTemplate (slice_rows y0 y1 spec_one) seg 5) as [out|e];
      [|done].
    simpl. by destruct (minMaxLoc out) as [[[min_val max_val] min_loc] max_loc].
Qed.

(** ** The live-generation path *)

Lemma dict_set_keys (x : label) (d : list (string * label)) :
  d.*1 = ["label"] → (dict_set "label" x d).*1 = ["label"].
Proof.
  destruct d as [|[k v] [|? ?]]; intros H; simpl in H; try discriminate.
  inversion H; subst. cbn [dict_set]. by destruct (decide _).
Qed.

Lemma label_dict_keys (labels : list label) :
  labels ≠ [] → (label_dict labels).*1 = ["label"].
Proof.
  unfold label_dict. destruct labels as [|x labels]; [done|]. intros _.
  cbn [foldl dict_set].
  assert (([("label", x)] : list (string * label)).*1 = ["label"]) as H
    by done.
  revert H. generalize [("label", x)].
  induction labels as [|y labels IH]; intros d Hd; [done|].
  cbn [foldl]. apply IH. by apply dict_set_keys.
Qed.

(** On the live path the iterable is the dict [{'label': ...}], whose
    iteration yields the key ['label']; subscripting that string fails
    before anything is generated. *)
Lemma live_path_raises df_one spec_one normal_one labels_df config db :
  db_rw config = false → labels_df ≠ [] →
  file_file_stats df_one spec_one normal_one labels_df config db
  = Raise TypeError.
Proof.
  intros Hlive Hne. unfold Lasseck.file_file_stats, items_of.
  rewrite Hlive, label_dict_keys by done. reflexivity.
Qed.

Lemma get_loc_Ok (index : list label) (l : label) (i : nat) :
  get_loc index l = Ok i → index !! i = Some l.
Proof.
  unfold get_loc. destruct (list_find _ _) as [[j x]|] eqn:E; [|done].
  intros H. inversion H; subst. apply list_find_Some in E as (Hj & -> & _).
  done.
Qed.

(** ** run_stats *)


Lemma read_spectrogram_stored (l : label) (db : Database) r :
  read_spectrogram l db = Ok r →
  ∃ it, it ∈ spectrograms db ∧ si_label it = l.
Proof.
  unfold read_spectrogram, return_cursor.
  destruct (filter _ (spectrograms db)) as [|it its] eqn:E; [done|].
  intros _. exists it.
  assert (it ∈ filter (λ it, si_label it ∈ [l]) (spectrograms db)) as Hin
    by (rewrite E; left).
  apply list_elem_of_filter in Hin as [Hl Hin]. split; [done|].
  by apply list_elem_of_singleton in Hl.
Qed.

(** The keys of the dictionary on the persisted path without a template
    pool: the labels of the table that have a stored spectrogram. *)
Lemma file_file_stats_keys df_one spec_one normal_one labels_df config db
    (d : gmap label MatchStats) :
  db_rw config = true → template_pool config = None →
  file_file_stats df_one spec_one normal_one labels_df config db = Ok d →
  ∀ l, is_Some (d !! l)
       ↔ l ∈ labels_df ∧ ∃ it, it ∈ spectrograms db ∧ si_label it = l.
Proof.
  intros Hrw Hpool Hrun l. unfold Lasseck.file_file_stats in Hrun.
  destruct (outer_loop _ _ _ _ Hrun) as (Hfrom & _ & Hall).
  unfold items_of in *. rewrite Hrw, Hpool in *. split.
  - intros [arr Harr].
    destruct (Hfrom l arr Harr) as [H0|(item & Hin & Hitem)];
      [by rewrite lookup_empty in H0|].
    apply list_elem_of_fmap in Hin as (r & -> & Hr).
    apply list_elem_of_filter in Hr as [Hlab Hr].
    apply match_item_inv in Hitem as (df_two & spec_two & Hcand & _).
    apply candidate_label in Hcand. simpl in Hcand.
    inversion Hcand; subst. eauto.
  - intros (Hlab & it & Hit & <-).
    destruct (Hall (RecordItem it)) as (l' & arr & Hitem & Hsome).
    { apply list_elem_of_fmap. exists it. split; [done|].
      apply list_elem_of_filter. done. }
    apply match_item_inv in Hitem as (df_two & spec_two & Hcand & _).
    apply candidate_label in Hcand. simpl in Hcand.
    inversion Hcand; subst. done.
Qed.

(** C2, as the code has it. Without a template pool, a call of
    [run_stats] that returns has written match statistics with one entry
    for every label of the labels table that has a stored spectrogram,
    the source label itself included. *)
Theorem run_stats_candidates (idx_one : label) (labels_df : list label)
    (config : Config) (db db' : Database) :
  template_pool config = None →
  run_stats idx_one labels_df config db = (Ok (), db') →
  ∃ row_f (match_stats : gmap label MatchStats),
    write_log db' = write_log db ++ [(idx_one, row_f, match_stats)]
    ∧ (∀ l, is_Some (match_stats !! l)
            ↔ l ∈ labels_df ∧ ∃ it, it ∈ spectrograms db ∧ si_label it = l)
    ∧ is_Some (match_stats !! idx_one).
Proof.
  intros Hpool Hrun. unfold Lasseck.run_stats in Hrun.
  destruct (get_loc labels_df idx_one) as [i|e] eqn:Hloc; [|done].
  simpl in Hrun.
  destruct (file_stats sample_statistics pd_describe spect_gen idx_one config db)
    as [[[[df_one spec_one] normal_one] row_f]|e] eqn:Hfs; [|done].
  simpl in Hrun.
  destruct (file_file_stats df_one _ normal_one labels_df config db)
    as [match_stats|e] eqn:Hffs; [|done].
  simpl in Hrun. inversion Hrun; subst; clear Hrun.
  apply get_loc_Ok in Hloc.
  assert (idx_one ∈ labels_df) as Hidx by by eapply list_elem_of_lookup_2.
  assert (db_rw config = true) as Hrw.
  { destruct (db_rw config) eqn:E; [done|].
    rewrite live_path_raises in Hffs; [done | done |].
    intros ->. by apply elem_of_nil in Hidx. }
  pose proof (file_file_stats_keys _ _ _ _ _ _ _ Hrw Hpool Hffs) as Hkeys.
  exists row_f, match_stats. split; [done|]. split; [done|].
  apply Hkeys. split; [done|].
  unfold Lasseck.file_stats in Hfs. rewrite Hrw in Hfs. bind_inv Hfs.
  by eapply read_spectrogram_stored.
Qed.

End Matcher.

(* ===================================================================== *)
(** * The feature assembler *)
(* ===================================================================== *)

Lemma comprehension_elem {A B} (f : A → result B) l ys y :
  comprehension f l = Ok ys → y ∈ ys → ∃ x, x ∈ l ∧ f x = Ok y.
Proof.
  revert ys. induction l as [|x l IH]; intros ys H Hy; simpl in H.
  - inversion H; subst. by apply elem_of_nil in Hy.
  - bind_inv H. bind_inv H. inversion H; subst.
    apply elem_of_cons in Hy as [->|Hy].
    + exists x. split; [left | done].
    + destruct (IH _ Ha0 Hy) as (x' & Hx' & Hf). exists x'.
      split; [by right | done].
Qed.

Lemma comprehension_lookup_inv {A B} (f : A → result B) l ys i y :
  comprehension f l = Ok ys → ys !! i = Some y →
  ∃ x, l !! i = Some x ∧ f x = Ok y.
Proof.
  intros H Hy. pose proof (comprehension_length _ _ _ H) as Hlen.
  destruct (lookup_lt_is_Some_2 l i) as [x Hx].
  { apply lookup_lt_Some in Hy. lia. }
  destruct (comprehension_lookup _ _ _ _ _ H Hx) as (y' & Hy' & Hf).
  exists x. split; [done|]. congruence.
Qed.

(** The reading loop: a slot is either untouched or holds what one
    record of the cursor put there, in both lists at once. *)
Lemma read_loop (index candidates : list label) (items : list StatsItem) :
  ∀ acc acc',
  length acc.1 = length index → length acc.2 = length index →
  for_each (read_item index candidates) items acc = Ok acc' →
  length acc'.1 = length index ∧ length acc'.2 = length index
  ∧ ∀ i,
      (acc'.1 !! i = acc.1 !! i ∧ acc'.2 !! i = acc.2 !! i)
      ∨ ∃ item picked,
          item ∈ items
          ∧ index !! i = Some (st_label item)
          ∧ comprehension (getitem_dict (st_match item)) candidates
            = Ok picked
          ∧ acc'.1 !! i = Some (Some (st_row item))
          ∧ acc'.2 !! i = Some (Some picked).
Proof.
  induction items as [|item items IH]; intros acc acc' H1 H2 H.
  - simpl in H. inversion H; subst. eauto.
  - cbn [for_each] in H. bind_inv H.
    unfold read_item in Ha. bind_inv Ha. rename a0 into mono_idx.
    simpl in Ha. bind_inv Ha. rename a0 into picked.
    inversion Ha; subst; clear Ha.
    apply get_loc_Ok in Ha0.
    assert (mono_idx < length index)%nat as Hmono
      by by eapply lookup_lt_Some.
    assert (length (<[mono_idx:=Some (st_row item)]> acc.1) = length index)
      as H1' by (rewrite length_insert; done).
    assert (length (<[mono_idx:=Some picked]> acc.2) = length index)
      as H2' by (rewrite length_insert; done).
    destruct (IH (_, _) _ H1' H2' H) as (Hl1 & Hl2 & Hslots).
    split; [done|]. split; [done|]. intros i.
    destruct (Hslots i) as [[E1 E2]|(it & pk & Hit & Hidx & Hpk & E1 & E2)].
    + simpl in E1, E2. destruct (decide (mono_idx = i)) as [<-|Hne].
      * right. exists item, picked. split; [left|].
        rewrite E1, E2, !list_lookup_insert_eq by lia. done.
      * left. rewrite E1, E2, !list_lookup_insert_ne by done. done.
    + right. exists it, pk. split; [by right | done].
Qed.

Lemma stack_and_flatten_Ok (_tmp : list array2) flat :
  stack_and_flatten _tmp = Ok flat → flat = ravel <$> _tmp.
Proof.
  unfold stack_and_flatten. destruct _tmp as [|a rest]; [done|].
  destruct (forallb _ _); [|done]. intros H. by inversion H.
Qed.

Lemma hstack_Ok {A} (a b X : list (list A)) :
  hstack a b = Ok X → length a = length b ∧ X = zip_with app a b.
Proof.
  unfold hstack. destruct (Nat.eqb_spec (length a) (length b)); [|done].
  intros H. by inversion H.
Qed.

Lemma concat_rows (l : list array2) :
  concat (concat (rows <$> l)) = concat (ravel <$> l).
Proof.
  induction l as [|a l IH]; [done|].
  rewrite !fmap_cons. cbn [concat]. by rewrite concat_app, IH.
Qed.

Lemma vstack_Ok (blocks : list array2) v :
  vstack blocks = Ok v → ravel v = concat (ravel <$> blocks).
Proof.
  unfold vstack. destruct blocks as [|b blocks]; [done|].
  destruct (forallb _ _); [|done]. intros H. inversion H; subst; clear H.
  transitivity (concat (concat (rows <$> b :: blocks))); [done|].
  apply concat_rows.
Qed.

(** Every row of the matrix: the sanitised first-order row of the file at
    that position, followed by the stacked match arrays of the candidates,
    as persisted. *)
Lemma build_X_y_rows (labels_df : list (label * Z)) config db X y :
  build_X_y labels_df config db = Ok (X, y) →
  y = labels_df.*2
  ∧ length X = length labels_df
  ∧ ∀ i xrow, X !! i = Some xrow →
      ∃ item picked,
        item ∈ statistics db
        ∧ labels_df.*1 !! i = Some (st_label item)
        ∧ comprehension (getitem_dict (st_match item))
            (get_file_file_stats_for labels_df config) = Ok picked
        ∧ xrow = (nan_to_num <$> st_row item) ++ concat (ravel <$> picked).
Proof.
  unfold build_X_y. intros H. bind_as H acc Hloop.
  destruct acc as [fs ffs].
  bind_as H rws' Harr. bind_as H tmp Htmp.
  bind_as H flat Hflat. bind_as H X' HX.
  inversion H; subst; clear H.
  apply stack_and_flatten_Ok in Hflat as ->.
  apply hstack_Ok in HX as [Hlen ->].
  unfold np_array in Harr. bind_as Harr rws Hrws.
  destruct (common_length rws); [|done]. inversion Harr; subst; clear Harr.
  assert (∀ B, length (replicate (length labels_df) (@None B))
               = length labels_df.*1) as Hn
    by (intros B; by rewrite length_replicate, length_fmap).
  destruct (read_loop _ _ _ (_, _) _ (Hn _) (Hn _) Hloop)
    as (Hl1 & Hl2 & Hslots). cbn [fst snd] in Hl1, Hl2, Hslots.
  pose proof (comprehension_length _ _ _ Hrws) as Hrl.
  split; [done|]. split.
  - rewrite length_zip_with, length_map, length_fmap.
    rewrite length_map, length_fmap in Hlen. rewrite length_fmap in Hl1.
    lia.
  - intros i xrow Hx.
    apply lookup_zip_with_Some in Hx as (r' & fl & -> & Hr' & Hfl).
    rewrite list_lookup_fmap in Hr'.
    destruct (rws' !! i) as [r|] eqn:Hr; [|done]. inversion Hr'; subst.
    rewrite list_lookup_fmap in Hfl.
    destruct (tmp !! i) as [v|] eqn:Hv; [|done]. inversion Hfl; subst.
    destruct (comprehension_lookup_inv _ _ _ _ _ Hrws Hr) as (o & Ho & Hu).
    destruct o as [r0|]; [|done].
    assert (r0 = r) as -> by (simpl in Hu; congruence).
    destruct (comprehension_lookup_inv _ _ _ _ _ Htmp Hv) as (o' & Ho' & Hu').
    destruct o' as [blocks|]; [|done]. simpl in Hu'.
    destruct (Hslots i)
      as [[E1 E2]|(item & picked & Hit & Hidx & Hpk & E1 & E2)].
    + rewrite E1 in Ho. apply lookup_replicate in Ho as [? _]. done.
    + assert (r = st_row item) as -> by congruence.
      assert (blocks = picked) as -> by congruence.
      exists item, picked.
      split. { unfold return_cursor in Hit.
               by apply list_elem_of_filter in Hit as [_ ?]. }
      split; [done|]. split; [done|].
      f_equal. by apply vstack_Ok.
Qed.

Lemma nan_to_num_finite (x : float) : isfinite (nan_to_num x) = true.
Proof. by destruct x as [s| [|] | |s m e]. Qed.

Lemma ravel_length (a : array2) :
  wf a → length (ravel a) = (shape0 a * ncols a)%nat.
Proof.
  destruct a as [rws c]. unfold wf, ravel, shape0. simpl.
  induction 1 as [|r rws Hr _ IH]; [done|].
  cbn [concat length]. rewrite length_app, IH, Hr. lia.
Qed.

Lemma picked_length (picked : list array2) :
  Forall (λ a, wf a ∧ ncols a = 3%nat) picked →
  length (concat (ravel <$> picked)) = (3 * sum_list (shape0 <$> picked))%nat.
Proof.
  induction 1 as [|a picked [Hwf Hc] _ IH]; [done|].
  rewrite !fmap_cons. cbn [concat].
  change (sum_list (shape0 a :: (shape0 <$> picked)))
    with (shape0 a + sum_list (shape0 <$> picked))%nat.
  rewrite length_app, IH, ravel_length, Hc by done. lia.
Qed.

(** C3, as the code has it. In every row of the matrix the first-order
    part is the persisted row passed through [nan_to_num]: all its values
    are finite, a NaN became zero, an infinity the largest or the most
    negative finite float, a finite value is unchanged; the match-stats
    part is the persisted arrays of the candidates, copied as they are. *)
Theorem first_order_sanitised (labels_df : list (label * Z)) config db X y :
  build_X_y labels_df config db = Ok (X, y) →
  ∀ i xrow, X !! i = Some xrow →
    ∃ item picked,
      item ∈ statistics db
      ∧ labels_df.*1 !! i = Some (st_label item)
      ∧ comprehension (getitem_dict (st_match item))
          (get_file_file_stats_for labels_df config) = Ok picked
      ∧ xrow = (nan_to_num <$> st_row item) ++ concat (ravel <$> picked)
      ∧ Forall (λ x, isfinite x = true) (nan_to_num <$> st_row item)
      ∧ ∀ j x, st_row item !! j = Some x →
          xrow !! j
          = Some match x with
                 | S754_nan => zero
                 | S754_infinity false => max_float
                 | S754_infinity true => min_float
                 | _ => x
                 end.
Proof.
  intros H i xrow Hx.
  destruct (build_X_y_rows _ _ _ _ _ H) as (_ & _ & Hrows).
  destruct (Hrows i xrow Hx) as (item & picked & Hit & Hidx & Hpk & ->).
  exists item, picked. repeat (split; [done|]). split.
  - apply Forall_fmap, Forall_forall. intros x _. apply nan_to_num_finite.
  - intros j x Hj. rewrite lookup_app_l.
    + rewrite list_lookup_fmap, Hj. done.
    + rewrite length_fmap. by eapply lookup_lt_Some.
Qed.

(** C7, as the code has it. The matrix has one row per input label, and
    the length of a row is the length of the file's first-order row plus
    three times the total number of template rows in the match arrays of
    the candidate set. *)
Theorem feature_matrix_shape (labels_df : list (label * Z)) config db X y :
  (∀ item l a, item ∈ statistics db → st_match item !! l = Some a →
               wf a ∧ ncols a = 3%nat) →
  build_X_y labels_df config db = Ok (X, y) →
  length X = length labels_df
  ∧ length y = length labels_df
  ∧ ∀ i xrow, X !! i = Some xrow →
      ∃ item picked,
        item ∈ statistics db
        ∧ labels_df.*1 !! i = Some (st_label item)
        ∧ comprehension (getitem_dict (st_match item))
            (get_file_file_stats_for labels_df config) = Ok picked
        ∧ length picked
          = length (get_file_file_stats_for labels_df config)
        ∧ length xrow
          = (length (st_row item) + 3 * sum_list (shape0 <$> picked))%nat.
Proof.
  intros Hwf H.
  destruct (build_X_y_rows _ _ _ _ _ H) as (-> & HlenX & Hrows).
  split; [done|]. split; [by rewrite length_fmap|].
  intros i xrow Hx.
  destruct (Hrows i xrow Hx) as (item & picked & Hit & Hidx & Hpk & ->).
  exists item, picked. repeat (split; [done|]).
  split; [by eapply comprehension_length|].
  rewrite length_app, length_fmap, picked_length; [done|].
  apply Forall_forall. intros a Ha.
  destruct (comprehension_elem _ _ _ _ Hpk Ha) as (x & _ & Hget).
  unfold getitem_dict in Hget.
  destruct (st_match item !! x) as [a'|] eqn:E; [|done].
  inversion Hget; subst. by eapply Hwf.
Qed.

(* ===================================================================== *)
(** * The Spectrogram container *)
(* ===================================================================== *)

Lemma init4_Ok (a : array2) (fr ti : list float) (lim : float * float) s' :
  Spec.init4 a fr ti lim = Ok s' →
  Spec.window_samples s' = None
  ∧ Spec.overlap_samples s' = None
  ∧ Spec.window_type s' = None
  ∧ Spec.audio_sample_rate s' = None
  ∧ Spec.decibel_limits s' = lim.
Proof.
  unfold Spec.init4, Spec.init. destruct (decide _); [|done].
  intros H. inversion H; subst. done.
Qed.

(** C10. A Spectrogram returned by [bandpass], [trim], [min_max_scale],
    [linear_scale] or [limit_db_range] has [window_samples],
    [overlap_samples], [window_type] and [audio_sample_rate] equal to
    [None], whatever they were on the input, and the [decibel_limits] of
    the input. *)
Theorem derived_metadata
    (h_min_max_scale : array2 → list float → array2)
    (h_linear_scale : array2 → float * float → list float → array2)
    (op : Spec.derived) (self s' : Spec.Spectrogram) :
  Spec.apply h_min_max_scale h_linear_scale op self = Ok s' →
  Spec.window_samples s' = None
  ∧ Spec.overlap_samples s' = None
  ∧ Spec.window_type s' = None
  ∧ Spec.audio_sample_rate s' = None
  ∧ Spec.decibel_limits s' = Spec.decibel_limits self.
Proof.
  destruct op; simpl; intros H.
  - unfold Spec.bandpass in H. destruct (SFleb _ _); [done|].
    bind_inv H. bind_inv H. by apply init4_Ok in H.
  - unfold Spec.trim in H. bind_inv H. bind_inv H. by apply init4_Ok in H.
  - unfold Spec.min_max_scale in H. bind_inv H. by apply init4_Ok in H.
  - unfold Spec.linear_scale in H. bind_inv H. by apply init4_Ok in H.
  - unfold Spec.limit_db_range in H. destruct (negb _); [done|].
    by apply init4_Ok in H.
Qed.

(* ===================================================================== *)
(** * The statements on the small data set *)
(* ===================================================================== *)

Section OnTheDataSet.

Ltac evaluated :=
  vm_compute; repeat split; first [reflexivity | discriminate | lia].

Local Abbreviation ffs :=
  (file_file_stats Ex.spect_gen Ex.gaussian Ex.matchTemplate Ex.minMaxLoc).
Local Abbreviation rs :=
  (run_stats Ex.sample_statistics Ex.describe_numeric Ex.spect_gen
             Ex.gaussian Ex.matchTemplate Ex.minMaxLoc).


(** C5. A file without boxes does not get the twelve zeros.  The box
    table of [a] is empty.  On numeric columns pandas' [describe()] has
    its eight rows: the test [len(df_stats) == 2] fails, the rows [min],
    [max], [mean] and [std] are read, and the block is twelve NaN.  On
    object columns [describe()] has the rows count, unique, top and
    freq: reading [min] raises [KeyError] and no row is returned.  The
    zeros are appended for a table of two rows only. *)
Theorem empty_table_block :
  read_spectrogram "a" Ex.db = Ok ([], Ex.spec_a, of_Z 1)
  ∧ (∃ row,
       file_stats Ex.sample_statistics Ex.describe_numeric Ex.spect_gen
         "a" Ex.config Ex.db = Ok ([], Ex.spec_a, of_Z 1, row)
       ∧ length row = 24%nat
       ∧ drop 12 row = replicate 12 NaN
       ∧ replicate 12 NaN ≠ replicate 12 zero)
  ∧ file_stats Ex.sample_statistics Ex.describe_object Ex.spect_gen
      "a" Ex.config Ex.db = Raise KeyError
  ∧ (∃ row,
       file_stats Ex.sample_statistics Ex.describe_two_rows Ex.spect_gen
         "a" Ex.config Ex.db = Ok ([], Ex.spec_a, of_Z 1, row)
       ∧ drop 12 row = replicate 12 zero).
Proof.
  split; [vm_compute; reflexivity|]. split; [|split].
  - eexists. split; [vm_compute; reflexivity|].
    split; [reflexivity|]. split; [reflexivity|]. discriminate.
  - vm_compute. reflexivity.
  - eexists. split; [vm_compute; reflexivity|]. reflexivity.
Qed.

(** The dictionary for source [a] on the persisted path, and its array
    for [b]: one eligible template. *)
Lemma match_stats_rows_witness :
  ffs [] Ex.spec_a (of_Z 1) ["a"; "b"] Ex.config Ex.db = Ok Ex.match_stats_a
  ∧ Ex.match_stats_a !! "b" = Some [[of_Z 1; of_Z 0; of_Z 0]]
  ∧ ∃ segments : list array2,
      length [[of_Z 1; of_Z 0; of_Z 0]] = length segments
      ∧ Forall (λ r, length r = 3%nat) [[of_Z 1; of_Z 0; of_Z 0]].
Proof.
  assert (ffs [] Ex.spec_a (of_Z 1) ["a"; "b"] Ex.config Ex.db
          = Ok Ex.match_stats_a) as Hrun by (vm_compute; reflexivity).
  assert (Ex.match_stats_a !! "b" = Some [[of_Z 1; of_Z 0; of_Z 0]])
    as Hb by (vm_compute; reflexivity).
  split; [exact Hrun|]. split; [exact Hb|].
  destruct (match_stats_rows Ex.spect_gen Ex.gaussian Ex.matchTemplate
              Ex.minMaxLoc _ _ _ _ _ _ _ _ _ Hrun Hb)
    as (item & df_two & spec_two & segments & _ & _ & _ & Hlen & Hall & _).
  exists segments. split; assumption.
Defined.

(** A box near both edges of a 3-row spectrogram, buffer 2. *)
Lemma search_window_witness :
  y_min Ex.box_b < 2
  ∧ y_max Ex.box_b > Z.of_nat (shape0 Ex.spec_b) - 2
  ∧ y_min_target 2 Ex.box_b = 0
  ∧ y_max_target Ex.spec_b 2 Ex.box_b = Z.of_nat (shape0 Ex.spec_b).
Proof.
  assert (y_min Ex.box_b < 2) as Hlo by evaluated.
  assert (y_max Ex.box_b > Z.of_nat (shape0 Ex.spec_b) - 2) as Hhi
    by evaluated.
  destruct (search_window Ex.matchTemplate Ex.minMaxLoc Ex.tall Ex.spec_b 2
              Ex.box_b [] 0%nat Ex.spec_b) as (_ & _ & H0 & H1 & _).
  split; [exact Hlo|]. split; [exact Hhi|].
  split; [exact (H0 Hlo) | exact (H1 Hhi)].
Defined.

(** C1 refuted as stated. Source of 5 rows, candidate of 3 rows, a box
    with [y_max = 2], buffer 2: the code ends the window at 3, the height
    of the candidate, where [min(source_height, y_max + buffer)] is 4; the
    stripe handed to the matcher has 3 rows. *)
Lemma window_not_clamped_at_source_height :
  y_max_target Ex.spec_b 2 Ex.box_b = 3
  ∧ Z.min (Z.of_nat (shape0 Ex.tall)) (y_max Ex.box_b + 2) = 4
  ∧ slide Ex.probe_matchTemplate Ex.probe_minMaxLoc Ex.tall Ex.spec_b 2
          (zeros 1 3) (0%nat, (Ex.box_b, slice2 1 2 0 1 Ex.spec_b))
    = Ok [[of_Z 3; of_Z 0; of_Z 0]].
Proof. repeat split; vm_compute; reflexivity. Qed.

(** C2 refuted as stated. [run_stats] for [a] on the labels [a], [b]
    writes a dictionary that has an entry for [a] itself. *)
Lemma source_label_is_a_candidate :
  template_pool Ex.config = None
  ∧ rs "a" ["a"; "b"] Ex.config Ex.db = (Ok (), Ex.after_a)
  ∧ ∃ row_f,
      write_log Ex.after_a = [("a", row_f, Ex.match_stats_a)]
      ∧ Ex.match_stats_a !! "a" = Some [].
Proof.
  split; [reflexivity|]. split; [vm_compute; reflexivity|].
  eexists. split; vm_compute; reflexivity.
Qed.

Lemma run_stats_candidates_witness :
  template_pool Ex.config = None
  ∧ rs "a" ["a"; "b"] Ex.config Ex.db = (Ok (), Ex.after_a)
  ∧ ∃ row_f (match_stats : gmap label MatchStats),
      write_log Ex.after_a = write_log Ex.db ++ [("a", row_f, match_stats)]
      ∧ is_Some (match_stats !! "a").
Proof.
  assert (template_pool Ex.config = None) as Hpool by reflexivity.
  assert (rs "a" ["a"; "b"] Ex.config Ex.db = (Ok (), Ex.after_a)) as Hrun
    by (vm_compute; reflexivity).
  split; [exact Hpool|]. split; [exact Hrun|].
  destruct (run_stats_candidates Ex.sample_statistics
              Ex.describe_numeric Ex.spect_gen Ex.gaussian Ex.matchTemplate
              Ex.minMaxLoc "a" ["a"; "b"] Ex.config Ex.db Ex.after_a
              Hpool Hrun) as (row_f & match_stats & Hlog & _ & Hself).
  exists row_f, match_stats. split; assumption.
Defined.

(** C8. On the live path, with a generator that works for both labels,
    [file_file_stats] raises [TypeError] at [item['label']] and returns
    no dictionary; the persisted path, on the same inputs, returns one
    entry per label. *)
Theorem live_generation_fails :
  db_rw Ex.live_config = false
  ∧ Ex.spect_gen "a" Ex.live_config = Ok ([], Ex.spec_a, of_Z 1)
  ∧ Ex.spect_gen "b" Ex.live_config = Ok ([Ex.box_b], Ex.spec_b, of_Z 2)
  ∧ ffs [] Ex.spec_a (of_Z 1) ["a"; "b"] Ex.live_config Ex.db
    = Raise TypeError
  ∧ ffs [] Ex.spec_a (of_Z 1) ["a"; "b"] Ex.config Ex.db
    = Ok Ex.match_stats_a.
Proof.
  split; [reflexivity|]. split; [vm_compute; reflexivity|].
  split; [vm_compute; reflexivity|]. split.
  - by apply live_path_raises.
  - vm_compute; reflexivity.
Qed.

(** C3 refuted as stated. The persisted match array of [a] holds a NaN,
    which is in the matrix; the +inf of the first-order row of [a] became
    the largest finite float, not zero. *)
Lemma matrix_keeps_match_stats_nan :
  build_X_y Ex.species Ex.config Ex.stats_db = Ok (Ex.X, [1; 0])
  ∧ ∃ xrow,
      Ex.X !! 0%nat = Some xrow
      ∧ xrow !! 6%nat = Some NaN
      ∧ isfinite NaN = false
      ∧ xrow !! 2%nat = Some max_float
      ∧ max_float ≠ zero.
Proof.
  split; [vm_compute; reflexivity|].
  eexists. split; [reflexivity|]. repeat split; try reflexivity.
  vm_compute. discriminate.
Qed.

Lemma first_order_sanitised_witness :
  build_X_y Ex.species Ex.config Ex.stats_db = Ok (Ex.X, [1; 0])
  ∧ ∃ xrow item,
      Ex.X !! 0%nat = Some xrow
      ∧ item ∈ statistics Ex.stats_db
      ∧ Forall (λ x, isfinite x = true) (nan_to_num <$> st_row item).
Proof.
  assert (build_X_y Ex.species Ex.config Ex.stats_db = Ok (Ex.X, [1; 0]))
    as Hrun by (vm_compute; reflexivity).
  split; [exact Hrun|].
  destruct (first_order_sanitised Ex.species Ex.config Ex.stats_db Ex.X
              [1; 0] Hrun 0%nat _ eq_refl)
    as (item & picked & Hit & _ & _ & _ & Hfin & _).
  eexists _, item. split; [reflexivity|]. split; assumption.
Defined.

(** C7 refuted as stated. One candidate label ([a], the only positive
    file), first-order rows of 3 values: the rows of the matrix have 9
    values, not [3 + 3 * 1], because [a] has two template rows. *)
Lemma columns_count_templates_not_labels :
  build_X_y Ex.species Ex.config Ex.stats_db = Ok (Ex.X, [1; 0])
  ∧ get_file_file_stats_for Ex.species Ex.config = ["a"]
  ∧ length (st_row Ex.stats_a) = 3%nat
  ∧ ∃ xrow,
      Ex.X !! 0%nat = Some xrow
      ∧ length xrow = 9%nat
      ∧ length xrow
        ≠ (length (st_row Ex.stats_a)
           + 3 * length (get_file_file_stats_for Ex.species Ex.config))%nat.
Proof.
  split; [vm_compute; reflexivity|]. split; [reflexivity|].
  split; [reflexivity|]. eexists. split; [reflexivity|].
  split; [reflexivity|]. vm_compute. discriminate.
Qed.

Lemma feature_matrix_shape_witness :
  build_X_y Ex.species Ex.config Ex.stats_db = Ok (Ex.X, [1; 0])
  ∧ length Ex.X = length Ex.species
  ∧ ∃ xrow item picked,
      Ex.X !! 0%nat = Some xrow
      ∧ item ∈ statistics Ex.stats_db
      ∧ length xrow
        = (length (st_row item) + 3 * sum_list (shape0 <$> picked))%nat.
Proof.
  assert (build_X_y Ex.species Ex.config Ex.stats_db = Ok (Ex.X, [1; 0]))
    as Hrun by (vm_compute; reflexivity).
  assert (∀ item l a, item ∈ statistics Ex.stats_db →
                      st_match item !! l = Some a →
                      wf a ∧ ncols a = 3%nat) as Hwf.
  { intros item l a Hit Hl.
    assert (a = Ex.block_a ∨ a = Ex.block_b) as [-> | ->].
    { apply elem_of_cons in Hit as [-> | Hit];
        [|apply elem_of_cons in Hit as [-> | Hit];
          [|by apply elem_of_nil in Hit]];
        simpl in Hl;
        (destruct (decide (l = "a")) as [-> | Ha];
         [rewrite lookup_insert_eq in Hl; left; congruence|]);
        rewrite lookup_insert_ne in Hl by done;
        (destruct (decide (l = "b")) as [-> | Hb];
         [rewrite lookup_insert_eq in Hl; right; congruence|]);
        rewrite lookup_insert_ne, lookup_empty in Hl by done; done. }
    - split; [repeat constructor | reflexivity].
    - split; [repeat constructor | reflexivity]. }
  split; [exact Hrun|].
  destruct (feature_matrix_shape Ex.species Ex.config Ex.stats_db Ex.X
              [1; 0] Hwf Hrun) as (HX & _ & Hrows).
  split; [exact HX|].
  destruct (Hrows 0%nat _ eq_refl)
    as (item & picked & Hit & _ & _ & _ & Hlen).
  eexists _, item, picked. split; [reflexivity|]. split; assumption.
Defined.

(** The five derived operations on a spectrogram made from audio. *)
Lemma derived_metadata_witness :
  Spec.window_samples Ex.sp = Some 512
  ∧ ∀ op, op ∈ [Spec.Bandpass (of_Z 5) (of_Z 25);
                Spec.Trim (of_Z 0) (of_Z 1);
                Spec.MinMaxScale [of_Z 0; of_Z 1];
                Spec.LinearScale [of_Z 0; of_Z 1];
                Spec.LimitDbRange (of_Z (-100)) (of_Z (-20))] →
      ∃ s', Spec.apply Ex.rescale Ex.rescale_from op Ex.sp = Ok s'
            ∧ Spec.window_samples s' = None
            ∧ Spec.decibel_limits s' = Spec.decibel_limits Ex.sp.
Proof.
  split; [reflexivity|]. intros op Hop.
  assert (∃ s', Spec.apply Ex.rescale Ex.rescale_from op Ex.sp = Ok s')
    as [s' Hs'].
  { repeat (apply elem_of_cons in Hop as [-> | Hop];
            [eexists; vm_compute; reflexivity|]).
    by apply elem_of_nil in Hop. }
  exists s'. split; [exact Hs'|].
  destruct (derived_metadata Ex.rescale Ex.rescale_from op Ex.sp s' Hs')
    as (Hw & _ & _ & _ & Hd).
  split; assumption.
Defined.

End OnTheDataSet.

(* ===================================================================== *)
(** * The order of float64 values *)
(* ===================================================================== *)

Ltac sf_cases :=
  repeat match goal with
         | x : spec_float |- _ => destruct x
         | b : bool |- _ => destruct b
         end;
  cbn [SFcompare];
  change (Pos.compare_cont Eq) with Pos.compare;
  repeat match goal with
         | |- context [Z.compare ?a ?b] => destruct (Z.compare_spec a b)
         | |- context [Pos.compare ?a ?b] => destruct (Pos.compare_spec a b)
         end;
  cbn [CompOpp];
  try congruence; try (intros; exfalso; lia); try (intros; f_equal; lia).

Lemma SFcompare_Lt_Gt (x y : spec_float) :
  SFcompare x y = Some Lt → SFcompare y x = Some Gt.
Proof. sf_cases. Qed.

Lemma SFcompare_Lt_trans (x y z : spec_float) :
  SFcompare x y = Some Lt → SFcompare y z = Some Lt →
  SFcompare x z = Some Lt.
Proof. sf_cases. Qed.

Lemma SFcompare_Lt_Eq_trans (x y z : spec_float) :
  SFcompare x y = Some Lt → SFcompare y z = Some Eq →
  SFcompare x z = Some Lt.
Proof. sf_cases. Qed.

Lemma SFcompare_defined (x y : spec_float) :
  isnan x = false → isnan y = false → ∃ c, SFcompare x y = Some c.
Proof. destruct x, y; simpl; try discriminate; eauto. Qed.

Lemma SFltb_irrefl (x : spec_float) : SFltb x x = false.
Proof.
  unfold SFltb. destruct (SFcompare x x) as [[| |]|] eqn:E; try done.
  pose proof (SFcompare_Lt_Gt _ _ E). congruence.
Qed.

Lemma SFltb_asym (x y : spec_float) : SFltb x y = true → SFltb y x = false.
Proof.
  unfold SFltb. destruct (SFcompare x y) as [[| |]|] eqn:E; try done.
  intros _. by rewrite (SFcompare_Lt_Gt _ _ E).
Qed.

Lemma SFltb_trans (x y z : spec_float) :
  SFltb x y = true → SFltb y z = true → SFltb x z = true.
Proof.
  unfold SFltb.
  destruct (SFcompare x y) as [[| |]|] eqn:E1; try done.
  destruct (SFcompare y z) as [[| |]|] eqn:E2; try done.
  intros _ _. by rewrite (SFcompare_Lt_trans _ _ _ E1 E2).
Qed.

(** Among values that are not NaN, [x < y] and [not (z < y)] give
    [x < z]. *)
Lemma SFltb_le_trans (x y z : spec_float) :
  isnan y = false → isnan z = false →
  SFltb x y = true → SFltb z y = false → SFltb x z = true.
Proof.
  intros Hy Hz. unfold SFltb.
  destruct (SFcompare x y) as [[| |]|] eqn:E1; try done.
  destruct (SFcompare_defined z y Hz Hy) as [c E2]. rewrite E2.
  destruct c; try done; intros _ _.
  - assert (SFcompare y z = Some Eq) as E3 by (revert E2; clear; sf_cases).
    by rewrite (SFcompare_Lt_Eq_trans _ _ _ E1 E3).
  - assert (SFcompare y z = Some Lt) as E3 by (revert E2; clear; sf_cases).
    by rewrite (SFcompare_Lt_trans _ _ _ E1 E3).
Qed.

(* ===================================================================== *)
(** * Spectrogram: slicing operations *)
(* ===================================================================== *)

Lemma slice_index_range (len i : Z) :
  0 ≤ len → 0 ≤ Py.slice_index len i ≤ len.
Proof.
  intros Hlen. unfold Py.slice_index. destruct (Z.ltb_spec i 0); lia.
Qed.

Lemma slice_length_spec {A} (start stop : Z) (l : list A) :
  length (Py.slice start stop l) = Py.slice_length start stop (length l).
Proof.
  unfold Py.slice, Py.slice_length.
  pose proof (slice_index_range (Z.of_nat (length l)) start ltac:(lia)).
  pose proof (slice_index_range (Z.of_nat (length l)) stop ltac:(lia)).
  rewrite length_take, length_drop. lia.
Qed.

Lemma slice_Forall {A} (P : A → Prop) (start stop : Z) (l : list A) :
  Forall P l → Forall P (Py.slice start stop l).
Proof. intros H. unfold Py.slice. by apply Forall_take, Forall_drop. Qed.

Lemma slice_rows_wf (a : array2) (y0 y1 : Z) :
  wf a → wf (slice_rows y0 y1 a).
Proof. unfold wf, slice_rows. simpl. apply slice_Forall. Qed.

Lemma slice_cols_wf (a : array2) (x0 x1 : Z) :
  wf a → wf (slice_cols x0 x1 a).
Proof.
  unfold wf, slice_cols. simpl. intros H. apply Forall_forall.
  intros r Hr. apply list_elem_of_fmap in Hr as (r0 & -> & Hr0).
  rewrite slice_length_spec. f_equal.
  by apply (proj1 (Forall_forall _ _) H).
Qed.

Lemma argmin_Ok (a : list float) :
  a ≠ [] → ∃ i, Spec.argmin a = Ok i.
Proof. destruct a; [done | simpl; eauto]. Qed.

Lemma closest_index_Ok (a : list float) (v : float) :
  a ≠ [] → ∃ i, Spec.closest_index a v = Ok i.
Proof.
  intros Ha. unfold Spec.closest_index. apply argmin_Ok.
  by destruct a.
Qed.

Lemma closest_index_empty (v : float) :
  Spec.closest_index [] v = Raise ValueError.
Proof. done. Qed.

(** A returned [bandpass] keeps the invariant and the times. *)
Lemma bandpass_shape (self : Spec.Spectrogram) (min_f max_f : float) s' :
  Spec.valid self → Spec.bandpass self min_f max_f = Ok s' →
  Spec.valid s' ∧ Spec.times s' = Spec.times self.
Proof.
  intros [Hwf _] H. unfold Spec.bandpass in H.
  destruct (SFleb max_f min_f); [done|].
  bind_as H lo Hlo. bind_as H hi Hhi.
  unfold Spec.init4, Spec.init in H. destruct (decide _) as [Hsh|]; [|done].
  inversion H; subst; clear H. cbn. split; [|done].
  split; [by apply slice_rows_wf | exact Hsh].
Qed.

(** [bandpass] on a spectrogram that satisfies the class invariant: it
    raises [ValueError] when [min_f >= max_f] or when there is no
    frequency bin, and otherwise returns, never failing in the
    constructor; the result keeps the times, its frequencies and rows
    are the same slice [lowest_index : highest_index + 1] of the
    input's, and it satisfies the invariant again. *)
Theorem bandpass_returns (self : Spec.Spectrogram) (min_f max_f : float) :
  Spec.valid self →
  (SFleb max_f min_f = true ∨ Spec.frequencies self = [] →
   Spec.bandpass self min_f max_f = Raise ValueError)
  ∧ (SFleb max_f min_f = false → Spec.frequencies self ≠ [] →
     ∃ lo hi s',
       Spec.closest_index (Spec.frequencies self) min_f = Ok lo
       ∧ Spec.closest_index (Spec.frequencies self) max_f = Ok hi
       ∧ Spec.bandpass self min_f max_f = Ok s'
       ∧ Spec.times s' = Spec.times self
       ∧ Spec.frequencies s'
         = Py.slice (Z.of_nat lo) (Z.of_nat hi + 1) (Spec.frequencies self)
       ∧ rows (Spec.spectrogram s')
         = Py.slice (Z.of_nat lo) (Z.of_nat hi + 1)
                    (rows (Spec.spectrogram self))
       ∧ Spec.valid s').
Proof.
  intros [Hwf Hshape]. unfold shape in Hshape.
  injection Hshape as Hrows Hcols. split.
  - intros [Hle | Hempty]; unfold Spec.bandpass.
    + by rewrite Hle.
    + destruct (SFleb max_f min_f); [done|]. by rewrite Hempty.
  - intros Hle Hne. unfold Spec.bandpass. rewrite Hle.
    destruct (closest_index_Ok _ min_f Hne) as [lo Hlo].
    destruct (closest_index_Ok _ max_f Hne) as [hi Hhi].
    rewrite Hlo, Hhi. cbn [mbind result_bind bind].
    unfold Spec.init4, Spec.init.
    destruct (decide _) as [Hsh | Hsh].
    + eexists lo, hi, _. repeat (split; [reflexivity|]).
      split; [by apply slice_rows_wf | exact Hsh].
    + exfalso. apply Hsh. unfold shape, shape0, shape1. cbn [rows ncols slice_rows].
      rewrite !slice_length_spec. unfold shape0, shape1 in *. congruence.
Qed.

(** [trim] on a spectrogram that satisfies the class invariant: it
    raises [ValueError] when there is no time bin and otherwise returns;
    the result keeps the frequencies and the number of rows, its times
    and the columns of every row are the same slice of the input's, and
    it satisfies the invariant again. *)
Theorem trim_returns (self : Spec.Spectrogram) (start_time end_time : float) :
  Spec.valid self →
  (Spec.times self = [] →
   Spec.trim self start_time end_time = Raise ValueError)
  ∧ (Spec.times self ≠ [] →
     ∃ lo hi s',
       Spec.closest_index (Spec.times self) start_time = Ok lo
       ∧ Spec.closest_index (Spec.times self) end_time = Ok hi
       ∧ Spec.trim self start_time end_time = Ok s'
       ∧ Spec.frequencies s' = Spec.frequencies self
       ∧ Spec.times s'
         = Py.slice (Z.of_nat lo) (Z.of_nat hi + 1) (Spec.times self)
       ∧ rows (Spec.spectrogram s')
         = Py.slice (Z.of_nat lo) (Z.of_nat hi + 1)
             <$> rows (Spec.spectrogram self)
       ∧ Spec.valid s').
Proof.
  intros [Hwf Hshape]. unfold shape in Hshape.
  injection Hshape as Hrows Hcols. split.
  - intros Hempty. unfold Spec.trim. by rewrite Hempty.
  - intros Hne. unfold Spec.trim.
    destruct (closest_index_Ok _ start_time Hne) as [lo Hlo].
    destruct (closest_index_Ok _ end_time Hne) as [hi Hhi].
    rewrite Hlo, Hhi. cbn [mbind result_bind bind].
    unfold Spec.init4, Spec.init.
    destruct (decide _) as [Hsh | Hsh].
    + eexists lo, hi, _. repeat (split; [reflexivity|]).
      split; [by apply slice_cols_wf | exact Hsh].
    + exfalso. apply Hsh. unfold shape, shape0, shape1.
      cbn [rows ncols slice_cols].
      rewrite slice_length_spec, length_map.
      unfold shape0, shape1 in *. congruence.
Qed.

(* ===================================================================== *)
(** * Spectrogram: decibel limits *)
(* ===================================================================== *)

(** One value through the two assignments of [limit_db_range]. *)
Lemma clip_value (min_db max_db x : float) :
  SFltb min_db max_db = true →
  let y := (if SFltb (if SFltb max_db x then max_db else x) min_db
            then min_db
            else (if SFltb max_db x then max_db else x)) in
  SFltb max_db y = false ∧ SFltb y min_db = false.
Proof.
  intros Hlt. pose proof (SFltb_asym _ _ Hlt) as Hasym.
  destruct (SFltb max_db x) eqn:E1.
  - rewrite Hasym. cbn zeta. rewrite SFltb_irrefl. done.
  - destruct (SFltb x min_db) eqn:E2; cbn zeta.
    + by rewrite SFltb_irrefl.
    + done.
Qed.

Lemma clip_fixed (min_db max_db x : float) :
  SFltb max_db x = false → SFltb x min_db = false →
  (if SFltb (if SFltb max_db x then max_db else x) min_db
   then min_db
   else (if SFltb max_db x then max_db else x)) = x.
Proof. intros -> ->. done. Qed.

Lemma clip_clip (min_db max_db : float) (a : array2) :
  SFltb min_db max_db = true →
  Spec.clip min_db max_db (Spec.clip min_db max_db a)
  = Spec.clip min_db max_db a.
Proof.
  intros Hlt. unfold Spec.clip. cbn [rows ncols]. f_equal.
  rewrite map_map. apply map_ext. intros r.
  rewrite map_map. apply map_ext. intros x.
  destruct (clip_value min_db max_db x Hlt) as [H1 H2].
  by apply clip_fixed.
Qed.


(** Limiting twice to the same range changes nothing more. *)
Theorem limit_db_range_idempotent (self s' : Spec.Spectrogram)
    (min_db max_db : float) :
  Spec.limit_db_range self min_db max_db = Ok s' →
  Spec.limit_db_range s' min_db max_db = Ok s'.
Proof.
  unfold Spec.limit_db_range.
  destruct (SFltb min_db max_db) eqn:Hlt; [|done]. cbn [negb].
  unfold Spec.init4, Spec.init. destruct (decide _) as [Hsh|]; [|done].
  intros H. inversion H; subst; clear H. cbn.
  rewrite clip_clip by done.
  destruct (decide _) as [|Hne]; [done|].
  exfalso. apply Hne. exact Hsh.
Qed.

(* ===================================================================== *)
(** * Spectrogram: the closest bin *)
(* ===================================================================== *)

(** The scan of [argmin], with [pre] the values already seen. *)
Lemma argmin_from_spec (a : list float) :
  ∀ (pre : list float) (best : float) (best_i : nat),
  Forall (λ x, isnan x = false) (pre ++ a) →
  pre !! best_i = Some best →
  (∀ j y, pre !! j = Some y → SFltb y best = false) →
  (∀ j y, (j < best_i)%nat → pre !! j = Some y → SFltb best y = true) →
  ∃ m, (pre ++ a) !! Spec.argmin_from best best_i (length pre) a = Some m
       ∧ (∀ j y, (pre ++ a) !! j = Some y → SFltb y m = false)
       ∧ (∀ j y, (j < Spec.argmin_from best best_i (length pre) a)%nat →
                 (pre ++ a) !! j = Some y → SFltb m y = true).
Proof.
  induction a as [|x a IH]; intros pre best best_i Hnan Hbest Hmin Hfirst.
  - rewrite app_nil_r. simpl. eauto.
  - assert (isnan x = false) as Hx.
    { apply (proj1 (Forall_forall _ _) Hnan). apply elem_of_app. right. left. }
    assert (∀ j y, pre !! j = Some y → isnan y = false) as Hpre.
    { intros j y Hj. apply (proj1 (Forall_forall _ _) Hnan).
      apply elem_of_app. left. by eapply list_elem_of_lookup_2. }
    assert (isnan best = false) as Hb by by eapply Hpre.
    assert (pre ++ x :: a = (pre ++ [x]) ++ a) as Happ
      by by rewrite <- app_assoc.
    assert (S (length pre) = length (pre ++ [x])) as Hlen
      by (rewrite length_app; simpl; lia).
    cbn [Spec.argmin_from]. rewrite Hx, Happ, Hlen. cbn [andb orb].
    rewrite orb_false_r.
    destruct (SFltb x best) eqn:E.
    + apply IH.
      * by rewrite <- Happ.
      * rewrite lookup_app_r by lia. by rewrite Nat.sub_diag.
      * intros j y Hj. apply lookup_app_Some in Hj as [Hj | [_ Hj]].
        -- destruct (SFltb y x) eqn:Eyx; [|done].
           rewrite <- (Hmin j y Hj). symmetry. by eapply SFltb_trans.
        -- destruct (j - length pre)%nat; simpl in Hj; [|done].
           inversion Hj; subst. apply SFltb_irrefl.
      * intros j y Hj Hy. rewrite lookup_app_l in Hy by done.
        eapply SFltb_le_trans; eauto.
    + apply IH.
      * by rewrite <- Happ.
      * rewrite lookup_app_l; [done | by eapply lookup_lt_Some].
      * intros j y Hj. apply lookup_app_Some in Hj as [Hj | [_ Hj]].
        -- by eapply Hmin.
        -- destruct (j - length pre)%nat; simpl in Hj; [|done].
           by inversion Hj; subst.
      * intros j y Hj Hy. apply Hfirst with j; [done|].
        rewrite lookup_app_l in Hy; [done|].
        apply lookup_lt_Some in Hbest. lia.
Qed.

(** [closest_index], used for both ends by [bandpass] and [trim]: when
    no distance is NaN, the index it returns is in range, no bin is
    strictly closer to the value than the chosen one, and every bin
    before it is strictly farther (the first of the closest is taken). *)
Theorem closest_index_minimal (a : list float) (v : float) (i : nat) :
  Forall (λ x, isnan (fabs (fsub x v)) = false) a →
  Spec.closest_index a v = Ok i →
  ∃ x, a !! i = Some x
       ∧ (∀ j y, a !! j = Some y →
            SFltb (fabs (fsub y v)) (fabs (fsub x v)) = false)
       ∧ (∀ j y, (j < i)%nat → a !! j = Some y →
            SFltb (fabs (fsub x v)) (fabs (fsub y v)) = true).
Proof.
  intros Hnan. unfold Spec.closest_index, Spec.argmin.
  destruct a as [|x0 a]; [done|]. rewrite fmap_cons.
  intros H. inversion H as [Hi]; clear H.
  set (d := λ x, fabs (fsub x v)) in *.
  destruct (argmin_from_spec (d <$> a) [d x0] (d x0) 0) as (m & Hm & Hmin & Hfirst).
  - change ([d x0] ++ (d <$> a)) with (d <$> x0 :: a).
    by apply Forall_fmap.
  - done.
  - intros [|j] y Hj; simpl in Hj; [|done]. inversion Hj. apply SFltb_irrefl.
  - intros j y Hj. lia.
  - change ([d x0] ++ (d <$> a)) with (d <$> x0 :: a) in *.
    change (length [d x0]) with 1%nat in *.
    rewrite list_lookup_fmap in Hm.
    destruct ((x0 :: a) !! Spec.argmin_from (d x0) 0 1 (d <$> a))
      as [x|] eqn:Ex; [|done].
    inversion Hm; subst m. exists x. split; [done|]. split.
    + intros j y Hj. apply (Hmin j). by rewrite list_lookup_fmap, Hj.
    + intros j y Hlt Hj. apply (Hfirst j); [done|].
      by rewrite list_lookup_fmap, Hj.
Qed.

(* ===================================================================== *)
(** * Spectrogram: time axis and amplitude *)
(* ===================================================================== *)

(** After any derived operation the window parameters are gone: window
    length, window step and window start times are all [None], and
    [duration] falls back to the last time value with its "Approximating
    duration" warning (or fails on an empty time axis). *)
Theorem derived_time_axis
    (h_min_max_scale : array2 → list float → array2)
    (h_linear_scale : array2 → float * float → list float → array2)
    (op : Spec.derived) (self s' : Spec.Spectrogram) :
  Spec.apply h_min_max_scale h_linear_scale op self = Ok s' →
  Spec.window_length s' = Ok None
  ∧ Spec.window_step s' = Ok None
  ∧ Spec.window_start_times s' = Ok None
  ∧ Spec.duration s'
    = match last (Spec.times s') with
      | Some t => Ok (t, true)
      | None => Raise IndexError
      end.
Proof.
  intros H.
  assert (Spec.window_samples s' = None) as Hw.
  { destruct op; simpl in H.
    - unfold Spec.bandpass in H. destruct (SFleb _ _); [done|].
      bind_inv H. bind_inv H. by apply init4_Ok in H as (? & _).
    - unfold Spec.trim in H. bind_inv H. bind_inv H.
      by apply init4_Ok in H as (? & _).
    - unfold Spec.min_max_scale in H. bind_inv H.
      by apply init4_Ok in H as (? & _).
    - unfold Spec.linear_scale in H. bind_inv H.
      by apply init4_Ok in H as (? & _).
    - unfold Spec.limit_db_range in H. destruct (negb _); [done|].
      by apply init4_Ok in H as (? & _). }
  unfold Spec.window_start_times, Spec.duration, Spec.window_length,
    Spec.window_step. rewrite Hw. cbn.
  repeat (split; [done|]).
  unfold Py.getitem. generalize (Spec.times s'). intros ts.
  destruct (Z.ltb_spec (-1) 0); [|lia].
  destruct ts as [|t ts] using rev_ind; [done|].
  rewrite last_snoc, length_app. cbn [length].
  replace (-1 + Z.of_nat (length ts + 1)) with (Z.of_nat (length ts)) by lia.
  destruct (Z.leb_spec 0 (Z.of_nat (length ts))); [|lia].
  destruct (Z.ltb_spec (Z.of_nat (length ts)) (Z.of_nat (length ts + 1)));
    [|lia].
  cbn. rewrite Nat2Z.id, lookup_app_r, Nat.sub_diag by lia. done.
Qed.

Lemma sum0_length (a : array2) : wf a → length (Spec.sum0 a) = ncols a.
Proof.
  destruct a as [rws c]. unfold wf, Spec.sum0. cbn.
  destruct rws as [|r rs]; [by rewrite length_replicate|].
  intros H. apply Forall_cons in H as [Hr Hrs].
  revert r Hr. induction Hrs as [|r' rs Hr' _ IH]; intros r Hr; [done|].
  cbn [foldl]. apply IH. rewrite length_zip_with. lia.
Qed.

Lemma valid_sum0_length (self : Spec.Spectrogram) :
  Spec.valid self →
  length (Spec.sum0 (Spec.spectrogram self)) = length (Spec.times self).
Proof.
  intros [Hwf Hsh]. rewrite sum0_length by done.
  unfold shape in Hsh. by injection Hsh as _ Hc.
Qed.

Lemma band_amplitude_length (self : Spec.Spectrogram) (band amp : list float) :
  Spec.valid self →
  Spec.amplitude self (Some band) = Ok amp →
  length amp = length (Spec.times self).
Proof.
  intros Hvalid H. unfold Spec.amplitude in H.
  bind_as H lo Hlo. bind_as H hi Hhi. bind_as H banded Hb.
  inversion H; subst; clear H.
  destruct (bandpass_shape self lo hi banded Hvalid Hb) as [Hv Ht].
  rewrite valid_sum0_length by done. by rewrite Ht.
Qed.

(** The amplitude signal of a spectrogram that satisfies the class
    invariant has one value per time bin, over all frequencies as well as
    over any band for which it is returned; a band that is not
    increasing is refused with the [ValueError] of [bandpass]. *)
Theorem amplitude_length (self : Spec.Spectrogram)
    (freq_range : option (list float)) :
  Spec.valid self →
  (∀ amp, Spec.amplitude self freq_range = Ok amp →
          length amp = length (Spec.times self))
  ∧ (∀ lo hi, freq_range = Some [lo; hi] → SFleb hi lo = true →
              Spec.amplitude self freq_range = Raise ValueError).
Proof.
  intros Hvalid. split.
  - intros amp H. destruct freq_range as [band|].
    + by eapply band_amplitude_length.
    + inversion H; subst. by apply valid_sum0_length.
  - intros lo hi -> Hle. unfold Spec.amplitude.
    change (Py.getitem [lo; hi] 0) with (@Ok float lo).
    change (Py.getitem [lo; hi] 1) with (@Ok float hi).
    cbn [mbind result_bind bind]. unfold Spec.bandpass. by rewrite Hle.
Qed.

Lemma np_sub_length (a b c : list float) :
  length a = length b → Spec.np_sub a b = Ok c → length c = length a.
Proof.
  intros Hlen. unfold Spec.np_sub.
  destruct (Nat.eqb_spec (length a) (length b)); [|done].
  intros H. inversion H. rewrite length_zip_with. lia.
Qed.

(** [net_amplitude] on a spectrogram that satisfies the class
    invariant: the signal has one value per time bin; when reject bands
    are given no value of it is negative or NaN: each is 0 or strictly
    positive. *)
Theorem net_amplitude_signal (self : Spec.Spectrogram)
    (signal_band : list float) (reject_bands : option (list (list float)))
    (net : list float) :
  Spec.valid self →
  Spec.net_amplitude self signal_band reject_bands = Ok net →
  length net = length (Spec.times self)
  ∧ (reject_bands ≠ None →
     Forall (λ v, v = zero ∨ SFltb zero v = true) net).
Proof.
  intros Hvalid H. unfold Spec.net_amplitude in H.
  bind_as H amp Hamp. bind_as H hi Hhi. bind_as H lo Hlo.
  pose proof (band_amplitude_length _ _ _ Hvalid Hamp) as Hlen.
  destruct reject_bands as [bands|].
  - bind_as H widths Hw. bind_as H net0 Hloop.
    inversion H; subst; clear H. split.
    + rewrite length_fmap.
      assert (∀ (bs : list (list float)) (n0 n1 : list float),
                length n0 = length (Spec.times self) →
                for_each
                  (λ net reject_band,
                     reject_band_amplitude ←
                       Spec.amplitude self (Some reject_band);
                     Spec.np_sub net
                       ((λ x, fdiv x (sum widths)) <$> reject_band_amplitude))
                  bs n0 = Ok n1 →
                length n1 = length (Spec.times self)) as Hinv.
      { clear - Hvalid. induction bs as [|b bs IH]; intros n0 n1 Hn0 Hrun.
        - simpl in Hrun. by inversion Hrun; subst.
        - cbn [for_each] in Hrun. bind_as Hrun n' Hstep.
          bind_as Hstep ra Hra.
          pose proof (band_amplitude_length _ _ _ Hvalid Hra) as Hral.
          apply np_sub_length in Hstep; [|rewrite length_fmap; lia].
          apply (IH n' n1); [lia | done]. }
      eapply Hinv; [|exact Hloop]. by rewrite length_fmap.
    + intros _. apply Forall_fmap, Forall_forall. intros v _.
      unfold Spec.py_max0. simpl. destruct (SFltb zero v) eqn:E; eauto.
  - inversion H; subst. split; [by rewrite length_fmap | done].
Qed.

(* ===================================================================== *)
(** * More on the first-order statistics *)
(* ===================================================================== *)

Lemma Forall2_length_eq {A} (secs : list (list A)) (szs : list nat) :
  Forall2 (λ c sz, length c = sz) secs szs → length <$> secs = szs.
Proof. induction 1 as [|c sz cs szs' Hc _ IH]; [done|]. cbn. by rewrite Hc, IH. Qed.

Lemma array_split_list_sizes {A} (ary : list A) (n : Z) secs :
  array_split_list ary n = Ok secs →
  0 < n
  ∧ concat secs = ary
  ∧ length <$> secs
    = replicate (length ary mod Z.to_nat n)%nat
                (S (length ary / Z.to_nat n)%nat)
      ++ replicate (Z.to_nat n - length ary mod Z.to_nat n)%nat
                   (length ary / Z.to_nat n)%nat.
Proof.
  unfold array_split_list. destruct (Z.leb_spec n 0) as [|Hn]; [done|].
  intros Hrun. split; [done|].
  assert (0 < Z.to_nat n)%nat as Hk by lia.
  pose proof (section_sizes_sum (length ary) (Z.to_nat n) Hk) as Hsum.
  set (szs := replicate (length ary mod Z.to_nat n)%nat
                        (S (length ary / Z.to_nat n)%nat)
              ++ replicate (Z.to_nat n - length ary mod Z.to_nat n)%nat
                           (length ary / Z.to_nat n)%nat) in *.
  assert (secs = sub_arys ary (0%nat :: cumsum 0 szs)) as ->
    by (injection Hrun as <-; reflexivity).
  clear Hrun. split.
  - rewrite sub_arys_concat, Hsum, drop_0. apply take_ge. lia.
  - apply Forall2_length_eq, sub_arys_sizes. rewrite Hsum. lia.
Qed.

(** [np.array_split] as [file_stats] uses it, for any band count: it is
    refused unless the count is positive; otherwise the bands put back in
    order are the rows of the spectrogram, the first [rows mod K] bands
    have [rows // K + 1] rows and the remaining ones [rows // K], also
    when K exceeds the number of rows (bands of no row at all). *)
Theorem array_split_heights (raw : array2) (K : Z) :
  (K ≤ 0 → array_split raw K = Raise ValueError)
  ∧ ∀ bands, array_split raw K = Ok bands →
      0 < K
      ∧ concat (rows <$> bands) = rows raw
      ∧ Forall (λ b, ncols b = ncols raw) bands
      ∧ shape0 <$> bands
        = replicate (shape0 raw mod Z.to_nat K)%nat
                    (S (shape0 raw / Z.to_nat K)%nat)
          ++ replicate (Z.to_nat K - shape0 raw mod Z.to_nat K)%nat
                       (shape0 raw / Z.to_nat K)%nat.
Proof.
  split.
  - intros HK. unfold array_split, array_split_list.
    destruct (Z.leb_spec K 0); [done | lia].
  - intros bands H. unfold array_split in H.
    destruct (array_split_list (rows raw) K) as [secs|e] eqn:E; [|done].
    cbn in H. inversion H; subst; clear H.
    destruct (array_split_list_sizes _ _ _ E) as (HK & Hcat & Hsz).
    split; [done|]. split; [|split].
    + transitivity (concat secs); [|exact Hcat]. f_equal. clear.
      induction secs as [|c secs IH]; [done|]. cbn. by rewrite IH.
    + apply Forall_forall. intros b Hb.
      apply list_elem_of_In, in_map_iff in Hb as (r & <- & _). done.
    + transitivity (length <$> secs); [|exact Hsz]. clear.
      induction secs as [|c secs IH]; [done|]. cbn. by rewrite IH.
Qed.

Lemma comprehension_first_error {A B} (f : A → result B) (l : list A) e :
  (∀ x, x ∈ l → f x = Raise e ∨ ∃ y, f x = Ok y) →
  (∃ x, x ∈ l ∧ f x = Raise e) →
  comprehension f l = Raise e.
Proof.
  induction l as [|x l IH]; intros Hall (x0 & Hin & Hx0).
  - by apply elem_of_nil in Hin.
  - cbn [comprehension].
    destruct (Hall x ltac:(left)) as [Hx | [y Hy]].
    + by rewrite Hx.
    + rewrite Hy. cbn.
      apply elem_of_cons in Hin as [-> | Hin]; [congruence|].
      rewrite IH; [done | |eauto].
      intros x' Hx'. apply Hall. by right.
Qed.

Lemma ravel_empty (a : array2) :
  wf a → (shape0 a = 0 ∨ ncols a = 0)%nat → ravel a = [].
Proof.
  destruct a as [rws c]. unfold wf, ravel, shape0. cbn.
  intros Hwf [H0 | H0].
  - by destruct rws.
  - subst c. induction Hwf as [|r rws Hr _ IH]; [done|].
    destruct r; [|done]. done.
Qed.

(** More bands than rows leave a band without rows. *)
Lemma array_split_empty_band (raw : array2) (K : Z) bands :
  array_split raw K = Ok bands → Z.of_nat (shape0 raw) < K →
  ∃ b, b ∈ bands ∧ ravel b = [].
Proof.
  intros H Hbig. unfold array_split in H.
  destruct (array_split_list (rows raw) K) as [secs|e] eqn:E; [|done].
  cbn in H. inversion H; subst; clear H.
  destruct (array_split_list_sizes _ _ _ E) as (HK & _ & Hsz).
  unfold shape0 in Hbig.
  rewrite Nat.div_small, Nat.mod_small in Hsz by lia.
  assert (0%nat ∈ length <$> secs) as H0.
  { rewrite Hsz. apply elem_of_app. right.
    apply list_elem_of_lookup. exists 0%nat.
    apply lookup_replicate_2. lia. }
  apply list_elem_of_fmap in H0 as (sec & Hlen & Hsec).
  exists (Array2 sec (ncols raw)). split.
  - apply list_elem_of_In, in_map_iff. exists sec.
    split; [done | by apply list_elem_of_In].
  - destruct sec; done.
Qed.

(** [file_stats] once the spectrogram is read.  It raises [ValueError]
    when the spectrogram has no element, when the band count is not
    positive, or when there are more bands than frequency rows (a band
    without rows cannot be described).  Otherwise the table pandas'
    [describe()] gives for the boxes decides: with two rows, or with the
    rows [min], [max], [mean] and [std], the row is returned, the four
    fields of the raw spectrogram, of each band, and twelve values
    (zeros for the table of two rows); any other table raises
    [KeyError]. *)
Theorem file_stats_returns_iff
    (sample_statistics : list float → DescribeResult)
    (pd_describe : list Z → list Z → list Z → StatsTable)
    (spect_gen : label → Config → result (DataFrame * array2 * float))
    (l : label) (config : Config) (db : Database)
    (df : DataFrame) (spec : array2) (normal : float) :
  (if db_rw config then read_spectrogram l db else spect_gen l config)
    = Ok (df, spec, normal) →
  wf spec →
  let K := num_frequency_bands config in
  let raw := scale spec normal in
  let df_stats :=
    pd_describe (width <$> df) (height <$> df) (y_min <$> df) in
  let fits := ((0 < ncols spec)%nat ∧ 1 ≤ K ≤ Z.of_nat (shape0 spec)) in
  let readable :=
    length df_stats = 2%nat
    ∨ Forall (λ key, key ∈ df_stats.*1) ["min"; "max"; "mean"; "std"] in
  (¬ fits →
   file_stats sample_statistics pd_describe spect_gen l config db
   = Raise ValueError)
  ∧ (fits → ¬ readable →
     file_stats sample_statistics pd_describe spect_gen l config db
     = Raise KeyError)
  ∧ (fits → readable →
     ∃ bands block,
       array_split raw K = Ok bands
       ∧ df_stats_block df_stats = Ok block
       ∧ length block = 12%nat
       ∧ (length df_stats = 2%nat → block = replicate 12 zero)
       ∧ file_stats sample_statistics pd_describe spect_gen l config db
         = Ok (df, spec, normal,
               (stats4 (described sample_statistics raw)
                ++ concat ((λ b, stats4 (described sample_statistics b))
                           <$> bands))
               ++ block)).
Proof.
  intros Hsrc Hwf K raw df_stats fits readable.
  assert (fits →
          ∃ bands,
            array_split raw K = Ok bands
            ∧ file_stats sample_statistics pd_describe spect_gen l config db
              = block ← df_stats_block df_stats;
                Ok (df, spec, normal,
                    (stats4 (described sample_statistics raw)
                     ++ concat ((λ b, stats4 (described sample_statistics b))
                                <$> bands))
                    ++ block)) as Hfits.
  { intros [Hc HK].
    destruct (file_stats_unfolded sample_statistics pd_describe spect_gen
                l config db df spec normal Hsrc Hwf Hc HK)
      as (bands & Hs & _ & Hrun).
    exists bands. split; [exact Hs | exact Hrun]. }
  split; [|split].
  - intros Hnot.
    assert (wf raw) as Hwfr by by apply wf_scale.
    assert (shape0 raw = shape0 spec) as Hsh
      by (unfold shape0, raw, scale; cbn; by rewrite length_map).
    assert (ncols raw = ncols spec) as Hnc by done.
    unfold file_stats. rewrite Hsrc. cbn [mbind result_bind bind].
    fold raw K.
    destruct (decide (shape0 spec = 0 ∨ ncols spec = 0)%nat) as [Hempty|Hne].
    { unfold describe. rewrite ravel_empty; [done | done |].
      rewrite Hsh, Hnc. done. }
    rewrite (describe_nonempty sample_statistics raw) by (try done; lia).
    cbn [mbind result_bind bind].
    destruct (Z.leb_spec K 0) as [HK|HK].
    { unfold array_split, array_split_list.
      destruct (Z.leb_spec K 0); [done | lia]. }
    destruct (array_split raw K) as [bands|e] eqn:Hs.
    2:{ unfold array_split, array_split_list in Hs.
        destruct (Z.leb_spec K 0); [lia | done]. }
    cbn [mbind result_bind bind].
    assert (Z.of_nat (shape0 raw) < K) as Hbig by (unfold fits in Hnot; lia).
    destruct (array_split_empty_band raw K bands Hs Hbig) as (b & Hb & Hb0).
    unfold freq_bands_stats.
    rewrite (comprehension_first_error (describe sample_statistics) bands
               ValueError); [done | |].
    + intros b' _. unfold describe. destruct (ravel b'); eauto.
    + exists b. split; [done|]. unfold describe. by rewrite Hb0.
  - intros Hf Hnr. destruct (Hfits Hf) as (bands & _ & ->).
    destruct (df_stats_block df_stats) as [block|e] eqn:Hb.
    + exfalso. apply Hnr.
      destruct (df_stats_block_Ok _ _ Hb) as [_ [[H2 _] | (_ & Hall & _)]];
        [by left | by right].
    + by destruct (df_stats_block_Raise _ _ Hb) as [-> _].
  - intros Hf Hr. destruct (Hfits Hf) as (bands & Hs & ->).
    destruct (df_stats_block df_stats) as [block|e] eqn:Hb.
    + exists bands, block. split; [exact Hs|]. split; [done|].
      destruct (df_stats_block_Ok _ _ Hb) as [Hlen Hcases].
      split; [exact Hlen|]. split; [|done].
      intros H2. destruct Hcases as [[_ ->] | [Hne _]]; done.
    + exfalso. destruct (df_stats_block_Raise _ _ Hb) as (_ & Hne & Hnot).
      destruct Hr as [H2 | Hall]; [done | by apply Hnot].
Qed.

(* ===================================================================== *)
(** * More on the template matcher *)
(* ===================================================================== *)

Lemma slice_length_inside (start stop : Z) (len : nat) :
  0 ≤ start → start ≤ stop → stop ≤ Z.of_nat len →
  Z.of_nat (Py.slice_length start stop len) = stop - start.
Proof.
  intros H0 H1 H2. unfold Py.slice_length, Py.slice_index.
  destruct (Z.ltb_spec start 0); [lia|].
  destruct (Z.ltb_spec stop 0); lia.
Qed.

(** When the source spectrogram is at least as tall as the candidate's,
    the height part of the eligibility test always holds: a template is
    eligible exactly when its box is no wider than the source.  If the
    source is at least as wide too, every box inside the candidate is
    eligible, and with a non-negative buffer the stripe cut from the
    source contains the box vertically and is at least as large as the
    segment in both directions (what [cv2.matchTemplate] requires). *)
Theorem eligible_when_source_covers (spec_one spec_two : array2)
    (buffer : Z) (item : box) :
  (shape0 spec_two ≤ shape0 spec_one)%nat →
  eligible spec_one spec_two buffer item
  = (x_max item - x_min item <=? Z.of_nat (shape1 spec_one))
  ∧ (in_bounds spec_two item = true →
     (shape1 spec_two ≤ shape1 spec_one)%nat →
     eligible spec_one spec_two buffer item = true
     ∧ (0 ≤ buffer → y_min item ≤ y_max item → x_min item ≤ x_max item →
        let y0 := y_min_target buffer item in
        let y1 := y_max_target spec_two buffer item in
        let segment :=
          slice2 (y_min item) (y_max item) (x_min item) (x_max item)
                 spec_two in
        let stripe := slice_rows y0 y1 spec_one in
        0 ≤ y0 ≤ y_min item
        ∧ y_max item ≤ y1 ≤ Z.of_nat (shape0 spec_two)
        ∧ (shape0 segment ≤ shape0 stripe)%nat
        ∧ (shape1 segment ≤ shape1 stripe)%nat)).
Proof.
  intros Htall.
  assert (0 ≤ y_min_target buffer item) as H0.
  { unfold y_min_target. destruct (Z.gtb_spec (y_min item) buffer); lia. }
  assert (y_max_target spec_two buffer item ≤ Z.of_nat (shape0 spec_two))
    as H1.
  { unfold y_max_target.
    destruct (Z.ltb_spec (y_max item) (Z.of_nat (shape0 spec_two) - buffer));
      lia. }
  assert (eligible spec_one spec_two buffer item
          = (x_max item - x_min item <=? Z.of_nat (shape1 spec_one))) as He.
  { unfold eligible.
    destruct (Z.leb_spec (y_max_target spec_two buffer item
                          - y_min_target buffer item)
                         (Z.of_nat (shape0 spec_one))); [done | lia]. }
  split; [exact He|]. intros Hin Hwide.
  unfold in_bounds in Hin.
  apply andb_prop in Hin as [Hin Hx1]. apply andb_prop in Hin as [Hin Hx0].
  apply andb_prop in Hin as [Hy0 Hy1].
  apply Z.leb_le in Hy0, Hy1, Hx0, Hx1.
  split.
  { rewrite He. apply Z.leb_le. lia. }
  intros Hbuf Hy Hx y0 y1 segment stripe.
  assert (y0 ≤ y_min item) as Hlo.
  { unfold y0, y_min_target. destruct (Z.gtb_spec (y_min item) buffer); lia. }
  assert (y_max item ≤ y1) as Hhi.
  { unfold y1, y_max_target.
    destruct (Z.ltb_spec (y_max item) (Z.of_nat (shape0 spec_two) - buffer));
      lia. }
  split; [done|]. split; [done|].
  unfold segment, stripe, shape0, shape1, slice2, slice_rows.
  cbn [rows ncols]. rewrite length_map, !slice_length_spec.
  pose proof (slice_length_inside (y_min item) (y_max item)
                (length (rows spec_two)) Hy0 Hy Hy1) as Hs1.
  pose proof (slice_length_inside y0 y1 (length (rows spec_one)))
    as Hs2.
  pose proof (slice_length_inside (x_min item) (x_max item) (ncols spec_two)
                Hx0 Hx Hx1) as Hs3.
  unfold shape0, shape1 in *.
  split; [|lia].
  assert (Z.of_nat (Py.slice_length y0 y1 (length (rows spec_one)))
          = y1 - y0) as Hs2' by (apply Hs2; fold y0 y1 in H0, H1; lia).
  lia.
Qed.

Section MatcherMore.

Context (sample_statistics : list float → DescribeResult)
        (pd_describe : list Z → list Z → list Z → StatsTable)
        (spect_gen : label → Config → result (DataFrame * array2 * float))
        (apply_gaussian_filter : array2 → string → array2)
        (matchTemplate : array2 → array2 → Z → result array2)
        (minMaxLoc : array2 → float * float * (Z * Z) * (Z * Z)).

Local Abbreviation file_file_stats :=
  (Lasseck.file_file_stats spect_gen apply_gaussian_filter matchTemplate
                           minMaxLoc).
Local Abbreviation run_stats :=
  (Lasseck.run_stats sample_statistics pd_describe spect_gen
                     apply_gaussian_filter matchTemplate minMaxLoc).

(** With the live spectrogram source selected, [run_stats] never
    persists anything: every call raises and leaves the store as it
    was. *)
Theorem live_run_stats_never_writes (idx_one : label)
    (labels_df : list label) (config : Config) (db : Database) :
  db_rw config = false →
  ∃ e, run_stats idx_one labels_df config db = (Raise e, db).
Proof.
  intros Hlive. unfold Lasseck.run_stats.
  destruct (get_loc labels_df idx_one) as [i|e] eqn:Hloc; [|by eexists].
  cbn [mbind result_bind bind].
  destruct (file_stats sample_statistics pd_describe spect_gen idx_one config db)
    as [[[[df_one spec_one] normal_one] row_f]|e]; [|by eexists].
  cbn [mbind result_bind bind].
  rewrite live_path_raises; [by eexists | done |].
  apply get_loc_Ok in Hloc. intros ->. done.
Qed.

Lemma iloc_length (df : DataFrame) (positions : list Z) df' :
  iloc df positions = Ok df' → length df' = length positions.
Proof. apply comprehension_length. Qed.

(** With a template pool, every entry of the returned dictionary
    belongs to a label of the pool, and its array has one row per
    position listed for that label in the pool, not one per box of the
    label; a label outside the pool gets no entry. *)
Theorem pool_match_stats_rows df_one spec_one normal_one labels_df config db
    (pools : list (label * list Z)) (d : gmap label MatchStats)
    (l : label) (arr : MatchStats) :
  template_pool config = Some pools →
  file_file_stats df_one spec_one normal_one labels_df config db = Ok d →
  d !! l = Some arr →
  l ∈ pools.*1
  ∧ ∃ positions,
      pools_loc pools l = Ok positions
      ∧ length arr = length positions.
Proof.
  intros Hpool Hrun Hl.
  assert (db_rw config = true) as Hrw.
  { destruct (db_rw config) eqn:E; [done|].
    destruct (decide (labels_df = [])) as [-> | Hne].
    - unfold Lasseck.file_file_stats, items_of in Hrun. rewrite E in Hrun.
      cbn in Hrun. inversion Hrun; subst. by rewrite lookup_empty in Hl.
    - by rewrite live_path_raises in Hrun. }
  unfold Lasseck.file_file_stats in Hrun.
  destruct (outer_loop _ _ _ _ Hrun) as (Hfrom & _ & _).
  destruct (Hfrom l arr Hl) as [H0|(item & Hin & Hitem)];
    [by rewrite lookup_empty in H0|].
  apply match_item_inv in Hitem as (df_two & spec_two & Hcand & Hts).
  destruct (template_stats_rows _ _ _ _ _ _ _ Hts)
    as (segments & _ & Hlen & Hlarr & _).
  unfold Lasseck.candidate in Hcand. rewrite Hrw, Hpool in Hcand.
  bind_as Hcand idx_two Hidx. bind_as Hcand data Hdata.
  destruct data as [[df spec] normal]. bind_as Hcand df' Hsel.
  inversion Hcand; subst; clear Hcand.
  bind_as Hsel positions Hpos. apply iloc_length in Hsel.
  split.
  - unfold pools_loc in Hpos.
    destruct (list_find _ pools) as [[j p]|] eqn:E; [|done].
    apply list_find_Some in E as (Hj & Hp & _).
    apply list_elem_of_fmap. exists p. split; [done|].
    by eapply list_elem_of_lookup_2.
  - exists positions. split; [done | lia].
Qed.

End MatcherMore.

(* ===================================================================== *)
(** * More on the feature assembler *)
(* ===================================================================== *)

(** A target without candidates cannot be assembled: when no template
    pool is configured and no file is labelled 1, or when the pool is
    empty, [build_X_y] raises whatever has been persisted. *)
Theorem build_X_y_needs_candidates (labels_df : list (label * Z))
    (config : Config) (db : Database) :
  (template_pool config = None ∧ Forall (λ p, p.2 ≠ 1) labels_df)
  ∨ template_pool config = Some [] →
  ∃ e, build_X_y labels_df config db = Raise e.
Proof.
  intros Hcase.
  assert (get_file_file_stats_for labels_df config = []) as Hnone.
  { unfold get_file_file_stats_for.
    destruct Hcase as [[-> Hneg] | ->]; [|done].
    induction Hneg as [|p ps Hp _ IH]; [done|].
    rewrite filter_cons. destruct (decide (p.2 = 1)); done. }
  clear Hcase.
  destruct (build_X_y labels_df config db) as [[X y]|e] eqn:Hrun;
    [|by eexists].
  exfalso. unfold build_X_y in Hrun. rewrite Hnone in Hrun.
  bind_as Hrun acc Hloop. destruct acc as [fs ffs].
  bind_as Hrun rws Harr. bind_as Hrun tmp Htmp. bind_as Hrun flat Hflat.
  destruct tmp as [|v tmp]; [done|].
  pose proof (comprehension_length _ _ _ Htmp) as Hlen.
  destruct ffs as [|o ffs]; [done|].
  destruct (comprehension_lookup _ _ _ 0%nat o Htmp eq_refl)
    as (v' & _ & Hv).
  assert (∀ B, length (replicate (length labels_df) (@None B))
               = length labels_df.*1) as Hn
    by (intros B; by rewrite length_replicate, length_fmap).
  destruct (read_loop _ _ _ (_, _) _ (Hn _) (Hn _) Hloop)
    as (_ & _ & Hslots). cbn [fst snd] in Hslots.
  destruct (Hslots 0%nat)
    as [[_ E2]|(item & picked & _ & _ & Hpk & _ & E2)].
  - cbn [lookup list_lookup] in E2.
    destruct (length labels_df); cbn in E2; [done|].
    inversion E2; subst. done.
  - cbn [lookup list_lookup] in E2. inversion E2; subst.
    cbn in Hpk. inversion Hpk; subst. done.
Qed.

(* ===================================================================== *)
(** * From the statistics pass to the assembly *)
(* ===================================================================== *)

Lemma fmap_inj_elem {A B} (f : A → B) (l : list A) (x y : A) :
  NoDup (f <$> l) → x ∈ l → y ∈ l → f x = f y → x = y.
Proof.
  intros Hnd Hx Hy Hf.
  apply list_elem_of_lookup in Hx as [i Hi].
  apply list_elem_of_lookup in Hy as [j Hj].
  assert (i = j) as ->.
  { eapply NoDup_lookup; [exact Hnd | |].
    - rewrite list_lookup_fmap, Hi. reflexivity.
    - rewrite list_lookup_fmap, Hj. cbn. by rewrite Hf. }
  congruence.
Qed.

Lemma read_spectrogram_unique (db : Database) (r : SpecItem) :
  NoDup (si_label <$> spectrograms db) → r ∈ spectrograms db →
  read_spectrogram (si_label r) db = Ok (si_df r, si_spec r, si_normal r).
Proof.
  intros Hnd Hr. unfold read_spectrogram, return_cursor.
  destruct (filter _ (spectrograms db)) as [|it its] eqn:E.
  - exfalso. eapply (filter_nil_not_elem_of _ _ r E); [|done].
    cbn. by apply list_elem_of_singleton.
  - assert (it ∈ filter (λ it, si_label it ∈ [si_label r]) (spectrograms db))
      as Hit by (rewrite E; left).
    apply list_elem_of_filter in Hit as [Hl Hit].
    apply list_elem_of_singleton in Hl.
    by rewrite (fmap_inj_elem si_label _ it r Hnd Hit Hr Hl).
Qed.

Lemma get_loc_NoDup (index : list label) (l : label) (i : nat) :
  NoDup index → index !! i = Some l → get_loc index l = Ok i.
Proof.
  intros Hnd Hi. unfold get_loc.
  destruct (list_find (λ x, x = l) index) as [[j x]|] eqn:E.
  - apply list_find_Some in E as (Hj & -> & _).
    by rewrite (NoDup_lookup _ _ _ _ Hnd Hi Hj).
  - apply list_find_None in E.
    exfalso. apply (proj1 (Forall_forall _ _) E l); [|done].
    by eapply list_elem_of_lookup_2.
Qed.

Lemma get_loc_elem (index : list label) (l : label) :
  l ∈ index → ∃ i, get_loc index l = Ok i.
Proof.
  intros Hl. unfold get_loc.
  destruct (list_find (λ x, x = l) index) as [[j x]|] eqn:E; [eauto|].
  apply list_find_None in E.
  exfalso. by apply (proj1 (Forall_forall _ _) E l).
Qed.

Lemma for_each_total {A S} (body : S → A → result S) (l : list A) :
  (∀ s x, x ∈ l → ∃ s', body s x = Ok s') →
  ∀ s, ∃ r, for_each body l s = Ok r.
Proof.
  induction l as [|x l IH]; intros Hall s; [by eexists|].
  cbn [for_each]. destruct (Hall s x ltac:(left)) as [s' Hs'].
  rewrite Hs'. cbn. apply IH. intros s0 x0 Hx0. apply Hall. by right.
Qed.

Lemma comprehension_Ok_all {A B} (f : A → result B) (l : list A) :
  (∀ x, x ∈ l → ∃ y, f x = Ok y) → ∃ ys, comprehension f l = Ok ys.
Proof.
  intros H. apply comprehension_total, Forall_forall. exact H.
Qed.

(** The row of [file_stats] has its fixed length whenever it is
    returned. *)
Lemma file_stats_row_length
    (sample_statistics : list float → DescribeResult)
    (pd_describe : list Z → list Z → list Z → StatsTable)
    (spect_gen : label → Config → result (DataFrame * array2 * float))
    (l : label) (config : Config) (db : Database) df spec normal row :
  file_stats sample_statistics pd_describe spect_gen l config db
  = Ok (df, spec, normal, row) →
  length row = (16 + 4 * Z.to_nat (num_frequency_bands config))%nat.
Proof.
  unfold file_stats. intros H. bind_as H src Hsrc.
  destruct src as [[df0 spec0] normal0].
  bind_as H st Hst. bind_as H bands Hbands. bind_as H bst Hbst.
  bind_as H block Hblock.
  assert (row = (stats4 st ++ concat (stats4 <$> bst)) ++ block)
    as -> by (inversion H; reflexivity).
  assert (spec0 = spec ∧ normal0 = normal) as [-> ->]
    by (inversion H; done).
  clear H.
  unfold array_split in Hbands.
  destruct (array_split_list _ _) as [secs|e] eqn:E; [|done].
  cbn in Hbands. inversion Hbands; subst; clear Hbands.
  destruct (array_split_list_sizes _ _ _ E) as (HK & _ & Hsz).
  apply comprehension_length in Hbst. rewrite length_map in Hbst.
  assert (length secs = Z.to_nat (num_frequency_bands config)) as Hlen.
  { rewrite <- (length_fmap length secs), Hsz.
    rewrite length_app, !length_replicate.
    pose proof (Nat.mod_upper_bound
                  (length (rows (scale spec normal)))
                  (Z.to_nat (num_frequency_bands config)) ltac:(lia)).
    lia. }
  rewrite !length_app, stats4_concat_length.
  destruct (df_stats_block_Ok _ _ Hblock) as [-> _].
  cbn [length stats4]. lia.
Qed.

Section Assembly.

Context (sample_statistics : list float → DescribeResult)
        (pd_describe : list Z → list Z → list Z → StatsTable)
        (spect_gen : label → Config → result (DataFrame * array2 * float))
        (apply_gaussian_filter : array2 → string → array2)
        (matchTemplate : array2 → array2 → Z → result array2)
        (minMaxLoc : array2 → float * float * (Z * Z) * (Z * Z)).

Local Abbreviation file_file_stats :=
  (Lasseck.file_file_stats spect_gen apply_gaussian_filter matchTemplate
                           minMaxLoc).
Local Abbreviation run_stats :=
  (Lasseck.run_stats sample_statistics pd_describe spect_gen
                     apply_gaussian_filter matchTemplate minMaxLoc).
Local Abbreviation computed :=
  (computed_record sample_statistics pd_describe spect_gen
                   apply_gaussian_filter matchTemplate minMaxLoc).

Lemma template_stats_shape spec_one spec_two buffer df_two arr :
  template_stats matchTemplate minMaxLoc spec_one spec_two buffer df_two
  = Ok arr →
  length arr = length df_two ∧ Forall (λ r, length r = 3%nat) arr.
Proof.
  intros Hts.
  destruct (template_stats_rows _ _ _ _ _ _ _ Hts)
    as (segments & Hseg & Hlen & Hlarr & Hrows).
  split; [lia|]. apply Forall_lookup. intros i r Hr.
  assert (i < length df_two)%nat as Hi
    by (apply lookup_lt_Some in Hr; lia).
  destruct (lookup_lt_is_Some_2 df_two i Hi) as [item_i Hitem_i].
  destruct (lookup_lt_is_Some_2 segments i ltac:(lia)) as [seg Hsegi].
  specialize (Hrows i item_i seg Hitem_i Hsegi).
  destruct (eligible spec_one spec_two buffer item_i).
  - destruct Hrows as [out [_ Hrow]]. rewrite Hr in Hrow.
    by inversion Hrow.
  - rewrite Hr in Hrows. by inversion Hrows.
Qed.

(** Without a pool, the array under a label has one row of three values
    per stored box of that label, whatever the source. *)
Lemma file_file_stats_entry df_one spec_one normal_one index config db
    (ms : gmap label MatchStats) (x : label) (arr : MatchStats) :
  db_rw config = true → template_pool config = None →
  NoDup (si_label <$> spectrograms db) →
  file_file_stats df_one spec_one normal_one index config db = Ok ms →
  ms !! x = Some arr →
  length arr = n_boxes db x ∧ Forall (λ r, length r = 3%nat) arr.
Proof.
  intros Hrw Hpool Hnd Hrun Hx. unfold Lasseck.file_file_stats in Hrun.
  destruct (outer_loop _ _ _ _ Hrun) as (Hfrom & _ & _).
  destruct (Hfrom x arr Hx) as [H0|(item & Hin & Hitem)];
    [by rewrite lookup_empty in H0|].
  unfold items_of in Hin. rewrite Hrw, Hpool in Hin.
  apply list_elem_of_fmap in Hin as (r & -> & Hr).
  apply list_elem_of_filter in Hr as [_ Hr].
  apply match_item_inv in Hitem as (df_two & spec_two & Hcand & Hts).
  unfold candidate in Hcand. rewrite Hrw, Hpool in Hcand. cbn in Hcand.
  inversion Hcand; subst; clear Hcand.
  destruct (template_stats_shape _ _ _ _ _ Hts) as [Hlen Hall].
  split; [|done]. unfold n_boxes.
  by rewrite (read_spectrogram_unique db r Hnd Hr).
Qed.

(** What a computed record holds for the candidates. *)
Lemma computed_record_facts (index : list label) config db (it : StatsItem) :
  db_rw config = true → template_pool config = None →
  NoDup (si_label <$> spectrograms db) →
  computed index config db it →
  length (st_row it)
  = (16 + 4 * Z.to_nat (num_frequency_bands config))%nat
  ∧ (∃ r, r ∈ spectrograms db ∧ si_label r = st_label it)
  ∧ ∀ x, x ∈ index → (∃ r, r ∈ spectrograms db ∧ si_label r = x) →
      ∃ a, st_match it !! x = Some a
           ∧ wf a ∧ ncols a = 3%nat ∧ shape0 a = n_boxes db x.
Proof.
  intros Hrw Hpool Hnd (df & spec & normal & row & ms & Hfs & Hffs & Hit).
  split; [|split].
  - rewrite Hit. cbn. by eapply file_stats_row_length.
  - unfold file_stats in Hfs. rewrite Hrw in Hfs. bind_as Hfs src Hsrc.
    by eapply read_spectrogram_stored.
  - intros x Hx Hstored.
    pose proof (file_file_stats_keys _ _ _ _ _ _ _ _ _ _ _ Hrw Hpool Hffs x)
      as Hkeys.
    destruct (proj2 Hkeys (conj Hx Hstored)) as [arr Harr].
    destruct (file_file_stats_entry _ _ _ _ _ _ _ _ _ Hrw Hpool Hnd Hffs Harr)
      as [Hlen Hall].
    exists (Array2 arr 3). rewrite Hit. cbn. rewrite lookup_fmap, Harr.
    split; [done|]. split; [exact Hall|]. split; [done|]. exact Hlen.
Qed.

Lemma picked_facts (db : Database) (m : gmap label array2)
    (cand : list label) :
  ∀ picked,
  (∀ x, x ∈ cand → ∃ a, m !! x = Some a ∧ wf a ∧ ncols a = 3%nat
                        ∧ shape0 a = n_boxes db x) →
  comprehension (getitem_dict m) cand = Ok picked →
  Forall (λ a, wf a ∧ ncols a = 3%nat) picked
  ∧ sum_list (shape0 <$> picked) = sum_list (n_boxes db <$> cand).
Proof.
  induction cand as [|x cand IH]; intros picked Hall Hpk.
  - cbn in Hpk. inversion Hpk; subst. done.
  - cbn [comprehension] in Hpk. bind_as Hpk a Ha. bind_as Hpk ps Hps.
    inversion Hpk; subst; clear Hpk.
    destruct (Hall x ltac:(left)) as (a' & Ha' & Hwf & Hc & Hs).
    unfold getitem_dict in Ha. rewrite Ha' in Ha. inversion Ha; subst.
    destruct (IH ps) as [Hf Hsum]; [|done|].
    { intros x' Hx'. apply Hall. by right. }
    split; [by constructor|]. rewrite !fmap_cons.
    change (sum_list (?h :: ?t)) with (h + sum_list t)%nat.
    by rewrite Hs, Hsum.
Qed.

Lemma picked_total (m : gmap label array2) (cand : list label) :
  (∀ x, x ∈ cand → ∃ a, m !! x = Some a) →
  ∃ picked, comprehension (getitem_dict m) cand = Ok picked.
Proof.
  intros Hall. apply comprehension_Ok_all. intros x Hx.
  destruct (Hall x Hx) as [a Ha]. exists a. unfold getitem_dict.
  by rewrite Ha.
Qed.

(** A record of the cursor leaves its slot filled, by itself or by a
    later record of the same position. *)
Lemma read_loop_hits (index candidates : list label)
    (items : list StatsItem) :
  ∀ acc acc' item i,
  length acc.1 = length index → length acc.2 = length index →
  for_each (read_item index candidates) items acc = Ok acc' →
  item ∈ items → get_loc index (st_label item) = Ok i →
  ∃ item' picked,
    item' ∈ items
    ∧ index !! i = Some (st_label item')
    ∧ comprehension (getitem_dict (st_match item')) candidates = Ok picked
    ∧ acc'.1 !! i = Some (Some (st_row item'))
    ∧ acc'.2 !! i = Some (Some picked).
Proof.
  induction items as [|item0 items IH]; intros acc acc' item i H1 H2 H Hin Hi.
  - by apply elem_of_nil in Hin.
  - cbn [for_each] in H. bind_as H acc1 Hstep.
    pose proof Hstep as Hstep0.
    unfold read_item in Hstep. bind_as Hstep mono_idx Hmono.
    simpl in Hstep. bind_as Hstep picked Hpk.
    inversion Hstep; subst; clear Hstep.
    pose proof (get_loc_Ok _ _ _ Hmono) as Hm.
    assert (mono_idx < length index)%nat as Hlt by by eapply lookup_lt_Some.
    assert (length (<[mono_idx:=Some (st_row item0)]> acc.1) = length index)
      as H1' by (rewrite length_insert; done).
    assert (length (<[mono_idx:=Some picked]> acc.2) = length index)
      as H2' by (rewrite length_insert; done).
    apply elem_of_cons in Hin as [-> | Hin].
    + assert (mono_idx = i) as -> by congruence.
      destruct (read_loop _ _ _ (_, _) _ H1' H2' H) as (_ & _ & Hslots).
      destruct (Hslots i)
        as [[E1 E2]|(it & pk & Hit & Hidx & Hp & E1 & E2)].
      * cbn [fst snd] in E1, E2.
        rewrite list_lookup_insert_eq in E1 by lia.
        rewrite list_lookup_insert_eq in E2 by lia.
        exists item0, picked. split; [left | done].
      * exists it, pk. split; [by right | done].
    + destruct (IH (_, _) _ _ _ H1' H2' H Hin Hi)
        as (it & pk & Hit & Hrest).
      exists it, pk. split; [by right | done].
Qed.

Lemma common_length_const {A} (l : list (list A)) (L : nat) :
  Forall (λ r, length r = L) l → ∃ m, common_length l = Some m.
Proof.
  intros H. unfold common_length. destruct l as [|r l]; [eauto|].
  apply Forall_cons in H as [Hr Hl].
  assert (forallb (λ r', Nat.eqb (length r') (length r)) l = true) as ->;
    [|eauto].
  apply forallb_forall. intros r' Hr'. apply Nat.eqb_eq.
  apply list_elem_of_In in Hr'.
  rewrite (proj1 (Forall_forall _ _) Hl r' Hr'). done.
Qed.

Lemma vstack_three (picked : list array2) :
  picked ≠ [] → Forall (λ a, wf a ∧ ncols a = 3%nat) picked →
  ∃ v, vstack picked = Ok v
       ∧ shape0 v = sum_list (shape0 <$> picked) ∧ ncols v = 3%nat.
Proof.
  intros Hne Hall. unfold vstack. destruct picked as [|b picked]; [done|].
  apply Forall_cons in Hall as [[_ Hb] Hall].
  assert (forallb (λ b', Nat.eqb (ncols b') (ncols b)) picked = true) as ->.
  { apply forallb_forall. intros b' Hb'. apply Nat.eqb_eq.
    apply list_elem_of_In in Hb'.
    destruct (proj1 (Forall_forall _ _) Hall b' Hb') as [_ ->]. done. }
  eexists. split; [reflexivity|]. split; [|exact Hb].
  unfold shape0. cbn [rows]. generalize (b :: picked). clear.
  intros l. induction l as [|a l IH]; [done|].
  rewrite !fmap_cons. cbn [concat]. rewrite length_app, IH. done.
Qed.

Lemma stack_and_flatten_total (tmp : list array2) (T c : nat) :
  tmp ≠ [] → Forall (λ v, shape0 v = T ∧ ncols v = c) tmp →
  stack_and_flatten tmp = Ok (ravel <$> tmp).
Proof.
  intros Hne Hall. unfold stack_and_flatten.
  destruct tmp as [|a rest]; [done|].
  apply Forall_cons in Hall as [[Ha0 Ha1] Hall].
  assert (forallb (same_shape a) rest = true) as ->; [|done].
  apply forallb_forall. intros b Hb. apply list_elem_of_In in Hb.
  destruct (proj1 (Forall_forall _ _) Hall b Hb) as [Hb0 Hb1].
  unfold same_shape, shape1. rewrite Ha0, Ha1, Hb0, Hb1.
  by rewrite !Nat.eqb_refl.
Qed.

(** Conditions under which [build_X_y] returns: one record per label,
    first-order rows of one length, and for every record the arrays of
    all candidates, three columns each and the same number of rows in
    total. *)
Lemma build_X_y_total (labels_df : list (label * Z)) (config : Config)
    (db' : Database) (L T : nat) :
  NoDup labels_df.*1 →
  labels_df ≠ [] →
  get_file_file_stats_for labels_df config ≠ [] →
  (∀ l, l ∈ labels_df.*1 → ∃ it, it ∈ statistics db' ∧ st_label it = l) →
  (∀ it, it ∈ statistics db' → st_label it ∈ labels_df.*1 →
     length (st_row it) = L
     ∧ ∃ picked,
         comprehension (getitem_dict (st_match it))
           (get_file_file_stats_for labels_df config) = Ok picked
         ∧ Forall (λ a, wf a ∧ ncols a = 3%nat) picked
         ∧ sum_list (shape0 <$> picked) = T) →
  ∃ X, build_X_y labels_df config db' = Ok (X, labels_df.*2)
       ∧ length X = length labels_df
       ∧ Forall (λ xrow, length xrow = (L + 3 * T)%nat) X.
Proof.
  intros Hnd Hne Hcne Hall Hfacts.
  set (index := labels_df.*1) in *.
  set (cand := get_file_file_stats_for labels_df config) in *.
  set (items := return_cursor st_label index (statistics db')).
  assert (∀ it, it ∈ items → it ∈ statistics db' ∧ st_label it ∈ index)
    as Hitems.
  { intros it Hit. unfold items, return_cursor in Hit.
    by apply list_elem_of_filter in Hit as [? ?]. }
  assert (length index = length labels_df) as Hn
    by (unfold index; by rewrite length_fmap).
  (* the reading loop returns *)
  destruct (for_each_total (read_item index cand) items) with
    (s := (replicate (length labels_df) (@None (list float)),
           replicate (length labels_df) (@None (list array2))))
    as [[fs ffs] Hloop].
  { intros s it Hit. destruct (Hitems it Hit) as [Hs Hl].
    unfold read_item. destruct (get_loc_elem index _ Hl) as [i ->].
    cbn. destruct (Hfacts it Hs Hl) as (_ & picked & -> & _). cbn. eauto. }
  assert (∀ B, length (replicate (length labels_df) (@None B))
               = length index) as Hrep
    by (intros B; by rewrite length_replicate).
  destruct (read_loop _ _ _ (_, _) _ (Hrep _) (Hrep _) Hloop)
    as (Hl1 & Hl2 & Hslots). cbn [fst snd] in Hl1, Hl2, Hslots.
  assert (∀ i, (i < length index)%nat →
            ∃ item picked,
              item ∈ items
              ∧ comprehension (getitem_dict (st_match item)) cand = Ok picked
              ∧ fs !! i = Some (Some (st_row item))
              ∧ ffs !! i = Some (Some picked)) as Hfilled.
  { intros i Hi. destruct (lookup_lt_is_Some_2 index i Hi) as [l Hl].
    destruct (Hall l ltac:(by eapply list_elem_of_lookup_2))
      as (it & Hit & Hlab).
    assert (it ∈ items) as Hin.
    { unfold items, return_cursor. apply list_elem_of_filter.
      split; [|done]. rewrite Hlab. by eapply list_elem_of_lookup_2. }
    destruct (read_loop_hits _ _ _ (_, _) _ it i (Hrep _) (Hrep _) Hloop Hin)
      as (it' & pk & Hit' & _ & Hpk & E1 & E2).
    { rewrite Hlab. by apply get_loc_NoDup. }
    exists it', pk. done. }
  (* np.array(file_stats) *)
  destruct (comprehension_Ok_all unwrap fs) as [rws Hrws].
  { intros o Ho. apply list_elem_of_lookup in Ho as [i Hi].
    destruct (Hfilled i) as (it & pk & _ & _ & E1 & _).
    { apply lookup_lt_Some in Hi. lia. }
    rewrite Hi in E1. inversion E1; subst. cbn. eauto. }
  assert (Forall (λ r, length r = L) rws) as Hrl.
  { apply Forall_lookup. intros i r Hr.
    destruct (comprehension_lookup_inv _ _ _ _ _ Hrws Hr) as (o & Ho & Hu).
    destruct (Hfilled i) as (it & pk & Hit & _ & E1 & _).
    { apply lookup_lt_Some in Ho. lia. }
    rewrite Ho in E1. inversion E1; subst. cbn in Hu. inversion Hu; subst.
    destruct (Hitems it Hit) as [Hs Hlab].
    by destruct (Hfacts it Hs Hlab) as [? _]. }
  destruct (common_length_const rws L Hrl) as [m Hm].
  (* the stacked blocks *)
  assert (cand ≠ []) as Hcne' by done.
  destruct (comprehension_Ok_all
              (λ o : option (list array2), unwrap o ≫= vstack) ffs)
    as [tmp Htmp].
  { intros o Ho. apply list_elem_of_lookup in Ho as [i Hi].
    destruct (Hfilled i) as (it & pk & Hit & Hpk & _ & E2).
    { apply lookup_lt_Some in Hi. lia. }
    rewrite Hi in E2. inversion E2; subst. cbn.
    destruct (Hitems it Hit) as [Hs Hlab].
    destruct (Hfacts it Hs Hlab) as (_ & pk' & Hpk' & Hwf & _).
    assert (pk' = pk) as -> by congruence.
    destruct (vstack_three pk) as (v & Hv & _); [|done|eauto].
    apply comprehension_length in Hpk. destruct pk; [|done].
    destruct cand; done. }
  assert (Forall (λ v, shape0 v = T ∧ ncols v = 3%nat) tmp) as Hshape.
  { apply Forall_lookup. intros i v Hv.
    destruct (comprehension_lookup_inv _ _ _ _ _ Htmp Hv) as (o & Ho & Hu).
    destruct (Hfilled i) as (it & pk & Hit & Hpk & _ & E2).
    { apply lookup_lt_Some in Ho. lia. }
    rewrite Ho in E2. inversion E2; subst. cbn in Hu.
    destruct (Hitems it Hit) as [Hs Hlab].
    destruct (Hfacts it Hs Hlab) as (_ & pk' & Hpk' & Hwf & Hsum).
    assert (pk' = pk) as -> by congruence.
    destruct (vstack_three pk) as (v' & Hv' & Hs0 & Hc); [|done|].
    { apply comprehension_length in Hpk. destruct pk; [|done].
      destruct cand; done. }
    assert (v' = v) as -> by congruence. split; [congruence | done]. }
  pose proof (comprehension_length _ _ _ Hrws) as Hlr.
  pose proof (comprehension_length _ _ _ Htmp) as Hlt.
  assert (tmp ≠ []) as Htne.
  { destruct tmp; [|done]. destruct labels_df; [done|].
    cbn in Hlt. rewrite Hl2, Hn in Hlt. done. }
  (* the whole function *)
  assert (build_X_y labels_df config db'
          = Ok (zip_with app (map (map nan_to_num) rws) (ravel <$> tmp),
                labels_df.*2)) as Hrun.
  { unfold build_X_y. fold index cand items. rewrite Hloop.
    cbn [mbind result_bind bind]. unfold np_array. rewrite Hrws.
    cbn [mbind result_bind bind]. rewrite Hm.
    cbn [mbind result_bind bind]. rewrite Htmp.
    cbn [mbind result_bind bind].
    rewrite (stack_and_flatten_total tmp T 3) by done.
    cbn [mbind result_bind bind]. unfold hstack.
    rewrite length_map, length_fmap.
    assert (length rws = length tmp) as -> by lia.
    rewrite Nat.eqb_refl. done. }
  eexists. split; [exact Hrun|].
  destruct (build_X_y_rows _ _ _ _ _ Hrun) as (_ & HlenX & Hrows).
  split; [done|]. apply Forall_lookup. intros i xrow Hx.
  destruct (Hrows i xrow Hx) as (it & pk & Hs & Hidx & Hpk & ->).
  assert (st_label it ∈ index) as Hlab by by eapply list_elem_of_lookup_2.
  destruct (Hfacts it Hs Hlab) as (HL & pk' & Hpk' & Hwf & Hsum).
  assert (pk' = pk) as -> by (unfold cand in *; congruence).
  rewrite length_app, length_fmap, picked_length by done. lia.
Qed.

(** What the store of computed records gives [build_X_y]: the
    persisted path is the configured one, and every record holds a row
    of the fixed length and an array per candidate. *)
Lemma computed_store_facts (labels_df : list (label * Z))
    (config : Config) (db db' : Database) :
  template_pool config = None →
  NoDup (si_label <$> spectrograms db) →
  Exists (λ p, p.2 = 1) labels_df →
  (∀ l, l ∈ labels_df.*1 → ∃ it, it ∈ statistics db' ∧ st_label it = l) →
  (∀ it, it ∈ statistics db' → st_label it ∈ labels_df.*1 →
     computed labels_df.*1 config db it) →
  labels_df ≠ []
  ∧ get_file_file_stats_for labels_df config ≠ []
  ∧ ∀ it, it ∈ statistics db' → st_label it ∈ labels_df.*1 →
      length (st_row it)
      = (16 + 4 * Z.to_nat (num_frequency_bands config))%nat
      ∧ ∃ picked,
          comprehension (getitem_dict (st_match it))
            (get_file_file_stats_for labels_df config) = Ok picked
          ∧ Forall (λ a, wf a ∧ ncols a = 3%nat) picked
          ∧ sum_list (shape0 <$> picked)
            = sum_list (n_boxes db
                        <$> get_file_file_stats_for labels_df config).
Proof.
  intros Hpool Hnds Hpos Hall Hrec.
  apply Exists_exists in Hpos as (p & Hp & Hp1).
  assert (labels_df ≠ []) as Hne by (intros ->; by apply elem_of_nil in Hp).
  assert (p.1 ∈ get_file_file_stats_for labels_df config) as Hpc.
  { unfold get_file_file_stats_for. rewrite Hpool.
    apply list_elem_of_fmap. exists p. split; [done|].
    by apply list_elem_of_filter. }
  assert (∀ x, x ∈ get_file_file_stats_for labels_df config
               → x ∈ labels_df.*1) as Hsub.
  { unfold get_file_file_stats_for. rewrite Hpool. intros x Hx.
    apply list_elem_of_fmap in Hx as (q & -> & Hq).
    apply list_elem_of_filter in Hq as [_ Hq].
    apply list_elem_of_fmap. eauto. }
  assert (db_rw config = true) as Hrw.
  { destruct (Hall p.1 (Hsub _ Hpc)) as (it & Hit & Hlab).
    destruct (Hrec it Hit ltac:(rewrite Hlab; auto))
      as (df & spec & normal & row & ms & _ & Hffs & _).
    destruct (db_rw config) eqn:E; [done|].
    rewrite live_path_raises in Hffs; [done | done |].
    destruct labels_df; done. }
  assert (∀ x, x ∈ labels_df.*1
               → ∃ r, r ∈ spectrograms db ∧ si_label r = x) as Hstored.
  { intros x Hx. destruct (Hall x Hx) as (it & Hit & <-).
    by destruct (computed_record_facts _ _ _ _ Hrw Hpool Hnds
                   (Hrec it Hit Hx)) as (_ & Hs & _). }
  split; [done|]. split.
  { intros E. rewrite E in Hpc. by apply elem_of_nil in Hpc. }
  intros it Hit Hlab.
  destruct (computed_record_facts _ _ _ _ Hrw Hpool Hnds (Hrec it Hit Hlab))
    as (HL & _ & Hm).
  split; [exact HL|].
  assert (∀ x, x ∈ get_file_file_stats_for labels_df config →
            ∃ a, st_match it !! x = Some a ∧ wf a ∧ ncols a = 3%nat
                 ∧ shape0 a = n_boxes db x) as Hcands.
  { intros x Hx. apply Hm; auto. }
  destruct (picked_total (st_match it)
              (get_file_file_stats_for labels_df config)) as [picked Hpk].
  { intros x Hx. destruct (Hcands x Hx) as (a & Ha & _). eauto. }
  exists picked. split; [exact Hpk|].
  destruct (picked_facts db _ _ picked Hcands Hpk) as [Hf Hsum]. done.
Qed.

(** [file_stats] and [file_file_stats] read the spectrogram stores
    only. *)
Lemma file_stats_same_store (l : label) config (db db1 : Database) :
  spectrograms db1 = spectrograms db →
  file_stats sample_statistics pd_describe spect_gen l config db1
  = file_stats sample_statistics pd_describe spect_gen l config db.
Proof.
  intros H. unfold file_stats, read_spectrogram. by rewrite H.
Qed.

Lemma file_file_stats_same_store df_one spec_one normal_one index config
    (db db1 : Database) :
  spectrograms db1 = spectrograms db → pool_dbs db1 = pool_dbs db →
  file_file_stats df_one spec_one normal_one index config db1
  = file_file_stats df_one spec_one normal_one index config db.
Proof.
  intros H1 H2. unfold Lasseck.file_file_stats, items_of.
  by rewrite H1, H2.
Qed.

(** A returning [run_stats] keeps the spectrogram stores, replaces the
    records of its label by the one it computed, and keeps the records
    of the other labels. *)
Lemma run_stats_record (idx : label) (index : list label) config
    (db db1 : Database) u :
  run_stats idx index config db = (Ok u, db1) →
  spectrograms db1 = spectrograms db ∧ pool_dbs db1 = pool_dbs db
  ∧ ∃ rec, st_label rec = idx ∧ computed index config db rec
      ∧ ∀ it, it ∈ statistics db1
              ↔ (it ∈ statistics db ∧ st_label it ≠ idx) ∨ it = rec.
Proof.
  unfold Lasseck.run_stats. intros H.
  destruct (get_loc index idx) as [i|e] eqn:Hloc; [|by inversion H].
  cbn [mbind result_bind bind] in H.
  destruct (file_stats sample_statistics pd_describe spect_gen idx config db)
    as [[[[df spec] normal] row]|e] eqn:Hfs; [|by inversion H].
  cbn [mbind result_bind bind] in H.
  destruct (file_file_stats df _ normal index config db)
    as [ms|e] eqn:Hffs; [|by inversion H].
  cbn [mbind result_bind bind] in H. unfold write_file_stats in H.
  inversion H; subst; clear H. cbn [spectrograms pool_dbs statistics].
  split; [done|]. split; [done|].
  exists (stats_record idx row ms). split; [done|]. split.
  { exists df, spec, normal, row, ms. done. }
  intros it. rewrite elem_of_app, list_elem_of_filter, list_elem_of_singleton.
  unfold stats_record. tauto.
Qed.

(** A returning statistics pass keeps the spectrogram stores, leaves a
    computed record for every label it was run for, and keeps the
    records of the other labels. *)
Lemma statistics_pass_records (index : list label) config (db : Database) :
  ∀ todo db1 db',
  spectrograms db1 = spectrograms db → pool_dbs db1 = pool_dbs db →
  statistics_pass sample_statistics pd_describe spect_gen
    apply_gaussian_filter matchTemplate minMaxLoc
    todo index config db1 = Ok db' →
  (∀ l, l ∈ todo → ∃ it, it ∈ statistics db' ∧ st_label it = l)
  ∧ (∀ it, it ∈ statistics db' → st_label it ∈ todo →
       computed index config db it)
  ∧ (∀ it, st_label it ∉ todo →
       it ∈ statistics db' ↔ it ∈ statistics db1).
Proof.
  induction todo as [|idx rest IH]; intros db1 db' Hs Hp Hrun.
  - cbn in Hrun. inversion Hrun; subst. split; [|split].
    + intros l Hl. by apply elem_of_nil in Hl.
    + intros it _ Hl. by apply elem_of_nil in Hl.
    + done.
  - cbn [statistics_pass] in Hrun.
    destruct (run_stats idx index config db1) as [[u|e] db2] eqn:Hstep;
      [|done].
    destruct (run_stats_record _ _ _ _ _ _ Hstep)
      as (Hs2 & Hp2 & rec & Hlab & Hcomp & Hmem).
    assert (computed index config db rec) as Hcomp'.
    { destruct Hcomp as (df & spec & normal & row & ms & Hfs & Hffs & Hit).
      exists df, spec, normal, row, ms.
      rewrite <- (file_stats_same_store _ _ db db1) by done.
      rewrite <- (file_file_stats_same_store _ _ _ _ _ db db1) by done.
      done. }
    destruct (IH db2 db' ltac:(congruence) ltac:(congruence) Hrun)
      as (HA & HB & HC).
    split; [|split].
    + intros l Hl. apply elem_of_cons in Hl as [-> | Hl]; [|by apply HA].
      destruct (decide (idx ∈ rest)) as [Hin|Hnin]; [by apply HA|].
      exists rec. split; [|done]. apply HC; [by rewrite Hlab|].
      apply Hmem. by right.
    + intros it Hit Hl.
      destruct (decide (st_label it ∈ rest)) as [Hin|Hnin]; [by apply HB|].
      apply elem_of_cons in Hl as [Hl | Hl]; [|done].
      apply HC in Hit; [|done].
      apply Hmem in Hit as [[_ Hne] | ->]; done.
    + intros it Hl. apply not_elem_of_cons in Hl as [Hne Hnin].
      rewrite (HC it Hnin), Hmem. split; [|by left].
      intros [[? _] | ->]; done.
Qed.

(** From persisted statistics to the feature matrix.  Suppose no
    template pool is configured, the labels of the table and of the
    stored spectrograms are distinct, some label is a positive one, and
    the statistics store holds, for every label of the table, a record,
    each such record being the one [file_stats] and [file_file_stats]
    compute for its label.  Then [build_X_y] returns a matrix with one
    row per label and the species column, and every row has
    [16 + 4 * num_frequency_bands + 3 * (number of stored boxes of the
    positive labels)] values. *)
Theorem assembly_after_statistics (labels_df : list (label * Z))
    (config : Config) (db db' : Database) :
  template_pool config = None →
  NoDup labels_df.*1 →
  NoDup (si_label <$> spectrograms db) →
  Exists (λ p, p.2 = 1) labels_df →
  (∀ l, l ∈ labels_df.*1 → ∃ it, it ∈ statistics db' ∧ st_label it = l) →
  (∀ it, it ∈ statistics db' → st_label it ∈ labels_df.*1 →
     computed labels_df.*1 config db it) →
  ∃ X, build_X_y labels_df config db' = Ok (X, labels_df.*2)
       ∧ length X = length labels_df
       ∧ Forall (λ xrow,
           length xrow
           = (16 + 4 * Z.to_nat (num_frequency_bands config)
              + 3 * sum_list (n_boxes db
                              <$> get_file_file_stats_for labels_df config))%nat)
           X.
Proof.
  intros Hpool Hnd Hnds Hpos Hall Hrec.
  destruct (computed_store_facts _ _ _ _ Hpool Hnds Hpos Hall Hrec)
    as (Hne & Hcne & Hfacts).
  by apply build_X_y_total.
Qed.

(** The two passes of [model_fit_algo] compose.  When no template pool
    is configured, the labels of the table and of the stored
    spectrograms are distinct, some label is a positive one and the
    statistics pass over the index returns, [build_X_y] on the
    resulting store returns: one row per label, every row with
    [16 + 4 * num_frequency_bands + 3 * (number of stored boxes of the
    positive labels)] values, and the species column as [y]. *)
Theorem matrix_after_statistics_pass (labels_df : list (label * Z))
    (config : Config) (db db' : Database) :
  template_pool config = None →
  NoDup labels_df.*1 →
  NoDup (si_label <$> spectrograms db) →
  Exists (λ p, p.2 = 1) labels_df →
  statistics_pass sample_statistics pd_describe spect_gen
    apply_gaussian_filter matchTemplate minMaxLoc
    labels_df.*1 labels_df.*1 config db = Ok db' →
  ∃ X, build_X_y labels_df config db' = Ok (X, labels_df.*2)
       ∧ length X = length labels_df
       ∧ Forall (λ xrow,
           length xrow
           = (16 + 4 * Z.to_nat (num_frequency_bands config)
              + 3 * sum_list (n_boxes db
                              <$> get_file_file_stats_for labels_df config))%nat)
           X.
Proof.
  intros Hpool Hnd Hnds Hpos Hpass.
  destruct (statistics_pass_records _ _ _ _ _ _ eq_refl eq_refl Hpass)
    as (HA & HB & _).
  destruct (computed_store_facts _ _ _ _ Hpool Hnds Hpos HA HB)
    as (Hne & Hcne & Hfacts).
  by apply build_X_y_total.
Qed.

End Assembly.

(* ===================================================================== *)
(** * The further properties on the data set *)
(* ===================================================================== *)

Section MoreOnTheDataSet.

Import Lasseck.

Lemma valid_sp : Spec.valid Ex.sp.
Proof. split; [repeat constructor | reflexivity]. Qed.

Lemma bandpass_returns_witness :
  Spec.valid Ex.sp
  ∧ ∃ s', Spec.bandpass Ex.sp (of_Z 6) (of_Z 25) = Ok s'
          ∧ Spec.frequencies s' = [of_Z 10; of_Z 20]
          ∧ Spec.valid s'.
Proof.
  split; [exact valid_sp|].
  destruct (bandpass_returns Ex.sp (of_Z 6) (of_Z 25) valid_sp) as [_ H].
  destruct H as (lo & hi & s' & Hlo & Hhi & Hrun & _ & Hf & _ & Hv);
    [vm_compute; reflexivity | discriminate |].
  exists s'. split; [exact Hrun|]. split; [|exact Hv].
  assert (lo = 1%nat) as -> by (vm_compute in Hlo; congruence).
  assert (hi = 2%nat) as -> by (vm_compute in Hhi; congruence).
  exact Hf.
Defined.

Lemma trim_returns_witness :
  Spec.valid Ex.sp
  ∧ ∃ s', Spec.trim Ex.sp (of_Z 1) (of_Z 1) = Ok s'
          ∧ Spec.times s' = [of_Z 1]
          ∧ Spec.valid s'.
Proof.
  split; [exact valid_sp|].
  destruct (trim_returns Ex.sp (of_Z 1) (of_Z 1) valid_sp) as [_ H].
  destruct H as (lo & hi & s' & Hlo & Hhi & Hrun & _ & Ht & _ & Hv);
    [discriminate|].
  exists s'. split; [exact Hrun|]. split; [|exact Hv].
  assert (lo = 1%nat) as -> by (vm_compute in Hlo; congruence).
  assert (hi = 1%nat) as -> by (vm_compute in Hhi; congruence).
  exact Ht.
Defined.


Lemma limit_db_range_idempotent_witness :
  ∃ s', Spec.limit_db_range Ex.sp (of_Z (-100)) (of_Z (-20)) = Ok s'
        ∧ Spec.limit_db_range s' (of_Z (-100)) (of_Z (-20)) = Ok s'.
Proof.
  assert (∃ s', Spec.limit_db_range Ex.sp (of_Z (-100)) (of_Z (-20)) = Ok s')
    as [s' Hs'] by (eexists; vm_compute; reflexivity).
  exists s'. split; [exact Hs'|].
  exact (limit_db_range_idempotent Ex.sp s' _ _ Hs').
Defined.

Lemma closest_index_minimal_witness :
  Spec.closest_index [of_Z 0; of_Z 10; of_Z 20] (of_Z 12) = Ok 1%nat
  ∧ ∀ j y, [of_Z 0; of_Z 10; of_Z 20] !! j = Some y →
      SFltb (fabs (fsub y (of_Z 12))) (fabs (fsub (of_Z 10) (of_Z 12)))
      = false.
Proof.
  assert (Spec.closest_index [of_Z 0; of_Z 10; of_Z 20] (of_Z 12)
          = Ok 1%nat) as Hrun by (vm_compute; reflexivity).
  split; [exact Hrun|].
  destruct (closest_index_minimal [of_Z 0; of_Z 10; of_Z 20] (of_Z 12) 1)
    as (x & Hx & Hmin & _); [repeat constructor | exact Hrun |].
  assert (x = of_Z 10) as ->
    by (apply (inj Some); rewrite <- Hx; reflexivity).
  exact Hmin.
Defined.

Lemma derived_time_axis_witness :
  Spec.window_length Ex.sp ≠ Ok None
  ∧ ∃ s', Spec.apply Ex.rescale Ex.rescale_from
            (Spec.Trim (of_Z 0) (of_Z 1)) Ex.sp = Ok s'
          ∧ Spec.window_length s' = Ok None
          ∧ Spec.duration s' = Ok (of_Z 1, true).
Proof.
  split; [vm_compute; discriminate|].
  assert (∃ s', Spec.apply Ex.rescale Ex.rescale_from
                  (Spec.Trim (of_Z 0) (of_Z 1)) Ex.sp = Ok s'
                ∧ last (Spec.times s') = Some (of_Z 1))
    as (s' & Hs' & Hlast)
    by (eexists; split; vm_compute; reflexivity).
  exists s'. split; [exact Hs'|].
  destruct (derived_time_axis Ex.rescale Ex.rescale_from _ Ex.sp s' Hs')
    as (Hw & _ & _ & Hd).
  split; [exact Hw|]. rewrite Hd, Hlast. reflexivity.
Defined.

Lemma amplitude_length_witness :
  Spec.valid Ex.sp
  ∧ ∃ amp, Spec.amplitude Ex.sp (Some [of_Z 5; of_Z 25]) = Ok amp
           ∧ length amp = 2%nat.
Proof.
  split; [exact valid_sp|].
  assert (∃ amp, Spec.amplitude Ex.sp (Some [of_Z 5; of_Z 25]) = Ok amp)
    as [amp Hamp] by (eexists; vm_compute; reflexivity).
  exists amp. split; [exact Hamp|].
  destruct (amplitude_length Ex.sp (Some [of_Z 5; of_Z 25]) valid_sp)
    as [Hlen _].
  exact (Hlen amp Hamp).
Defined.

Lemma net_amplitude_signal_witness :
  Spec.valid Ex.sp
  ∧ ∃ net, Spec.net_amplitude Ex.sp [of_Z 5; of_Z 25]
             (Some [[of_Z 0; of_Z 5]]) = Ok net
           ∧ length net = 2%nat
           ∧ Forall (λ v, v = zero ∨ SFltb zero v = true) net.
Proof.
  split; [exact valid_sp|].
  assert (∃ net, Spec.net_amplitude Ex.sp [of_Z 5; of_Z 25]
                   (Some [[of_Z 0; of_Z 5]]) = Ok net)
    as [net Hnet] by (eexists; vm_compute; reflexivity).
  exists net. split; [exact Hnet|].
  destruct (net_amplitude_signal Ex.sp _ _ net valid_sp Hnet)
    as [Hlen Hpos].
  split; [exact Hlen|]. by apply Hpos.
Defined.

Lemma array_split_heights_witness :
  array_split Ex.tall 0 = Raise ValueError
  ∧ ∃ bands, array_split Ex.tall 3 = Ok bands
             ∧ shape0 <$> bands = [2; 2; 1]%nat.
Proof.
  destruct (array_split_heights Ex.tall 0) as [H0 _].
  split; [apply H0; lia|].
  assert (∃ bands, array_split Ex.tall 3 = Ok bands) as [bands Hb]
    by (eexists; vm_compute; reflexivity).
  exists bands. split; [exact Hb|].
  destruct (array_split_heights Ex.tall 3) as [_ H3].
  by destruct (H3 bands Hb) as (_ & _ & _ & ->).
Defined.

Lemma file_stats_returns_iff_witness :
  (∃ row, file_stats Ex.sample_statistics Ex.describe_numeric Ex.spect_gen
            "b" Ex.config Ex.db = Ok ([Ex.box_b], Ex.spec_b, of_Z 2, row))
  ∧ file_stats Ex.sample_statistics Ex.describe_numeric Ex.spect_gen
      "a" Ex.many_bands_config Ex.db = Raise ValueError
  ∧ file_stats Ex.sample_statistics Ex.describe_object Ex.spect_gen
      "a" Ex.config Ex.db = Raise KeyError.
Proof.
  assert (wf Ex.spec_a) as Hwfa by repeat constructor.
  assert (wf Ex.spec_b) as Hwfb by repeat constructor.
  split; [|split].
  - destruct (file_stats_returns_iff Ex.sample_statistics
                Ex.describe_numeric Ex.spect_gen "b" Ex.config Ex.db
                [Ex.box_b] Ex.spec_b (of_Z 2) eq_refl Hwfb) as (_ & _ & Hok).
    destruct Hok as (bands & block & _ & _ & _ & _ & Hrun).
    + vm_compute. repeat split; first [lia | discriminate].
    + right.
      repeat (apply Forall_cons; split;
              [apply (bool_decide_unpack _); vm_compute; exact I|]).
      constructor.
    + eexists. exact Hrun.
  - destruct (file_stats_returns_iff Ex.sample_statistics
                Ex.describe_numeric Ex.spect_gen "a" Ex.many_bands_config
                Ex.db [] Ex.spec_a (of_Z 1) eq_refl Hwfa) as (Hbad & _).
    apply Hbad. vm_compute. intros (_ & _ & H). by apply H.
  - destruct (file_stats_returns_iff Ex.sample_statistics
                Ex.describe_object Ex.spect_gen "a" Ex.config
                Ex.db [] Ex.spec_a (of_Z 1) eq_refl Hwfa) as (_ & Hkey & _).
    apply Hkey.
    + vm_compute. repeat split; first [lia | discriminate].
    + intros [H2 | Hall]; [vm_compute in H2; discriminate|].
      apply Forall_cons in Hall as [Hmin _]. simpl in Hmin.
      repeat (apply elem_of_cons in Hmin as [Hmin|Hmin]; [discriminate|]).
      by apply elem_of_nil in Hmin.
Defined.

Lemma eligible_when_source_covers_witness :
  eligible Ex.tall Ex.spec_b 1 Ex.box_b = true
  ∧ (shape0 (slice2 1 2 0 1 Ex.spec_b)
     ≤ shape0 (slice_rows (y_min_target 1 Ex.box_b)
                          (y_max_target Ex.spec_b 1 Ex.box_b) Ex.tall))%nat.
Proof.
  destruct (eligible_when_source_covers Ex.tall Ex.spec_b 1 Ex.box_b)
    as [_ H]; [vm_compute; lia|].
  destruct H as [He Hs]; [reflexivity | vm_compute; lia |].
  split; [exact He|].
  destruct Hs as (_ & _ & Hh & _); [lia | vm_compute; discriminate
                                    | vm_compute; discriminate |].
  exact Hh.
Defined.

Lemma live_run_stats_never_writes_witness :
  ∃ e, run_stats Ex.sample_statistics Ex.describe_numeric Ex.spect_gen
         Ex.gaussian Ex.matchTemplate Ex.minMaxLoc
         "a" ["a"; "b"] Ex.live_config Ex.db = (Raise e, Ex.db).
Proof.
  exact (live_run_stats_never_writes Ex.sample_statistics
              Ex.describe_numeric Ex.spect_gen Ex.gaussian
           Ex.matchTemplate Ex.minMaxLoc "a" ["a"; "b"] Ex.live_config
           Ex.db eq_refl).
Defined.

Lemma pool_match_stats_rows_witness :
  ∃ d arr,
    file_file_stats Ex.spect_gen Ex.gaussian Ex.matchTemplate Ex.minMaxLoc
      [] Ex.spec_a (of_Z 1) ["a"; "b"] Ex.pool_config Ex.db = Ok d
    ∧ d !! "b" = Some arr
    ∧ d !! "a" = None
    ∧ length arr = 1%nat.
Proof.
  assert (∃ d arr,
            file_file_stats Ex.spect_gen Ex.gaussian Ex.matchTemplate
              Ex.minMaxLoc [] Ex.spec_a (of_Z 1) ["a"; "b"] Ex.pool_config
              Ex.db = Ok d
            ∧ d !! "b" = Some arr ∧ d !! "a" = None)
    as (d & arr & Hd & Hb & Ha)
    by (eexists _, _; repeat split; vm_compute; reflexivity).
  exists d, arr. split; [exact Hd|]. split; [exact Hb|]. split; [exact Ha|].
  destruct (pool_match_stats_rows Ex.spect_gen Ex.gaussian Ex.matchTemplate
              Ex.minMaxLoc [] Ex.spec_a (of_Z 1) ["a"; "b"] Ex.pool_config
              Ex.db [("b", [0])] d "b" arr eq_refl Hd Hb)
    as (_ & positions & Hpos & Hlen).
  assert (positions = [0]) as -> by (vm_compute in Hpos; congruence).
  exact Hlen.
Defined.

Lemma build_X_y_needs_candidates_witness :
  ∃ e, build_X_y Ex.negatives Ex.config Ex.stats_db = Raise e.
Proof.
  apply build_X_y_needs_candidates. left.
  split; [reflexivity|]. repeat constructor; discriminate.
Defined.

Lemma records_after_pass :
  statistics_pass Ex.sample_statistics Ex.describe_numeric Ex.spect_gen
    Ex.gaussian Ex.matchTemplate Ex.minMaxLoc
    ["a"; "b"] ["a"; "b"] Ex.config Ex.db = Ok Ex.after_pass.
Proof. vm_compute. reflexivity. Qed.

Lemma assembly_after_statistics_witness :
  ∃ X, build_X_y Ex.targets Ex.config Ex.after_pass = Ok (X, [0; 1])
       ∧ length X = 2%nat
       ∧ Forall (λ xrow, length xrow = 27%nat) X.
Proof.
  destruct (statistics_pass_records Ex.sample_statistics
              Ex.describe_numeric Ex.spect_gen Ex.gaussian
              Ex.matchTemplate Ex.minMaxLoc ["a"; "b"] Ex.config Ex.db
              ["a"; "b"] Ex.db Ex.after_pass eq_refl eq_refl
              records_after_pass) as (HA & HB & _).
  apply (assembly_after_statistics Ex.sample_statistics
              Ex.describe_numeric Ex.spect_gen Ex.gaussian Ex.matchTemplate
           Ex.minMaxLoc Ex.targets Ex.config Ex.db Ex.after_pass).
  - reflexivity.
  - apply (bool_decide_unpack _). vm_compute. reflexivity.
  - apply (bool_decide_unpack _). vm_compute. reflexivity.
  - right. left. reflexivity.
  - exact HA.
  - exact HB.
Defined.

Lemma matrix_after_statistics_pass_witness :
  ∃ X, build_X_y Ex.targets Ex.config Ex.after_pass = Ok (X, [0; 1])
       ∧ length X = 2%nat
       ∧ Forall (λ xrow, length xrow = 27%nat) X.
Proof.
  apply (matrix_after_statistics_pass Ex.sample_statistics
              Ex.describe_numeric Ex.spect_gen Ex.gaussian
           Ex.matchTemplate Ex.minMaxLoc Ex.targets Ex.config Ex.db
           Ex.after_pass).
  - reflexivity.
  - apply (bool_decide_unpack _). vm_compute. reflexivity.
  - apply (bool_decide_unpack _). vm_compute. reflexivity.
  - right. left. reflexivity.
  - vm_compute. reflexivity.
Defined.

End MoreOnTheDataSet.
